(** * A shallow embedding of the WhatsApp web front-end server

    The server (an Express application over the [whatsapp-web.js] client)
    keeps a process-wide session, a map of pinned messages, and exposes a
    history pager and an outbound send pipeline.  The handlers are embedded
    as pure functions: the process-wide variables become explicit state, the
    calls into the messaging client become oracles passed as arguments, and a
    handler returns its HTTP response together with the new state and the
    list of calls it made.  Such a function is the handler on a run in which
    no other handler comes in while it awaits the client; for the pin
    handler, which reads and writes a shared array around its awaits, the
    runs in which requests overlap are embedded as well, as events of a
    server.

    Strings are Rocq strings, one character per code unit (code units below
    256).  JavaScript numbers that the handlers compute with are integers or
    [NaN]; they are embedded as [jsnum]. *)

From Stdlib Require Import ZArith Lia Ascii String.
From stdpp Require Import base option list sorting strings gmap.

Local Open Scope Z_scope.

(** ** JavaScript primitives used by the handlers *)

Module JS.

(** The number values that occur: integers and [NaN].  [Num z] stands for
    the double nearest to [z]; every integer of magnitude at most 2^53 is
    its own double, and rounding is monotone, so comparisons against such
    integers are exact. *)
Inductive jsnum : Type :=
| NaN
| Num (z : Z).

Definition add (a b : jsnum) : jsnum :=
  match a, b with
  | Num x, Num y => Num (x + y)
  | _, _ => NaN
  end.

Definition sub (a b : jsnum) : jsnum :=
  match a, b with
  | Num x, Num y => Num (x - y)
  | _, _ => NaN
  end.

(** [Math.min] and [Math.max]: [NaN] as soon as one argument is [NaN]. *)
Definition Math_min (a b : jsnum) : jsnum :=
  match a, b with
  | Num x, Num y => Num (Z.min x y)
  | _, _ => NaN
  end.

Definition Math_max (a b : jsnum) : jsnum :=
  match a, b with
  | Num x, Num y => Num (Z.max x y)
  | _, _ => NaN
  end.

(** [a < b] and [a === b]: false as soon as one side is [NaN]. *)
Definition lt (a b : jsnum) : bool :=
  match a, b with
  | Num x, Num y => x <? y
  | _, _ => false
  end.

Definition strict_eq (a b : jsnum) : bool :=
  match a, b with
  | Num x, Num y => x =? y
  | _, _ => false
  end.

(** Truthiness of an optional string: [undefined] and [""] are falsy. *)
Definition truthy (o : option string) : bool :=
  match o with
  | Some s => negb (String.eqb s "")
  | None => false
  end.

(** [a || b] on an optional string with a string default. *)
Definition or_else (o : option string) (d : string) : string :=
  match o with
  | Some s => if String.eqb s "" then d else s
  | None => d
  end.

Definition len (s : string) : Z := Z.of_nat (String.length s).

(** [s.startsWith(p)] *)
Definition startsWith (s p : string) : bool := String.prefix p s.

(** [s.includes(needle)]: [needle] occurs at some position of [s]. *)
Fixpoint includes (s needle : string) : bool :=
  String.prefix needle s
  || match s with
     | EmptyString => false
     | String _ rest => includes rest needle
     end.

(** [s.split(",")[1]]: the piece between the first and the second comma,
    [undefined] when [s] holds no comma. *)
Fixpoint upto_comma (s : string) : string :=
  match s with
  | EmptyString => EmptyString
  | String c rest =>
      if Ascii.eqb c ","%char then EmptyString else String c (upto_comma rest)
  end.

Fixpoint split_comma_1 (s : string) : option string :=
  match s with
  | EmptyString => None
  | String c rest =>
      if Ascii.eqb c ","%char then Some (upto_comma rest) else split_comma_1 rest
  end.

(** [parseInt(s, 10)].  Leading white space is skipped, one sign is read,
    then the longest run of decimal digits; no digit gives [NaN]. *)
Definition isStrWhiteSpaceChar (c : ascii) : bool :=
  let n := Z.of_nat (nat_of_ascii c) in
  ((9 <=? n) && (n <=? 13)) || (n =? 32) || (n =? 160).

Fixpoint trimStart (s : string) : string :=
  match s with
  | EmptyString => EmptyString
  | String c rest => if isStrWhiteSpaceChar c then trimStart rest else s
  end.

Definition digitValue (c : ascii) : option Z :=
  let n := Z.of_nat (nat_of_ascii c) in
  if (48 <=? n) && (n <=? 57) then Some (n - 48) else None.

Fixpoint parseDigits (s : string) (acc : option Z) : option Z :=
  match s with
  | EmptyString => acc
  | String c rest =>
      match digitValue c with
      | Some d => parseDigits rest (Some (10 * default 0 acc + d))
      | None => acc
      end
  end.

Definition parseInt10 (s : string) : jsnum :=
  let t := trimStart s in
  let '(sign, digits) :=
    match t with
    | String "-"%char rest => (-1, rest)
    | String "+"%char rest => (1, rest)
    | _ => (1, t)
    end in
  match parseDigits digits None with
  | Some m => Num (sign * m)
  | None => NaN
  end.

(** [arr.findIndex(p)]: the first index whose element satisfies [p],
    [-1] when there is none. *)
Fixpoint findIndex_from {A} (p : A -> bool) (l : list A) (i : Z) : Z :=
  match l with
  | [] => -1
  | x :: rest => if p x then i else findIndex_from p rest (i + 1)
  end.

Definition findIndex {A} (p : A -> bool) (l : list A) : Z :=
  findIndex_from p l 0.

(** [arr.slice(start, end)] with the relative-index rules of the language. *)
Definition relative_index (n : Z) (i : jsnum) : Z :=
  match i with
  | NaN => 0
  | Num z => if z <? 0 then Z.max (n + z) 0 else Z.min z n
  end.

Definition slice {A} (l : list A) (s e : jsnum) : list A :=
  let n := Z.of_nat (length l) in
  let k := relative_index n s in
  let f := relative_index n e in
  take (Z.to_nat (Z.max (f - k) 0)) (drop (Z.to_nat k) l).

(** [arr[i]] for an index inside the array. *)
Definition nth_Z {A} (l : list A) (i : Z) : option A :=
  if i <? 0 then None else l !! Z.to_nat i.

End JS.

(** An awaited call into the messaging client either returns or throws. *)
Inductive ext (A : Type) : Type :=
| Returns (a : A)
| Throws (message : string).
Arguments Returns {A} a.
Arguments Throws {A} message.

(** ** Session state and the client's lifecycle events *)

Record Session : Type := mkSession {
  clientExists : bool;
  qrCodeData : option string;
  isAuthenticated : bool;
  isReady : bool;
  clientState : string
}.

(** What a handler pushes to the connected sockets with [io.emit]. *)
Inductive Emit : Type :=
| EmitQr (qr : option string)
| EmitStatus (authenticated ready : bool) (state : string)
| EmitLoading (percent message : string).

Inductive ClientEvent : Type :=
| OnQr (dataUrl : string)
| OnAuthenticated
| OnAuthFailure (msg : string)
| OnReady
| OnDisconnected (reason : string)
| OnChangeState (state : string)
| OnLoadingScreen (percent message : string).

Definition status_of (s : Session) : Emit :=
  EmitStatus (isAuthenticated s) (isReady s) (clientState s).

Definition on_qr (dataUrl : string) (s : Session) : Session * list Emit :=
  let s' := {| clientExists := clientExists s;
               qrCodeData := Some dataUrl;
               isAuthenticated := false;
               isReady := false;
               clientState := "QR_RECEIVED" |} in
  (s', [EmitQr (Some dataUrl); status_of s']).

Definition on_authenticated (s : Session) : Session * list Emit :=
  let s' := {| clientExists := clientExists s;
               qrCodeData := None;
               isAuthenticated := true;
               isReady := isReady s;
               clientState := "AUTHENTICATED" |} in
  (s', [EmitQr None; status_of s']).

Definition on_auth_failure (s : Session) : Session * list Emit :=
  let s' := {| clientExists := clientExists s;
               qrCodeData := qrCodeData s;
               isAuthenticated := false;
               isReady := false;
               clientState := "AUTH_FAILURE" |} in
  (s', [status_of s']).

Definition on_ready (s : Session) : Session * list Emit :=
  let s' := {| clientExists := clientExists s;
               qrCodeData := None;
               isAuthenticated := isAuthenticated s;
               isReady := true;
               clientState := "READY" |} in
  (s', [EmitQr None; status_of s']).

Definition on_disconnected (s : Session) : Session * list Emit :=
  let s' := {| clientExists := clientExists s;
               qrCodeData := None;
               isAuthenticated := false;
               isReady := false;
               clientState := "DISCONNECTED" |} in
  (s', [EmitQr None; status_of s']).

Definition on_change_state (state : string) (s : Session)
  : Session * list Emit :=
  let stored := {| clientExists := clientExists s;
                   qrCodeData := qrCodeData s;
                   isAuthenticated := isAuthenticated s;
                   isReady := isReady s;
                   clientState := state |} in
  let s' :=
    if String.eqb state "READY" then
      {| clientExists := clientExists stored;
         qrCodeData := qrCodeData stored;
         isAuthenticated := isAuthenticated stored;
         isReady := true;
         clientState := clientState stored |}
    else if String.eqb state "CONFLICT" || String.eqb state "UNLAUNCHED" then
      {| clientExists := clientExists stored;
         qrCodeData := qrCodeData stored;
         isAuthenticated := false;
         isReady := false;
         clientState := clientState stored |}
    else stored in
  (s', [status_of s']).

Definition handle_event (e : ClientEvent) (s : Session)
  : Session * list Emit :=
  match e with
  | OnQr dataUrl => on_qr dataUrl s
  | OnAuthenticated => on_authenticated s
  | OnAuthFailure _ => on_auth_failure s
  | OnReady => on_ready s
  | OnDisconnected _ => on_disconnected s
  | OnChangeState state => on_change_state state s
  | OnLoadingScreen percent message => (s, [EmitLoading percent message])
  end.

(** ** Messages as the messaging client hands them out *)

Record MediaData : Type := mkMediaData {
  media_mimetype : string;
  media_data : string
}.

(** A message of the client library.  [msg_id] is [msg.id._serialized];
    [msg_download] is what [msg.downloadMedia()] yields when awaited. *)
Record Message : Type := mkMessage {
  msg_id : string;
  msg_body : string;
  msg_timestamp : Z;
  msg_fromMe : bool;
  msg_from : string;
  msg_to : string;
  msg_hasMedia : bool;
  msg_type : string;
  msg_download : ext (option MediaData)
}.

(** A chat of the client library is its [fetchMessages({limit})]; the
    client is its [getChatById]. *)
Definition Chat : Type := JS.jsnum -> ext (list Message).
Definition Client : Type := string -> ext (option Chat).

(** ** History pager: GET /api/chat-messages/:chatId *)

Record FormattedMessage : Type := mkFormatted {
  fm_id : string;
  fm_body : string;
  fm_timestamp : Z;
  fm_fromMe : bool;
  fm_from : string;
  fm_to : string;
  fm_hasMedia : bool;
  fm_mediaType : string;
  fm_mediaUrl : option string
}.

Inductive PagerResponse : Type :=
| PagerOk (messages : list FormattedMessage)
| PagerError (status : Z) (error : string).

Definition pageSize (limit : option string) : JS.jsnum :=
  JS.Math_min (JS.parseInt10 (JS.or_else limit "50")) (JS.Num 100).

Definition has_id (id : string) (m : Message) : bool :=
  String.eqb (msg_id m) id.

Definition timestamp_at (l : list Message) (i : Z) : Z :=
  from_option msg_timestamp 0 (JS.nth_Z l i).

Definition isNewestFirst (allMessages : list Message) : bool :=
  let n := Z.of_nat (length allMessages) in
  (1 <? n) && (timestamp_at allMessages (n - 1) <? timestamp_at allMessages 0).

(** The bounds of the first slice, by detected order. *)
Definition slice_bounds (allMessages : list Message) (beforeIndex : Z)
    (pageSize : JS.jsnum) : JS.jsnum * JS.jsnum :=
  let n := JS.Num (Z.of_nat (length allMessages)) in
  if isNewestFirst allMessages then
    let startIndex := JS.Num (beforeIndex + 1) in
    (startIndex, JS.Math_min (JS.add startIndex pageSize) n)
  else
    let endIndex := JS.Num beforeIndex in
    (JS.Math_max (JS.Num 0) (JS.sub endIndex pageSize), endIndex).

(** The second attempt, on the enlarged batch. *)
Definition second_attempt (moreMessages : list Message) (beforeId : string)
    (pageSize : JS.jsnum) (messages : list Message) : list Message :=
  let newBeforeIndex := JS.findIndex (has_id beforeId) moreMessages in
  let n := Z.of_nat (length moreMessages) in
  if (0 <=? newBeforeIndex) && (newBeforeIndex <? n - 1) then
    let newStartIndex := JS.Num (newBeforeIndex + 1) in
    let newEndIndex := JS.Math_min (JS.add newStartIndex pageSize) (JS.Num n) in
    JS.slice moreMessages newStartIndex newEndIndex
  else messages.

(** The messages older than the cursor [beforeId]. *)
Definition older_messages (chat : Chat) (beforeId : string)
    (pageSize : JS.jsnum) : ext (list Message) :=
  match chat (JS.Num 500) with
  | Throws e => Throws e
  | Returns allMessages =>
      let beforeIndex := JS.findIndex (has_id beforeId) allMessages in
      if 0 <=? beforeIndex then
        let n := JS.Num (Z.of_nat (length allMessages)) in
        let '(startIndex, endIndex) :=
          slice_bounds allMessages beforeIndex pageSize in
        let messages :=
          if JS.lt startIndex endIndex && JS.lt startIndex n
          then JS.slice allMessages startIndex endIndex
          else [] in
        if JS.lt (JS.Num (Z.of_nat (length messages))) pageSize
           && JS.strict_eq endIndex n
        then
          match chat (JS.Num 1000) with
          | Throws e => Throws e
          | Returns moreMessages =>
              Returns (second_attempt moreMessages beforeId pageSize messages)
          end
        else Returns messages
      else Returns []
  end.

Definition select_messages (chat : Chat) (beforeId : option string)
    (pageSize : JS.jsnum) : ext (list Message) :=
  match beforeId with
  | Some b =>
      if String.eqb b "" then chat pageSize
      else older_messages chat b pageSize
  | None => chat pageSize
  end.

Definition format_message (msg : Message) : FormattedMessage :=
  let mediaUrl :=
    if msg_hasMedia msg && String.eqb (msg_type msg) "image" then
      match msg_download msg with
      | Returns (Some media) =>
          if negb (String.eqb (media_data media) "")
             && negb (String.eqb (media_mimetype media) "")
          then Some ("data:" +:+ media_mimetype media +:+ ";base64,"
                     +:+ media_data media)
          else None
      | _ => None
      end
    else None in
  {| fm_id := msg_id msg;
     fm_body := msg_body msg;
     fm_timestamp := msg_timestamp msg;
     fm_fromMe := msg_fromMe msg;
     fm_from := msg_from msg;
     fm_to := msg_to msg;
     fm_hasMedia := msg_hasMedia msg;
     fm_mediaType := msg_type msg;
     fm_mediaUrl := mediaUrl |}.

Definition chat_messages (s : Session) (client : Client) (chatId : string)
    (beforeId limit : option string) : PagerResponse :=
  if negb (isReady s) || negb (isAuthenticated s) then
    PagerError 400
      "WhatsApp client is not ready. Please wait for authentication."
  else
    match client chatId with
    | Throws _ => PagerError 500 "Failed to get chat messages"
    | Returns None => PagerError 404 "Chat not found"
    | Returns (Some chat) =>
        match select_messages chat beforeId (pageSize limit) with
        | Throws _ => PagerError 500 "Failed to get chat messages"
        | Returns messages => PagerOk (reverse (format_message <$> messages))
        end
    end.

(** ** Pinned messages: POST /api/pin-message, GET /api/pinned-messages *)

Record PinnedMessage : Type := mkPinned {
  pin_id : string;
  pin_text : string;
  pin_timestamp : Z;
  pin_sender : string;
  pin_fromMe : bool
}.

Record PinRequest : Type := mkPinRequest {
  pin_chatId : option string;
  pin_messageId : option string;
  pin_action : option string
}.

Inductive PinResponse : Type :=
| PinOk (pinned : list PinnedMessage) (message : string)
| PinError (status : Z) (error : string).

(** [pinnedMessages.get(chatId) || []] *)
Definition pinned_of (chatId : string)
    (pinnedMessages : gmap string (list PinnedMessage)) : list PinnedMessage :=
  default [] (pinnedMessages !! chatId).

Definition is_pinned (messageId : string) (l : list PinnedMessage) : bool :=
  existsb (fun p => String.eqb (pin_id p) messageId) l.

Definition to_pinned (message : Message) : PinnedMessage :=
  {| pin_id := msg_id message;
     pin_text := msg_body message;
     pin_timestamp := msg_timestamp message;
     pin_sender := if msg_fromMe message then "me" else msg_from message;
     pin_fromMe := msg_fromMe message |}.

Definition pin_ok (chatId action : string)
    (pm : gmap string (list PinnedMessage))
  : PinResponse * gmap string (list PinnedMessage) :=
  (PinOk (pinned_of chatId pm) ("Message " +:+ action +:+ "ed successfully"),
   pm).

Definition pin_failed (pm : gmap string (list PinnedMessage))
  : PinResponse * gmap string (list PinnedMessage) :=
  (PinError 500 "Failed to pin/unpin message", pm).

(** The handler on a run in which no other handler comes between its first
    line and its answer; [pin_message_begin] and [pin_message_resume] below
    are its parts before and after the awaits. *)
Definition pin_message (s : Session) (client : Client) (req : PinRequest)
    (pinnedMessages : gmap string (list PinnedMessage))
  : PinResponse * gmap string (list PinnedMessage) :=
  if negb (isReady s) || negb (isAuthenticated s) then
    (PinError 400
       "WhatsApp client is not ready. Please wait for authentication.",
     pinnedMessages)
  else
    match pin_chatId req, pin_messageId req, pin_action req with
    | Some chatId, Some messageId, Some action =>
        if String.eqb chatId "" || String.eqb messageId ""
           || String.eqb action ""
        then (PinError 400 "Chat ID, message ID, and action are required",
              pinnedMessages)
        else
          let pm :=
            match pinnedMessages !! chatId with
            | Some _ => pinnedMessages
            | None => <[chatId := []]> pinnedMessages
            end in
          let chatPinnedMessages := pinned_of chatId pm in
          if String.eqb action "pin" then
            if is_pinned messageId chatPinnedMessages then
              pin_ok chatId action pm
            else
              match client chatId with
              | Returns (Some chat) =>
                  match chat (JS.Num 100) with
                  | Returns messages =>
                      match List.find (has_id messageId) messages with
                      | Some message =>
                          pin_ok chatId action
                            (<[chatId :=
                                 chatPinnedMessages ++ [to_pinned message]]>
                               pm)
                      | None => pin_ok chatId action pm
                      end
                  | Throws _ => pin_failed pm
                  end
              | _ => pin_failed pm
              end
          else if String.eqb action "unpin" then
            pin_ok chatId action
              (<[chatId :=
                   List.filter
                     (fun p => negb (String.eqb (pin_id p) messageId))
                     chatPinnedMessages]> pm)
          else pin_ok chatId action pm
    | _, _, _ =>
        (PinError 400 "Chat ID, message ID, and action are required",
         pinnedMessages)
    end.

Definition get_pinned_messages (chatId : string)
    (pinnedMessages : gmap string (list PinnedMessage)) : list PinnedMessage :=
  pinned_of chatId pinnedMessages.

(** Pin requests handled in turn: each one is answered before the next
    arrives, so that every handler runs from its first line to its answer
    with no other handler in between.  [pin_message] is the handler on such a
    run; requests that overlap are the subject of the next part, where
    [in_turn] gives these runs as schedules. *)
Record PinStep : Type := mkPinStep {
  step_session : Session;
  step_client : Client;
  step_request : PinRequest
}.

Definition run_pins (steps : list PinStep)
    (pm : gmap string (list PinnedMessage))
  : gmap string (list PinnedMessage) :=
  foldl (fun acc st =>
           snd (pin_message (step_session st) (step_client st)
                  (step_request st) acc))
        pm steps.

(** ** Pin requests that overlap *)

(** The handler is an async function.  It runs without a pause up to its
    first [await] (line 1543); it goes on after the second (line 1544), once
    the client has answered, and any other handler may have run in between.
    Across the awaits it holds [chatPinnedMessages], the array it read from
    the map at line 1537: an object, shared with every handler that read the
    same entry.  The store keeps the arrays apart from the map, whose entries
    name them: [push] changes an array in place, [filter] makes a new one,
    [pinnedMessages.set] changes what an entry names. *)
Record PinStore : Type := mkPinStore {
  arrays : list (list PinnedMessage);
  entries : gmap string nat
}.

Definition read_array (st : PinStore) (a : nat) : list PinnedMessage :=
  default [] (arrays st !! a).

(** [pinnedMessages.get(chatId) || []] *)
Definition stored (chatId : string) (st : PinStore) : list PinnedMessage :=
  match entries st !! chatId with
  | Some a => read_array st a
  | None => []
  end.

Definition new_array (l : list PinnedMessage) (st : PinStore)
  : nat * PinStore :=
  (length (arrays st), mkPinStore (arrays st ++ [l]) (entries st)).

(** [pinnedMessages.set(chatId, a)] *)
Definition set_entry (chatId : string) (a : nat) (st : PinStore) : PinStore :=
  mkPinStore (arrays st) (<[chatId := a]> (entries st)).

(** [a.push(x)] *)
Definition push_array (a : nat) (x : PinnedMessage) (st : PinStore)
  : PinStore :=
  mkPinStore (<[a := read_array st a ++ [x]]> (arrays st)) (entries st).

(** Lines 1533-1537: the entry is created when missing, then read. *)
Definition ensure_entry (chatId : string) (st : PinStore) : nat * PinStore :=
  match entries st !! chatId with
  | Some a => (a, st)
  | None =>
      let '(a, st') := new_array [] st in (a, set_entry chatId a st')
  end.

Definition stored_ok (chatId action : string) (st : PinStore) : PinResponse :=
  PinOk (stored chatId st) ("Message " +:+ action +:+ "ed successfully").

(** What a pin request holds while it waits for the client. *)
Record PendingPin : Type := mkPendingPin {
  pending_chatId : string;
  pending_messageId : string;
  pending_array : nat
}.

Inductive PinStarted : Type :=
| PinAnswered (response : PinResponse)
| PinSuspended (k : PendingPin).

(** The handler from its first line to its answer or to its first await. *)
Definition pin_message_begin (s : Session) (req : PinRequest) (st : PinStore)
  : PinStarted * PinStore :=
  if negb (isReady s) || negb (isAuthenticated s) then
    (PinAnswered
       (PinError 400
          "WhatsApp client is not ready. Please wait for authentication."),
     st)
  else
    match pin_chatId req, pin_messageId req, pin_action req with
    | Some chatId, Some messageId, Some action =>
        if String.eqb chatId "" || String.eqb messageId ""
           || String.eqb action ""
        then (PinAnswered
                (PinError 400 "Chat ID, message ID, and action are required"),
              st)
        else
          let '(chatPinnedMessages, st1) := ensure_entry chatId st in
          if String.eqb action "pin" then
            if is_pinned messageId (read_array st1 chatPinnedMessages) then
              (PinAnswered (stored_ok chatId action st1), st1)
            else
              (PinSuspended
                 (mkPendingPin chatId messageId chatPinnedMessages),
               st1)
          else if String.eqb action "unpin" then
            let '(updatedPinnedMessages, st2) :=
              new_array
                (List.filter
                   (fun p => negb (String.eqb (pin_id p) messageId))
                   (read_array st1 chatPinnedMessages))
                st1 in
            let st3 := set_entry chatId updatedPinnedMessages st2 in
            (PinAnswered (stored_ok chatId action st3), st3)
          else (PinAnswered (stored_ok chatId action st1), st1)
    | _, _, _ =>
        (PinAnswered
           (PinError 400 "Chat ID, message ID, and action are required"),
         st)
    end.

(** The handler from the client's answers to its own (lines 1545-1576).  A
    call of the client that throws at once is the run in which no other
    handler comes in between. *)
Definition pin_message_resume (client : Client) (k : PendingPin)
    (st : PinStore) : PinResponse * PinStore :=
  let chatId := pending_chatId k in
  match client chatId with
  | Returns (Some chat) =>
      match chat (JS.Num 100) with
      | Returns messages =>
          match List.find (has_id (pending_messageId k)) messages with
          | Some message =>
              let st' :=
                set_entry chatId (pending_array k)
                  (push_array (pending_array k) (to_pinned message) st) in
              (stored_ok chatId "pin" st', st')
          | None => (stored_ok chatId "pin" st, st)
          end
      | Throws _ => (PinError 500 "Failed to pin/unpin message", st)
      end
  | _ => (PinError 500 "Failed to pin/unpin message", st)
  end.

(** The server between two events: the store, the pin requests that wait
    for the client (oldest first), and the answers sent so far. *)
Record PinServer : Type := mkPinServer {
  pin_store : PinStore;
  pin_pending : list PendingPin;
  pin_answers : list PinResponse
}.

(** A request arrives, or the client answers the waiting request at some
    position. *)
Inductive PinEvent : Type :=
| PinArrives (s : Session) (req : PinRequest)
| PinResumes (i : nat) (client : Client).

Definition pin_step (sv : PinServer) (e : PinEvent) : PinServer :=
  match e with
  | PinArrives s req =>
      match pin_message_begin s req (pin_store sv) with
      | (PinAnswered response, st) =>
          mkPinServer st (pin_pending sv) (pin_answers sv ++ [response])
      | (PinSuspended k, st) =>
          mkPinServer st (pin_pending sv ++ [k]) (pin_answers sv)
      end
  | PinResumes i client =>
      match pin_pending sv !! i with
      | Some k =>
          let '(response, st) := pin_message_resume client k (pin_store sv) in
          mkPinServer st (delete i (pin_pending sv))
            (pin_answers sv ++ [response])
      | None => sv
      end
  end.

Definition run_pin_events (events : list PinEvent) (sv : PinServer)
  : PinServer :=
  foldl pin_step sv events.

(** The server at start: [pinnedMessages = new Map()]. *)
Definition no_pins : PinServer := mkPinServer (mkPinStore [] ∅) [] [].

(** A request handled with no other handler in between: it arrives, and
    when it waits for the client it is the next to go on. *)
Definition handle_uninterrupted (s : Session) (client : Client)
    (req : PinRequest) (sv : PinServer) : PinServer :=
  run_pin_events
    [PinArrives s req; PinResumes (length (pin_pending sv)) client] sv.

(** Requests handled in turn, as a schedule. *)
Definition in_turn (steps : list PinStep) (sv : PinServer) : PinServer :=
  foldl (fun acc st =>
           handle_uninterrupted (step_session st) (step_client st)
             (step_request st) acc)
        sv steps.

(** The map a handler sees in a store. *)
Definition pin_view (st : PinStore) : gmap string (list PinnedMessage) :=
  read_array st <$> entries st.

(** Every array named by the map or held by a waiting request exists and
    was made for one chat, its owner. *)
Definition owned (owner : nat -> string) (st : PinStore) : Prop :=
  forall c a, entries st !! c = Some a ->
    (a < length (arrays st))%nat /\ owner a = c.

Definition held (owner : nat -> string) (st : PinStore) (k : PendingPin)
  : Prop :=
  (pending_array k < length (arrays st))%nat
  /\ owner (pending_array k) = pending_chatId k.

Definition server_wf (sv : PinServer) : Prop :=
  exists owner : nat -> string,
    owned owner (pin_store sv)
    /\ forall k, k ∈ pin_pending sv -> held owner (pin_store sv) k.

(** ** Outbound send pipeline: POST /api/send-message *)

(** The library's [MessageMedia] object: its constructor stores its
    arguments. *)
Record MessageMedia : Type := mkMessageMedia {
  mm_mimetype : string;
  mm_data : string;
  mm_filename : string
}.

Inductive SendOptions : Type :=
| NoOptions
| VoiceOptions (mimetype filename : string)
| CaptionOption (caption : string).

Inductive Content : Type :=
| MediaContent (media : MessageMedia)
| TextContent (text : option string).

(** One call of [client.sendMessage(to, content, options)]. *)
Record SendCall : Type := mkSendCall {
  call_to : string;
  call_content : Content;
  call_options : SendOptions
}.

(** What awaiting a send (raced against the shared timeout, in the voice
    path) gives: it resolves, or it rejects with an error message. *)
Inductive Outcome : Type :=
| Delivered
| Rejected (message : string).

Record SendRequest : Type := mkSendRequest {
  req_number : option string;
  req_message : option string;
  req_audioData : option string;
  req_isVoiceMessage : bool;
  req_mimeType : option string;
  req_attachmentData : option string;
  req_attachmentType : option string;
  req_attachmentName : option string;
  req_caption : option string
}.

(** The fields of the JSON response that the claims speak of, with the
    HTTP status. *)
Record SendResponse : Type := mkSendResponse {
  res_status : Z;
  res_success : option bool;
  res_message : option string;
  res_method : option string;
  res_error : option string
}.

Definition error_response (status : Z) (error : string) : SendResponse :=
  mkSendResponse status None None None (Some error).

(** MIME normalisation and the file extension of a voice note. *)
Definition cleanMimeType (mimeType : option string) : string :=
  let m := JS.or_else mimeType "audio/webm" in
  if JS.includes m "webm" then "audio/webm"
  else if JS.includes m "mp4" || JS.includes m "m4a" then "audio/mp4"
  else if JS.includes m "wav" then "audio/wav"
  else if JS.includes m "ogg" then "audio/ogg"
  else if JS.includes m "mp3" then "audio/mpeg"
  else "audio/webm".

Definition fileExtension (cleanMime : string) : string :=
  if String.eqb cleanMime "audio/webm" then "webm"
  else if String.eqb cleanMime "audio/mp4" then "m4a"
  else if String.eqb cleanMime "audio/wav" then "wav"
  else if String.eqb cleanMime "audio/ogg" then "ogg"
  else if String.eqb cleanMime "audio/mpeg" then "mp3"
  else "mp3".

(** The payload without its data-URL prefix; [None] is [undefined]. *)
Definition cleanAudioData (audioData : string) : option string :=
  if JS.startsWith audioData "data:" then JS.split_comma_1 audioData
  else Some audioData.

Definition cleanAttachmentData (attachmentData : string) : option string :=
  if JS.startsWith attachmentData "data:"
  then JS.split_comma_1 attachmentData
  else Some attachmentData.

(** The test [/^[A-Za-z0-9+/]*={0,2}$/]. *)
Definition isBase64Char (c : ascii) : bool :=
  let n := Z.of_nat (nat_of_ascii c) in
  ((65 <=? n) && (n <=? 90)) || ((97 <=? n) && (n <=? 122))
  || ((48 <=? n) && (n <=? 57)) || (n =? 43) || (n =? 47).

Fixpoint skip_base64 (s : string) : string :=
  match s with
  | EmptyString => EmptyString
  | String c rest => if isBase64Char c then skip_base64 rest else s
  end.

Definition looks_base64 (s : string) : bool :=
  let r := skip_base64 s in
  String.eqb r "" || String.eqb r "=" || String.eqb r "==".

(** The length of [Buffer.from(s, "base64")] for a string that passed
    [looks_base64]: three bytes for every four alphabet characters. *)
Definition decoded_length (s : string) : Z :=
  3 * (JS.len s - JS.len (skip_base64 s)) / 4.

(** The validation that throws; what is thrown reaches the handler's
    outer [catch]. *)
Definition validate_audio (clean : option string) : ext string :=
  match clean with
  | None => Throws "Cannot read properties of undefined (reading 'length')"
  | Some c =>
      if JS.len c =? 0 then Throws "Invalid audio data: empty or null"
      else if negb (looks_base64 c) then
        Throws "Invalid audio data: not valid base64"
      else if JS.len c <? 100 then
        Throws "Invalid audio data: too short, likely corrupted"
      else if 50 * 1024 * 1024 <? JS.len c then
        Throws "Invalid audio data: too long, likely corrupted"
      else if decoded_length c =? 0 then
        Throws ("Invalid audio data: base64 decoding failed - "
                +:+ "Invalid audio data: base64 decoding results in empty buffer")
      else Returns c
  end.

Definition optimizedMimeType (cleanMime data : string) : string :=
  if (5 * 1024 * 1024 <? JS.len data) && String.eqb cleanMime "audio/webm"
  then "audio/mp4" else cleanMime.

Definition voice_media (mime data extension : string) : MessageMedia :=
  let media := mkMessageMedia mime data ("voice-message." +:+ extension) in
  if String.eqb (mm_data media) "" || String.eqb (mm_mimetype media) ""
  then mkMessageMedia "audio/mpeg" data "voice-message.mp3"
  else media.

Section SendPipeline.

(** The messaging client: the outcome of the [n]-th send of a request
    (counting from 0), and the re-encoding
    [Buffer.from(data, "base64").toString("base64")]. *)
Variable sendMessage : nat -> SendCall -> Outcome.
Variable reencode_base64 : string -> string.

(** A handler threads the list of sends it has made so far. *)
Definition Sending (A : Type) : Type := list SendCall -> A * list SendCall.

Definition ret {A} (a : A) : Sending A := fun calls => (a, calls).

Definition bind {A B} (m : Sending A) (k : A -> Sending B) : Sending B :=
  fun calls => let '(a, calls') := m calls in k a calls'.

Definition send (c : SendCall) : Sending Outcome :=
  fun calls => (sendMessage (length calls) c, calls ++ [c]).

(** [or_fallback c sent next]: make the send [c] and answer [sent] when it
    is delivered; on rejection run the fallback [next] with the error. *)
Definition or_fallback (c : SendCall) (sent : SendResponse)
    (next : string -> Sending SendResponse) : Sending SendResponse :=
  bind (send c) (fun o =>
    match o with
    | Delivered => ret sent
    | Rejected e => next e
    end).

Definition sent_response : SendResponse :=
  mkSendResponse 200 (Some true) (Some "Voice message sent successfully")
    (Some "voice message") None.

Definition notification_response : SendResponse :=
  mkSendResponse 200 (Some true)
    (Some ("Voice message could not be sent as audio, "
           +:+ "but failure notification was delivered"))
    (Some "fallback notification") None.

Definition exhausted_response (lastError : string) : SendResponse :=
  mkSendResponse 500 (Some false) None None
    (Some ("Failed to send voice message: " +:+ lastError)).

(** The notice of the last attempt (its leading emoji, which lies outside
    the 8-bit code units, is left out). *)
Definition failureMessage : string :=
  "Voice message could not be sent. Please try recording a shorter message or check your connection.".

(** The six nested attempts of the voice path. *)
Definition deliver_voice (formattedNumber : string) (media : MessageMedia)
    (mime extension data : string) : Sending SendResponse :=
  let filename := "voice-message." +:+ extension in
  or_fallback
    (mkSendCall formattedNumber (MediaContent media)
       (VoiceOptions mime filename))
    sent_response (fun _ =>
  or_fallback
    (mkSendCall formattedNumber (MediaContent media) NoOptions)
    sent_response (fun _ =>
  or_fallback
    (mkSendCall formattedNumber
       (MediaContent (mkMessageMedia "application/octet-stream" data filename))
       NoOptions)
    sent_response (fun _ =>
  or_fallback
    (mkSendCall formattedNumber
       (MediaContent (mkMessageMedia "audio/mpeg" data "voice-message.mp3"))
       NoOptions)
    sent_response (fun _ =>
  or_fallback
    (mkSendCall formattedNumber
       (MediaContent
          (mkMessageMedia "text/plain" (reencode_base64 data)
             "voice-message.txt"))
       NoOptions)
    sent_response (fun _ =>
  or_fallback
    (mkSendCall formattedNumber (TextContent (Some failureMessage)) NoOptions)
    notification_response (fun finalError =>
  ret (exhausted_response finalError))))))).

Definition voice_path (s : Session) (formattedNumber audioData : string)
    (mimeType : option string) : Sending (SendResponse * Session) :=
  if negb (clientExists s) || negb (isReady s) || negb (isAuthenticated s)
  then
    ret (error_response 400
           "WhatsApp client is not ready. Please wait for authentication.", s)
  else if negb (String.eqb (clientState s) "")
          && negb (String.eqb (clientState s) "READY")
  then
    ret (error_response 400
           ("WhatsApp client not in ready state. Current state: "
            +:+ clientState s), s)
  else
    let s' :=
      if String.eqb (clientState s) "" && isReady s && isAuthenticated s
      then {| clientExists := clientExists s;
              qrCodeData := qrCodeData s;
              isAuthenticated := isAuthenticated s;
              isReady := isReady s;
              clientState := "READY" |}
      else s in
    if 10 * 1024 * 1024 <? JS.len audioData then
      ret (error_response 413
             "Audio file too large. Please record a shorter message.", s')
    else
      let cleanMime := cleanMimeType mimeType in
      let extension := fileExtension cleanMime in
      match validate_audio (cleanAudioData audioData) with
      | Throws _ => ret (error_response 500 "Failed to send message", s')
      | Returns data =>
          let mime := optimizedMimeType cleanMime data in
          let media := voice_media mime data extension in
          bind (deliver_voice formattedNumber media mime extension data)
               (fun r => ret (r, s'))
      end.

Definition attachment_path (formattedNumber attachmentData
    attachmentType : string) (attachmentName caption : option string)
  : Sending SendResponse :=
  let failed := error_response 500 "Failed to send attachment" in
  match cleanAttachmentData attachmentData with
  | None => ret failed
  | Some data =>
      if (JS.len data =? 0) || negb (looks_base64 data) then ret failed
      else
        let media :=
          mkMessageMedia attachmentType data
            (JS.or_else attachmentName "attachment") in
        let options :=
          match caption with
          | Some c => if String.eqb c "" then NoOptions else CaptionOption c
          | None => NoOptions
          end in
        bind (send (mkSendCall formattedNumber (MediaContent media) options))
             (fun o =>
                match o with
                | Delivered =>
                    ret (mkSendResponse 200 (Some true)
                           (Some "File attachment sent successfully")
                           None None)
                | Rejected _ => ret failed
                end)
  end.

Definition text_path (formattedNumber : string) (message : option string)
  : Sending SendResponse :=
  bind (send (mkSendCall formattedNumber (TextContent message) NoOptions))
       (fun o =>
          match o with
          | Delivered =>
              ret (mkSendResponse 200 (Some true)
                     (Some "Message sent successfully") None None)
          | Rejected _ => ret (error_response 500 "Failed to send message")
          end).

Definition send_message (s : Session) (req : SendRequest)
  : Sending (SendResponse * Session) :=
  if negb (clientExists s) then
    ret (error_response 400
           ("WhatsApp client is not initialized. "
            +:+ "Please wait for the service to start."), s)
  else if negb (isReady s) || negb (isAuthenticated s) then
    ret (error_response 400
           "WhatsApp client is not ready. Please wait for authentication.", s)
  else if negb (JS.truthy (req_number req))
          || (negb (JS.truthy (req_message req))
              && negb (JS.truthy (req_audioData req))
              && negb (JS.truthy (req_attachmentData req)))
  then ret (error_response 400 "Number and message content are required", s)
  else
    let number := JS.or_else (req_number req) "" in
    let formattedNumber :=
      if JS.includes number "@c.us" then number else number +:+ "@c.us" in
    if req_isVoiceMessage req && JS.truthy (req_audioData req) then
      voice_path s formattedNumber (JS.or_else (req_audioData req) "")
        (req_mimeType req)
    else if JS.truthy (req_attachmentData req)
            && JS.truthy (req_attachmentType req)
    then
      bind (attachment_path formattedNumber
              (JS.or_else (req_attachmentData req) "")
              (JS.or_else (req_attachmentType req) "")
              (req_attachmentName req) (req_caption req))
           (fun r => ret (r, s))
    else
      bind (text_path formattedNumber (req_message req))
           (fun r => ret (r, s)).

End SendPipeline.

(** ** Specification-side definitions *)

(** The normalisation table: the tokens looked for in the MIME string, in
    the order they are tried, with the type each selects. *)
Definition mime_table : list (list string * string) :=
  [ (["webm"], "audio/webm");
    (["mp4"; "m4a"], "audio/mp4");
    (["wav"], "audio/wav");
    (["ogg"], "audio/ogg");
    (["mp3"], "audio/mpeg") ].

Definition mime_whitelist : list string :=
  ["audio/webm"; "audio/mp4"; "audio/wav"; "audio/ogg"; "audio/mpeg"].

Definition normalize_by_table (m : string) : string :=
  match List.find (fun row => existsb (JS.includes m) (fst row)) mime_table with
  | Some row => snd row
  | None => "audio/webm"
  end.

Definition extension_table : list (string * string) :=
  [ ("audio/webm", "webm"); ("audio/mp4", "m4a"); ("audio/wav", "wav");
    ("audio/ogg", "ogg"); ("audio/mpeg", "mp3") ].

(** Timestamps in ascending order (oldest first). *)
Fixpoint ascending (ts : list Z) : bool :=
  match ts with
  | a :: (b :: _) as rest => (a <=? b) && ascending rest
  | _ => true
  end.

(** Modelled from the spec: the direction of a batch of the messaging
    library's [fetchMessages], which has "no documented order guarantee". *)
Inductive BatchOrder : Type :=
| NewestFirst
| OldestFirst.

(** Modelled from the spec: the [k] most recent messages of a chat, whose
    history is kept oldest to newest (the library "only exposes fetch the
    most recent N messages semantics"). *)
Definition most_recent (k : Z) (history : list Message) : list Message :=
  drop (length history - Z.to_nat k) history.

(** Modelled from the spec: the batch that the library's [fetchMessages]
    returns for the limit [k], in one of the two directions. *)
Definition batch (order : BatchOrder) (k : Z) (history : list Message)
  : list Message :=
  match order with
  | OldestFirst => most_recent k history
  | NewestFirst => reverse (most_recent k history)
  end.

(** Modelled from the spec: a chat whose [fetchMessages], for every
    positive limit, returns the most recent messages of [history]. *)
Definition fetches_recent (chat : Chat) (history : list Message)
    (order : BatchOrder) : Prop :=
  forall k, 0 < k -> chat (JS.Num k) = Returns (batch order k history).

(** Modelled from the spec: the library's [fetchMessages] over a given
    history (a limit that is no positive number fetches nothing). *)
Definition recent_chat (history : list Message) (order : BatchOrder) : Chat :=
  fun limit =>
    match limit with
    | JS.Num k => Returns (batch order k history)
    | JS.NaN => Returns []
    end.

(** A history in chronological order. *)
Definition chronological (history : list Message) : Prop :=
  StronglySorted (fun a b => msg_timestamp a <= msg_timestamp b) history.

(** A history whose timestamps strictly grow, and a batch whose timestamps
    strictly fall (newest first). *)
Definition strictly_chronological (history : list Message) : Prop :=
  StronglySorted (fun a b => msg_timestamp a < msg_timestamp b) history.

Definition strictly_newest_first (batch : list Message) : Prop :=
  StronglySorted (fun a b => msg_timestamp b < msg_timestamp a) batch.

(** A page size as the spec wants it: a number between 1 and 100. *)
Definition in_page_range (x : JS.jsnum) : Prop :=
  exists k, x = JS.Num k /\ 1 <= k <= 100.

(** What one request does to the pinned list of a chat [c]: nothing, or it
    appends a message of the requested id that was not pinned, or it removes
    the entries of the requested id. *)
Inductive pin_effect (req : PinRequest) (before after : list PinnedMessage)
  : Prop :=
| pin_unchanged : after = before -> pin_effect req before after
| pin_pushed (messageId : string) (x : PinnedMessage) :
    pin_messageId req = Some messageId ->
    pin_action req = Some "pin" ->
    is_pinned messageId before = false ->
    pin_id x = messageId ->
    after = before ++ [x] ->
    pin_effect req before after
| pin_removed (messageId : string) :
    pin_messageId req = Some messageId ->
    pin_action req = Some "unpin" ->
    after =
      List.filter (fun p => negb (String.eqb (pin_id p) messageId)) before ->
    pin_effect req before after.

(** The response and the sends of a run of the send handler. *)
Definition response_of (result : SendResponse * Session * list SendCall)
  : SendResponse := fst (fst result).

Definition calls_of (result : SendResponse * Session * list SendCall)
  : list SendCall := snd result.

(** Fixtures of the examples. *)
Definition ready_session : Session :=
  mkSession true None true true "READY".

Definition text_msg (id : string) (t : Z) : Message :=
  mkMessage id "hello" t false "15551234567@c.us" "me@c.us" false "chat"
    (Returns None).

Definition only_chat (chatId : string) (chat : Chat) : Client :=
  fun c => if String.eqb c chatId then Returns (Some chat) else Returns None.

(** A base64 payload of 100 characters, and a voice-note request with it. *)
Definition payload100 : string :=
  "AAAAAAAAAAAAAAAAAAAAAAAAAAAAAAAAAAAAAAAAAAAAAAAAAA"
  +:+ "AAAAAAAAAAAAAAAAAAAAAAAAAAAAAAAAAAAAAAAAAAAAAAAAAA".

Definition voice_request (audioData : string) : SendRequest :=
  mkSendRequest (Some "15551234567") None (Some audioData) true
    (Some "audio/webm;codecs=opus") None None None None.

(** A client whose first [n] sends are rejected and whose later sends are
    delivered. *)
Definition delivers_from (n : nat) : nat -> SendCall -> Outcome :=
  fun i _ => if (i <? n)%nat then Rejected "rejected" else Delivered.

(** ** Further handlers of the server *)

(** [io.on("connection")]: what a newly connected socket is sent. *)
Definition on_connection (s : Session) : list Emit :=
  status_of s
  :: (if JS.truthy (qrCodeData s) then [EmitQr (qrCodeData s)] else []).

(** A run of lifecycle events, with everything pushed to the sockets. *)
Fixpoint run_events (events : list ClientEvent) (s : Session)
  : Session * list Emit :=
  match events with
  | [] => (s, [])
  | e :: rest =>
      let '(s1, emitted1) := handle_event e s in
      let '(s2, emitted2) := run_events rest s1 in
      (s2, emitted1 ++ emitted2)
  end.

Definition is_status (e : Emit) : bool :=
  match e with
  | EmitStatus _ _ _ => true
  | _ => false
  end.

Definition is_qr (e : Emit) : bool :=
  match e with
  | EmitQr _ => true
  | _ => false
  end.

(** The last status, and the last QR payload, among the pushed events. *)
Definition last_status (emitted : list Emit) : option Emit :=
  last (List.filter is_status emitted).

Definition last_qr (emitted : list Emit) : option Emit :=
  last (List.filter is_qr emitted).

(** GET /api/contacts *)
Record Contact : Type := mkContact {
  contact_id : string;
  contact_name : option string;
  contact_pushname : option string;
  contact_number : string;
  contact_isGroup : bool;
  contact_isBusiness : bool
}.

Record FormattedContact : Type := mkFormattedContact {
  fc_id : string;
  fc_name : string;
  fc_number : string;
  fc_isGroup : bool;
  fc_isBusiness : bool
}.

Definition format_contact (contact : Contact) : FormattedContact :=
  {| fc_id := contact_id contact;
     fc_name :=
       JS.or_else (contact_name contact)
         (JS.or_else (contact_pushname contact) "Unknown");
     fc_number := contact_number contact;
     fc_isGroup := contact_isGroup contact || false;
     fc_isBusiness := contact_isBusiness contact || false |}.

Inductive ContactsResponse : Type :=
| ContactsOk (contacts : list FormattedContact)
| ContactsError (status : Z) (error : string).

Definition get_contacts (s : Session) (getContacts : ext (list Contact))
  : ContactsResponse :=
  if negb (isReady s) || negb (isAuthenticated s) then
    ContactsError 400
      "WhatsApp client is not ready. Please wait for authentication."
  else
    match getContacts with
    | Returns contacts => ContactsOk (format_contact <$> contacts)
    | Throws _ => ContactsError 500 "Failed to get contacts"
    end.

(** GET /api/chats *)
Record ChatInfo : Type := mkChatInfo {
  chat_id : string;
  chat_name : option string;
  chat_isGroup : bool;
  chat_unreadCount : Z;
  chat_fetchMessages : Chat
}.

Record FormattedChat : Type := mkFormattedChat {
  fchat_id : string;
  fchat_name : string;
  fchat_isGroup : bool;
  fchat_unreadCount : Z;
  fchat_lastMessage : string;
  fchat_timestamp : string;
  fchat_hasProfilePic : bool
}.

Inductive ChatsResponse : Type :=
| ChatsOk (chats : list FormattedChat)
| ChatsError (status : Z) (error : string).

(** GET /api/chat-media/:chatId *)
Record GalleryItem : Type := mkGalleryItem {
  gi_id : string;
  gi_type : string;
  gi_timestamp : Z;
  gi_sender : string;
  gi_fromMe : bool;
  gi_caption : string;
  gi_hasMedia : bool;
  gi_mediaUrl : option string
}.

Inductive MediaResponse : Type :=
| MediaOk (mediaGallery : list GalleryItem)
| MediaError (status : Z) (error : string).

Definition is_gallery_media (msg : Message) : bool :=
  msg_hasMedia msg
  && (String.eqb (msg_type msg) "image"
      || String.eqb (msg_type msg) "video"
      || String.eqb (msg_type msg) "document").

Definition gallery_base (msg : Message) (mediaUrl : option string)
  : GalleryItem :=
  {| gi_id := msg_id msg;
     gi_type := msg_type msg;
     gi_timestamp := msg_timestamp msg;
     gi_sender := if msg_fromMe msg then "me" else msg_from msg;
     gi_fromMe := msg_fromMe msg;
     gi_caption := JS.or_else (Some (msg_body msg)) "";
     gi_hasMedia := true;
     gi_mediaUrl := mediaUrl |}.

(** The data URL of a downloaded image, when the download gave one. *)
Definition image_url (msg : Message) : option string :=
  if String.eqb (msg_type msg) "image" then
    match msg_download msg with
    | Returns (Some media) =>
        if negb (String.eqb (media_data media) "")
           && negb (String.eqb (media_mimetype media) "")
        then Some ("data:" +:+ media_mimetype media +:+ ";base64,"
                   +:+ media_data media)
        else None
    | _ => None
    end
  else None.

(** The gallery loop: an image with its data is pushed and the loop goes
    on; anything else is pushed as metadata, and the loop stops once the
    gallery holds 24 items. *)
Fixpoint build_gallery (mediaMessages : list Message)
    (mediaGallery : list GalleryItem) : list GalleryItem :=
  match mediaMessages with
  | [] => mediaGallery
  | msg :: rest =>
      match image_url msg with
      | Some url =>
          build_gallery rest (mediaGallery ++ [gallery_base msg (Some url)])
      | None =>
          let pushed := mediaGallery ++ [gallery_base msg None] in
          if 24 <=? Z.of_nat (length pushed) then pushed
          else build_gallery rest pushed
      end
  end.

Definition chat_media (s : Session) (client : Client) (chatId : string)
  : MediaResponse :=
  if negb (isReady s) || negb (isAuthenticated s) then
    MediaError 400
      "WhatsApp client is not ready. Please wait for authentication."
  else
    match client chatId with
    | Throws _ => MediaError 500 "Failed to get chat media"
    | Returns None => MediaError 404 "Chat not found"
    | Returns (Some chat) =>
        match chat (JS.Num 50) with
        | Throws _ => MediaError 500 "Failed to get chat media"
        | Returns messages =>
            MediaOk (build_gallery (List.filter is_gallery_media messages) [])
        end
    end.

(** POST /api/mark-chat-seen/:chatId; [sendSeen] is what awaiting
    [client.sendSeen(chatId)] gives.  The [catch] block of the handler
    reads [chatId], which is declared inside the [try] block and is not in
    scope there: when [sendSeen] throws, the handler throws in turn before
    it writes a response. *)
Inductive SeenResponse : Type :=
| SeenOk (message : string)
| SeenError (status : Z) (error : string)
| SeenUnanswered.

Definition mark_chat_seen (s : Session) (sendSeen : string -> ext bool)
    (chatId : string) : SeenResponse :=
  if negb (isReady s) || negb (isAuthenticated s) then
    SeenError 503
      "WhatsApp client is not ready. Please wait for authentication."
  else
    match sendSeen chatId with
    | Returns true => SeenOk "Chat marked as seen"
    | Returns false => SeenError 500 "Failed to mark chat as seen"
    | Throws _ => SeenUnanswered
    end.

(** The lifecycle events that leave the session without one of its two
    flags. *)
Definition closes_session (e : ClientEvent) : bool :=
  match e with
  | OnQr _ | OnAuthFailure _ | OnDisconnected _ => true
  | OnChangeState state =>
      String.eqb state "CONFLICT" || String.eqb state "UNLAUNCHED"
  | _ => false
  end.

(** The [message] event of the client: the record pushed to the sockets. *)
Record IncomingMessage : Type := mkIncoming {
  in_msg : Message;
  in_groupChatId : option string
}.

Record MessageData : Type := mkMessageData {
  md_id : string;
  md_text : string;
  md_timestamp : string;
  md_timestampSec : Z;
  md_sender : string;
  md_status : string;
  md_fromMe : bool;
  md_chatId : string;
  md_hasMedia : bool;
  md_mediaType : string;
  md_mediaUrl : option string;
  md_mediaMimeType : option string
}.

Section Locale.

(** [new Date(t * 1000).toLocaleString()], which depends on the host. *)
Variable toLocaleString : Z -> string.

Definition format_chat (chat : ChatInfo) : FormattedChat :=
  let latestMessage :=
    match chat_fetchMessages chat (JS.Num 1) with
    | Returns (m :: _) => Some m
    | Returns [] => None
    | Throws _ => None
    end in
  {| fchat_id := chat_id chat;
     fchat_name := JS.or_else (chat_name chat) "Unknown";
     fchat_isGroup := chat_isGroup chat;
     fchat_unreadCount := chat_unreadCount chat;
     fchat_lastMessage := from_option msg_body "" latestMessage;
     fchat_timestamp :=
       from_option (fun m => toLocaleString (msg_timestamp m)) ""
         latestMessage;
     fchat_hasProfilePic := false |}.

Definition get_chats (s : Session) (getChats : ext (list ChatInfo))
  : ChatsResponse :=
  if negb (isReady s) || negb (isAuthenticated s) then
    ChatsError 400
      "WhatsApp client is not ready. Please wait for authentication."
  else
    match getChats with
    | Returns chats => ChatsOk (format_chat <$> chats)
    | Throws _ => ChatsError 500 "Failed to get chats"
    end.

(** [in_groupChatId] is [msg._data.chat.id._serialized] when
    [msg._data.isGroupMsg] holds. *)
Definition on_message (incoming : IncomingMessage) : MessageData :=
  let msg := in_msg incoming in
  let downloaded :=
    if msg_hasMedia msg
       && (String.eqb (msg_type msg) "ptt"
           || String.eqb (msg_type msg) "audio")
    then
      match msg_download msg with
      | Returns (Some media) =>
          if negb (String.eqb (media_data media) "") then Some media
          else None
      | _ => None
      end
    else None in
  {| md_id := msg_id msg;
     md_text := msg_body msg;
     md_timestamp := toLocaleString (msg_timestamp msg);
     md_timestampSec := msg_timestamp msg;
     md_sender := msg_from msg;
     md_status := "delivered";
     md_fromMe := msg_fromMe msg;
     md_chatId := from_option id (msg_from msg) (in_groupChatId incoming);
     md_hasMedia := msg_hasMedia msg;
     md_mediaType := msg_type msg;
     md_mediaUrl :=
       (fun media => "data:" +:+ media_mimetype media +:+ ";base64,"
                     +:+ media_data media) <$> downloaded;
     md_mediaMimeType := media_mimetype <$> downloaded |}.

End Locale.

(** * Properties *)

(** Settle an integer test of the goal by linear arithmetic. *)
Ltac test_true t :=
  replace t with true
    by (symmetry;
        first [apply Z.ltb_lt | apply Z.leb_le | apply Z.eqb_eq]; lia).

Ltac test_false t :=
  replace t with false
    by (symmetry;
        first [apply Z.ltb_ge | apply Z.leb_gt | apply Z.eqb_neq]; lia).

(** C8: whatever the session was, a [change_state] signal equal to
    [CONFLICT] or [UNLAUNCHED] leaves both [isAuthenticated] and [isReady]
    false (and the status pushed to the sockets says so). *)
Theorem change_state_conflict_clears_flags (s : Session) (state : string) :
  state = "CONFLICT" \/ state = "UNLAUNCHED" ->
  let '(s', emitted) := handle_event (OnChangeState state) s in
  isAuthenticated s' = false /\ isReady s' = false
  /\ clientState s' = state
  /\ emitted = [EmitStatus false false state].
Proof.
  intros [-> | ->]; cbn; auto.
Qed.

Lemma change_state_conflict_clears_flags_witness :
  let s := mkSession true None true true "READY" in
  let '(s', emitted) := handle_event (OnChangeState "CONFLICT") s in
  isAuthenticated s' = false /\ isReady s' = false
  /\ clientState s' = "CONFLICT"
  /\ emitted = [EmitStatus false false "CONFLICT"].
Proof.
  exact (change_state_conflict_clears_flags
           (mkSession true None true true "READY") "CONFLICT"
           (or_introl eq_refl)).
Defined.

(** ** MIME normalisation *)

(** C9 (as amended): the normalised type is always one of the five
    whitelisted types; it is the type of the first row of [mime_table]
    (tokens webm, mp4 or m4a, wav, ogg, mp3, in that order) one of whose
    tokens occurs in the provided string, and audio/webm when no token
    occurs or no string is provided; the file extension is the one that
    [extension_table] pairs with the normalised type. *)
Theorem cleanMimeType_first_table_match (mimeType : option string) :
  let clean := cleanMimeType mimeType in
  clean = normalize_by_table (JS.or_else mimeType "audio/webm")
  /\ In clean mime_whitelist
  /\ In (clean, fileExtension clean) extension_table.
Proof.
  unfold cleanMimeType, normalize_by_table, mime_table.
  set (m := JS.or_else mimeType "audio/webm").
  cbn [List.find existsb fst snd].
  destruct (JS.includes m "webm"); cbn; [tauto |].
  destruct (JS.includes m "mp4"); cbn; [tauto |].
  destruct (JS.includes m "m4a"); cbn; [tauto |].
  destruct (JS.includes m "wav"); cbn; [tauto |].
  destruct (JS.includes m "ogg"); cbn; [tauto |].
  destruct (JS.includes m "mp3"); cbn; tauto.
Qed.

(** C9 (as stated) fails: the string audio/mpeg contains the format name
    mpeg, yet it is normalised to audio/webm. *)
Lemma cleanMimeType_mpeg_not_recognised :
  JS.includes "audio/mpeg" "mpeg" = true
  /\ cleanMimeType (Some "audio/mpeg") = "audio/webm"
  /\ cleanMimeType (Some "audio/mpeg") <> "audio/mpeg".
Proof.
  repeat split; try reflexivity. vm_compute. discriminate.
Qed.

(** ** Page size *)

(** C4 (as amended): an absent or empty limit gives 50; a limit without a
    leading integer gives NaN; a limit whose leading integer is [n] gives
    a page size of at most 100, which is [min n 100], inside [1,100],
    when [n >= 1], and which stays below 1 when [n < 1]. *)
Theorem pageSize_clamped_above_only (limit : option string) :
  pageSize None = JS.Num 50
  /\ pageSize (Some "") = JS.Num 50
  /\ match JS.parseInt10 (JS.or_else limit "50") with
     | JS.NaN => pageSize limit = JS.NaN
     | JS.Num n =>
         exists k, pageSize limit = JS.Num k
                   /\ k <= 100
                   /\ (1 <= n -> k = Z.min n 100
                                 /\ in_page_range (pageSize limit))
                   /\ (n < 1 -> k < 1)
     end.
Proof.
  split; [reflexivity |]. split; [reflexivity |].
  unfold pageSize.
  destruct (JS.parseInt10 (JS.or_else limit "50")) as [| n]; cbn; [reflexivity |].
  exists (Z.min n 100). repeat split; try lia.
  exists (Z.min n 100). split; [reflexivity | lia].
Qed.

Example pageSize_examples :
  pageSize (Some "7") = JS.Num 7
  /\ pageSize (Some "100") = JS.Num 100
  /\ pageSize (Some "250") = JS.Num 100
  /\ pageSize (Some " 12abc") = JS.Num 12.
Proof. repeat split. Qed.

(** C4 (as stated) fails: the limits 0, -5 and abc give the page sizes 0,
    -5 and NaN, none of which lies in [1,100]. *)
Lemma pageSize_not_clamped_below :
  pageSize (Some "0") = JS.Num 0
  /\ pageSize (Some "-5") = JS.Num (-5)
  /\ pageSize (Some "abc") = JS.NaN
  /\ ~ in_page_range (pageSize (Some "0")).
Proof.
  repeat split. intros (k & E & Hk). vm_compute in E. injection E as <-. lia.
Qed.
(** ** History pager *)

Section FindIndex.
Context {A : Type} (p : A -> bool).

Lemma findIndex_from_none (l : list A) (i : Z) :
  Forall (fun x => p x = false) l -> JS.findIndex_from p l i = -1.
Proof.
  intros H. revert i. induction H as [| x l Hx _ IH]; intros i; cbn.
  - reflexivity.
  - rewrite Hx. apply IH.
Qed.

Lemma findIndex_from_first (l1 l2 : list A) (x : A) (i : Z) :
  Forall (fun y => p y = false) l1 -> p x = true ->
  JS.findIndex_from p (l1 ++ x :: l2) i = i + Z.of_nat (length l1).
Proof.
  intros H Hx. revert i. induction H as [| y l Hy _ IH]; intros i; cbn.
  - rewrite Hx. lia.
  - rewrite Hy, IH. lia.
Qed.

End FindIndex.

Lemma has_id_absent (b : string) (l : list Message) :
  b ∉ msg_id <$> l -> Forall (fun m => has_id b m = false) l.
Proof.
  intros H. apply Forall_forall. intros m Hm.
  unfold has_id. apply String.eqb_neq. intros E.
  apply H. rewrite <- E. apply list_elem_of_fmap_2. exact Hm.
Qed.

(** C5: when the cursor id does not occur in the batch fetched for it, the
    pager answers with an empty page and no error, whatever the limit. *)
Theorem cursor_not_found_gives_empty_page (s : Session) (client : Client)
    (chatId : string) (chat : Chat) (beforeId : string)
    (limit : option string) (allMessages : list Message) :
  isReady s = true -> isAuthenticated s = true ->
  client chatId = Returns (Some chat) ->
  beforeId <> "" ->
  chat (JS.Num 500) = Returns allMessages ->
  beforeId ∉ msg_id <$> allMessages ->
  chat_messages s client chatId (Some beforeId) limit = PagerOk [].
Proof.
  intros Hr Ha Hc Hb Hf Hn.
  unfold chat_messages. rewrite Hr, Ha, Hc. cbn.
  apply String.eqb_neq in Hb. rewrite Hb.
  unfold older_messages. rewrite Hf.
  unfold JS.findIndex.
  rewrite findIndex_from_none by (apply has_id_absent; exact Hn).
  reflexivity.
Qed.

Lemma cursor_not_found_gives_empty_page_witness :
  chat_messages ready_session
    (only_chat "c" (recent_chat [text_msg "m1" 1; text_msg "m2" 2] NewestFirst))
    "c" (Some "m9") (Some "20") = PagerOk [].
Proof.
  apply (cursor_not_found_gives_empty_page ready_session _ "c"
           (recent_chat [text_msg "m1" 1; text_msg "m2" 2] NewestFirst)
           "m9" (Some "20") [text_msg "m2" 2; text_msg "m1" 1]);
    try reflexivity.
  - discriminate.
  - cbn. intros H. repeat (apply elem_of_cons in H as [H | H]; [discriminate |]).
    inversion H.
Defined.

(** C1 at a failing input: the batch arrives oldest-first (m1, m2, m3 with
    timestamps 1, 2, 3), the cursor is m3 and the page size 2.  The page
    holds the two older messages, but newest first: timestamps 2, 1. *)
Theorem pager_oldest_first_batch_page_descends :
  let chat := recent_chat [text_msg "m1" 1; text_msg "m2" 2; text_msg "m3" 3]
                OldestFirst in
  exists page,
    chat_messages ready_session (only_chat "c" chat) "c" (Some "m3") (Some "2")
    = PagerOk page
    /\ fm_id <$> page = ["m2"; "m1"]
    /\ fm_timestamp <$> page = [2; 1]
    /\ ascending (fm_timestamp <$> page) = false.
Proof.
  eexists. split; [vm_compute; reflexivity |]. repeat split.
Qed.

(** *** The boundary of a history of exactly one page *)

Lemma pageSize_le_100 (limit : option string) (p : Z) :
  pageSize limit = JS.Num p -> p <= 100.
Proof.
  unfold pageSize.
  destruct (JS.parseInt10 (JS.or_else limit "50")) as [| n]; cbn;
    [discriminate |].
  intros [= <-]. lia.
Qed.

Lemma most_recent_all (k : Z) (history : list Message) :
  Z.of_nat (length history) <= k -> most_recent k history = history.
Proof.
  intros H. unfold most_recent.
  replace (length history - Z.to_nat k)%nat with 0%nat by lia.
  reflexivity.
Qed.

Lemma has_id_self (m : Message) : has_id (msg_id m) m = true.
Proof. unfold has_id. apply String.eqb_refl. Qed.

Lemma timestamp_at_head (m : Message) (l : list Message) :
  timestamp_at (m :: l) 0 = msg_timestamp m.
Proof. reflexivity. Qed.

Lemma timestamp_at_last (l : list Message) (m : Message) :
  timestamp_at (l ++ [m]) (Z.of_nat (length (l ++ [m])) - 1) = msg_timestamp m.
Proof.
  unfold timestamp_at, JS.nth_Z.
  rewrite length_app. cbn [length].
  test_false (Z.of_nat (length l + 1) - 1 <? 0).
  replace (Z.to_nat (Z.of_nat (length l + 1) - 1)) with (length l) by lia.
  rewrite lookup_app_r by lia.
  replace (length l - length l)%nat with 0%nat by lia. reflexivity.
Qed.

Lemma chronological_head_le (oldest : Message) (rest : list Message) (i : Z) :
  chronological (oldest :: rest) ->
  0 <= i < Z.of_nat (length (oldest :: rest)) ->
  msg_timestamp oldest <= timestamp_at (oldest :: rest) i.
Proof.
  intros Hs Hi. apply StronglySorted_inv in Hs as [_ Hall].
  unfold timestamp_at, JS.nth_Z.
  test_false (i <? 0).
  destruct (Z.to_nat i) as [| j] eqn:E; cbn.
  - lia.
  - destruct (rest !! j) as [m |] eqn:Em; cbn.
    + rewrite Forall_forall in Hall. apply Hall.
      eapply list_elem_of_lookup_2. exact Em.
    + apply lookup_ge_None in Em. cbn [length] in Hi. lia.
Qed.

(** The cursor sits at the head of a batch that is not detected as
    newest-first: nothing lies before it, and no retry is made. *)
Lemma older_messages_cursor_at_head (chat : Chat) (oldest : Message)
    (rest : list Message) (p : Z) :
  chat (JS.Num 500) = Returns (oldest :: rest) ->
  isNewestFirst (oldest :: rest) = false ->
  1 <= p ->
  older_messages chat (msg_id oldest) (JS.Num p) = Returns [].
Proof.
  intros Hf Hn Hp. unfold older_messages. rewrite Hf.
  unfold JS.findIndex. cbn [JS.findIndex_from]. rewrite has_id_self.
  cbn [Z.leb Z.compare]. unfold slice_bounds. rewrite Hn.
  cbn [JS.sub JS.Math_max JS.lt].
  replace (Z.max 0 (0 - p)) with 0 by lia.
  cbn [Z.ltb Z.compare andb JS.strict_eq].
  replace (0 =? Z.of_nat (length (oldest :: rest))) with false
    by (symmetry; apply Z.eqb_neq; cbn [length]; lia).
  rewrite andb_false_r. reflexivity.
Qed.

(** The cursor sits at the end of a batch detected as newest-first: nothing
    lies after it, the enlarged retry finds the cursor last again and keeps
    the empty page. *)
Lemma older_messages_cursor_at_end (chat : Chat) (newer : list Message)
    (oldest : Message) (p : Z) :
  chat (JS.Num 500) = Returns (newer ++ [oldest]) ->
  chat (JS.Num 1000) = Returns (newer ++ [oldest]) ->
  isNewestFirst (newer ++ [oldest]) = true ->
  Forall (fun m => has_id (msg_id oldest) m = false) newer ->
  p = Z.of_nat (length (newer ++ [oldest])) ->
  older_messages chat (msg_id oldest) (JS.Num p) = Returns [].
Proof.
  intros Hf Hf' Hn Hnew Hp. unfold older_messages. rewrite Hf.
  unfold JS.findIndex.
  rewrite (findIndex_from_first _ newer [] oldest 0 Hnew (has_id_self oldest)).
  assert (Hlen : Z.of_nat (length newer) + 1 = p)
    by (rewrite Hp, length_app; cbn [length]; lia).
  test_true (0 <=? 0 + Z.of_nat (length newer)).
  unfold slice_bounds. rewrite Hn. rewrite <- Hp.
  cbn [JS.add JS.Math_min JS.lt JS.strict_eq].
  replace (0 + Z.of_nat (length newer) + 1) with p by lia.
  replace (Z.min (p + p) p) with p by lia.
  rewrite Z.ltb_irrefl. cbn [andb].
  rewrite Hf'.
  unfold second_attempt, JS.findIndex.
  rewrite (findIndex_from_first _ newer [] oldest 0 Hnew (has_id_self oldest)).
  rewrite <- Hp.
  test_false (0 + Z.of_nat (length newer) <? p - 1).
  rewrite andb_false_r.
  destruct (_ && _); reflexivity.
Qed.

(** C6 (as amended): a chat holds exactly [p] messages with distinct ids,
    in chronological order, and is fetched oldest-first, or holds a single
    message, or is fetched newest-first with the newest timestamp strictly
    above the oldest one.  Then the request without cursor and with page
    size [p] returns all [p] messages, and the request whose cursor is the
    oldest message's id returns the empty page. *)
Theorem exact_page_then_empty_page (s : Session) (client : Client)
    (chatId : string) (chat : Chat) (order : BatchOrder)
    (oldest : Message) (rest : list Message) (limit : option string) (p : Z) :
  isReady s = true -> isAuthenticated s = true ->
  client chatId = Returns (Some chat) ->
  fetches_recent chat (oldest :: rest) order ->
  chronological (oldest :: rest) ->
  NoDup (msg_id <$> oldest :: rest) ->
  msg_id oldest <> "" ->
  pageSize limit = JS.Num p ->
  p = Z.of_nat (length (oldest :: rest)) ->
  (order = OldestFirst \/ rest = []
   \/ exists newest, last rest = Some newest
                     /\ msg_timestamp oldest < msg_timestamp newest) ->
  (exists page,
      chat_messages s client chatId None limit = PagerOk page
      /\ page ≡ₚ format_message <$> oldest :: rest)
  /\ chat_messages s client chatId (Some (msg_id oldest)) limit = PagerOk [].
Proof.
  intros Hr Ha Hc Hf Hchr Hnd Hid Hps Hp Hdet.
  assert (Hp1 : 1 <= p) by (rewrite Hp; cbn [length]; lia).
  assert (Hp100 : p <= 100) by (eapply pageSize_le_100; exact Hps).
  assert (Hall : forall k, p <= k ->
            chat (JS.Num k) = Returns (batch order p (oldest :: rest))).
  { intros k Hk. rewrite Hf by lia. f_equal. unfold batch.
    rewrite !most_recent_all by lia. reflexivity. }
  assert (Hbatch : batch order p (oldest :: rest) ≡ₚ oldest :: rest).
  { unfold batch. rewrite most_recent_all by lia.
    destruct order; [apply reverse_Permutation | reflexivity]. }
  unfold chat_messages. rewrite Hr, Ha, Hc. cbn [negb orb].
  rewrite Hps. split.
  - cbn [select_messages]. rewrite Hall by lia.
    eexists. split; [reflexivity |].
    rewrite reverse_Permutation. rewrite Hbatch. reflexivity.
  - cbn [select_messages].
    apply String.eqb_neq in Hid. rewrite Hid.
    enough (E : older_messages chat (msg_id oldest) (JS.Num p) = Returns [])
      by (rewrite E; reflexivity).
    destruct Hdet as [-> | [-> | (newest & Hlast & Hts)]].
    + (* oldest first *)
      apply (older_messages_cursor_at_head chat oldest rest p); [| | lia].
      * rewrite Hall by lia. unfold batch.
        rewrite most_recent_all by lia. reflexivity.
      * unfold isNewestFirst.
        destruct (1 <? Z.of_nat (length (oldest :: rest))) eqn:E1;
          [| reflexivity].
        cbn [andb]. apply Z.ltb_ge. rewrite timestamp_at_head.
        apply chronological_head_le; [exact Hchr |].
        apply Z.ltb_lt in E1. lia.
    + (* a single message *)
      destruct order.
      * apply (older_messages_cursor_at_head chat oldest [] p); [| | lia].
        -- rewrite Hall by lia. unfold batch.
           rewrite most_recent_all by lia. reflexivity.
        -- reflexivity.
      * apply (older_messages_cursor_at_head chat oldest [] p); [| | lia].
        -- rewrite Hall by lia. unfold batch.
           rewrite most_recent_all by lia. reflexivity.
        -- reflexivity.
    + destruct order.
      * (* newest first, detected *)
        apply last_Some in Hlast as (rest' & ->).
        assert (Hrev : batch NewestFirst p (oldest :: rest' ++ [newest])
                       = (newest :: reverse rest') ++ [oldest]).
        { unfold batch. rewrite most_recent_all by lia.
          rewrite reverse_cons, reverse_app. reflexivity. }
        apply (older_messages_cursor_at_end chat (newest :: reverse rest')).
        -- rewrite Hall by lia. rewrite Hrev. reflexivity.
        -- rewrite Hall by lia. rewrite Hrev. reflexivity.
        -- unfold isNewestFirst. rewrite timestamp_at_last.
           rewrite <- app_comm_cons, timestamp_at_head.
           apply andb_true_iff. split; apply Z.ltb_lt; [| exact Hts].
           cbn [length]. rewrite length_app. cbn [length]. lia.
        -- apply has_id_absent.
           cbn [fmap list_fmap] in Hnd. apply NoDup_cons in Hnd as [Hnot _].
           intros Hin. apply Hnot.
           change (newest :: reverse rest') with (reverse [newest] ++ reverse rest') in Hin.
           rewrite <- reverse_app in Hin.
           rewrite fmap_reverse, elem_of_reverse in Hin. exact Hin.
        -- rewrite Hp. rewrite !length_app. cbn [length].
           rewrite length_reverse, length_app. cbn [length]. lia.
      * apply (older_messages_cursor_at_head chat oldest rest p); [| | lia].
        -- rewrite Hall by lia. unfold batch.
           rewrite most_recent_all by lia. reflexivity.
        -- unfold isNewestFirst.
           destruct (1 <? Z.of_nat (length (oldest :: rest))) eqn:E1;
             [| reflexivity].
           cbn [andb]. apply Z.ltb_ge. rewrite timestamp_at_head.
           apply chronological_head_le; [exact Hchr |].
           apply Z.ltb_lt in E1. lia.
Qed.

Lemma recent_chat_fetches_recent (history : list Message) (order : BatchOrder) :
  fetches_recent (recent_chat history order) history order.
Proof. intros k _. reflexivity. Qed.

Lemma exact_page_then_empty_page_witness :
  let oldest := text_msg "m1" 4 in
  let rest := [text_msg "m2" 5] in
  let client := only_chat "c" (recent_chat (oldest :: rest) NewestFirst) in
  (exists page,
      chat_messages ready_session client "c" None (Some "2") = PagerOk page
      /\ page ≡ₚ format_message <$> oldest :: rest)
  /\ chat_messages ready_session client "c" (Some "m1") (Some "2") = PagerOk [].
Proof.
  apply (exact_page_then_empty_page ready_session
           (only_chat "c" (recent_chat [text_msg "m1" 4; text_msg "m2" 5]
                             NewestFirst))
           "c" (recent_chat [text_msg "m1" 4; text_msg "m2" 5] NewestFirst)
           NewestFirst (text_msg "m1" 4) [text_msg "m2" 5] (Some "2") 2);
    try reflexivity.
  - apply recent_chat_fetches_recent.
  - repeat constructor. cbn. lia.
  - cbn. apply NoDup_cons. split.
    + intros H. apply list_elem_of_singleton in H. discriminate.
    + apply NoDup_singleton.
  - discriminate.
  - right. right. exists (text_msg "m2" 5). split; [reflexivity | cbn; lia].
Defined.

(** C6 (as stated) fails: two messages of the same second, fetched
    newest-first.  The first request returns both; the request whose cursor
    is the oldest message's id returns the newer message instead of the
    empty page. *)
Lemma same_second_history_page_not_empty :
  let history := [text_msg "m1" 5; text_msg "m2" 5] in
  let client := only_chat "c" (recent_chat history NewestFirst) in
  chat_messages ready_session client "c" None (Some "2")
  = PagerOk (format_message <$> history)
  /\ chat_messages ready_session client "c" (Some "m1") (Some "2")
     = PagerOk [format_message (text_msg "m2" 5)]
  /\ chat_messages ready_session client "c" (Some "m1") (Some "2")
     <> PagerOk [].
Proof.
  repeat split. vm_compute. discriminate.
Qed.

(** *** Newest-first batches: the page ascends *)

Lemma findIndex_from_cases {A} (p : A -> bool) (l : list A) (i : Z) :
  JS.findIndex_from p l i = -1
  \/ exists k x, JS.findIndex_from p l i = i + Z.of_nat k
                 /\ l !! k = Some x /\ p x = true.
Proof.
  revert i. induction l as [| y l IH]; intros i; cbn; [left; reflexivity |].
  destruct (p y) eqn:Ey.
  - right. exists 0%nat, y. repeat split; [lia | assumption].
  - destruct (IH (i + 1)) as [E | (k & x & E & Hk & Hx)]; [left; exact E |].
    right. exists (S k), x. repeat split; [lia | assumption | assumption].
Qed.

Lemma slice_take_drop {A} (l : list A) (a b : Z) :
  0 <= a <= Z.of_nat (length l) -> 0 <= b ->
  JS.slice l (JS.Num a) (JS.Num b)
  = take (Z.to_nat (Z.min b (Z.of_nat (length l)) - a)) (drop (Z.to_nat a) l).
Proof.
  intros Ha Hb. unfold JS.slice, JS.relative_index.
  test_false (a <? 0).
  test_false (b <? 0).
  replace (Z.min a (Z.of_nat (length l))) with a by lia.
  f_equal. lia.
Qed.

Lemma page_after_cursor (batch : list Message) (i k : nat) (c : Message) :
  strictly_newest_first batch -> batch !! i = Some c ->
  strictly_newest_first (take k (drop (S i) batch))
  /\ Forall (fun m => msg_timestamp m < msg_timestamp c)
       (take k (drop (S i) batch)).
Proof.
  unfold strictly_newest_first. intros Hs Hi.
  rewrite <- (take_drop_middle batch i c Hi) in Hs.
  apply StronglySorted_app_1_r, StronglySorted_cons in Hs as [Hc Hd].
  split.
  - rewrite <- (take_drop k (drop (S i) batch)) in Hd.
    eapply StronglySorted_app_1_l. exact Hd.
  - apply Forall_take. exact Hc.
Qed.

Lemma ascending_snoc (ts : list Z) (x : Z) :
  ascending ts = true -> Forall (fun y => y <= x) ts ->
  ascending (ts ++ [x]) = true.
Proof.
  induction ts as [| a ts IH]; [reflexivity |].
  intros Ha Hall. apply Forall_cons in Hall as [Hax Hall].
  destruct ts as [| b ts].
  - cbn. rewrite andb_true_r. apply Z.leb_le. exact Hax.
  - cbn [app ascending] in *. apply andb_true_iff in Ha as [Hab Ha].
    rewrite Hab. cbn [andb]. apply IH; assumption.
Qed.

Lemma ascending_reverse_page (page : list Message) :
  strictly_newest_first page ->
  ascending (fm_timestamp <$> reverse (format_message <$> page)) = true.
Proof.
  unfold strictly_newest_first.
  induction page as [| m page IH]; [reflexivity |].
  intros Hs. apply StronglySorted_cons in Hs as [Hm Hs].
  rewrite fmap_cons, reverse_cons, fmap_app. apply ascending_snoc.
  - apply IH. exact Hs.
  - rewrite <- fmap_reverse, <- list_fmap_compose.
    apply Forall_fmap, Forall_reverse.
    eapply Forall_impl; [exact Hm |]. cbn. intros; lia.
Qed.

(** A strictly newest-first batch of two messages or more is detected as
    newest-first. *)
Lemma strictly_newest_first_detected (batch : list Message) :
  strictly_newest_first batch -> (2 <= length batch)%nat ->
  isNewestFirst batch = true.
Proof.
  intros Hs Hlen. unfold isNewestFirst.
  destruct batch as [| x rest]; [cbn in Hlen; lia |].
  destruct rest as [| y rest] using rev_ind; [cbn in Hlen; lia |].
  clear IHrest.
  apply andb_true_iff. split; apply Z.ltb_lt.
  - cbn [length]. rewrite length_app. cbn [length]. lia.
  - rewrite app_comm_cons, timestamp_at_last, <- app_comm_cons,
      timestamp_at_head.
    apply StronglySorted_cons in Hs as [Hx _].
    rewrite Forall_forall in Hx. apply Hx.
    apply elem_of_app. right. apply list_elem_of_singleton. reflexivity.
Qed.

(** The messages that the cursor path selects from strictly newest-first
    batches: none, or at most [p] messages right after a message with the
    cursor's id, in one of the two batches. *)
Lemma older_messages_newest_first (chat : Chat) (b : string) (p : Z)
    (allMessages moreMessages : list Message) :
  chat (JS.Num 500) = Returns allMessages ->
  chat (JS.Num 1000) = Returns moreMessages ->
  strictly_newest_first allMessages ->
  1 <= p ->
  exists messages,
    older_messages chat b (JS.Num p) = Returns messages
    /\ (messages = []
        \/ exists batch i c k,
             (batch = allMessages \/ batch = moreMessages)
             /\ batch !! i = Some c /\ msg_id c = b
             /\ Z.of_nat k <= p
             /\ messages = take k (drop (S i) batch)).
Proof.
  intros Hf Hf' Hs Hp. unfold older_messages. rewrite Hf.
  unfold JS.findIndex.
  destruct (findIndex_from_cases (has_id b) allMessages 0)
    as [-> | (i & c & -> & Hi & Hc)]; [eexists; split; [reflexivity | left; reflexivity] |].
  apply String.eqb_eq in Hc.
  pose proof (lookup_lt_Some _ _ _ Hi) as Hlt.
  test_true (0 <=? 0 + Z.of_nat i).
  unfold slice_bounds.
  destruct (isNewestFirst allMessages) eqn:Edet.
  - (* detected newest-first: the slice after the cursor *)
    cbn [JS.add JS.Math_min JS.lt JS.strict_eq].
    set (n := Z.of_nat (length allMessages)) in *.
    remember
      (if (0 + Z.of_nat i + 1 <? Z.min (0 + Z.of_nat i + 1 + p) n)
          && (0 + Z.of_nat i + 1 <? n)
       then JS.slice allMessages (JS.Num (0 + Z.of_nat i + 1))
              (JS.Num (Z.min (0 + Z.of_nat i + 1 + p) n))
       else []) as first eqn:Efirst.
    assert (Hfirst : first = []
              \/ exists k, Z.of_nat k <= p
                           /\ first = take k (drop (S i) allMessages)).
    { subst first. destruct (_ && _); [| left; reflexivity].
      right. rewrite slice_take_drop by (subst n; lia).
      replace (Z.to_nat (0 + Z.of_nat i + 1)) with (S i) by lia.
      eexists. split; [| reflexivity]. lia. }
    clear Efirst.
    destruct (_ && _).
    + rewrite Hf'. unfold second_attempt, JS.findIndex.
      destruct (findIndex_from_cases (has_id b) moreMessages 0)
        as [-> | (j & c' & -> & Hj & Hc')].
      * cbn [Z.leb Z.compare andb]. eexists. split; [reflexivity |].
        destruct Hfirst as [-> | (k & Hk & ->)]; [left; reflexivity |].
        right. exists allMessages, i, c, k. auto.
      * apply String.eqb_eq in Hc'.
        pose proof (lookup_lt_Some _ _ _ Hj) as Hlt'.
        destruct (_ && _).
        -- eexists. split; [reflexivity |]. right.
           cbn [JS.add JS.Math_min].
           rewrite slice_take_drop by lia.
           replace (Z.to_nat (0 + Z.of_nat j + 1)) with (S j) by lia.
           exists moreMessages, j, c'. eexists.
           repeat split; [right; reflexivity | assumption | assumption | ].
           lia.
        -- eexists. split; [reflexivity |].
           destruct Hfirst as [-> | (k & Hk & ->)]; [left; reflexivity |].
           right. exists allMessages, i, c, k. auto.
    + eexists. split; [reflexivity |].
      destruct Hfirst as [-> | (k & Hk & ->)]; [left; reflexivity |].
      right. exists allMessages, i, c, k. auto.
  - (* not detected: the batch holds the cursor alone *)
    assert (Hone : length allMessages = 1%nat).
    { destruct (le_lt_dec 2 (length allMessages)) as [H2 |]; [| lia].
      rewrite (strictly_newest_first_detected _ Hs H2) in Edet.
      discriminate. }
    assert (i = 0%nat) as -> by lia.
    cbn [JS.sub JS.Math_max JS.lt JS.strict_eq].
    replace (Z.max 0 (0 + Z.of_nat 0 - p)) with 0 by lia.
    cbn [Z.of_nat Z.add Z.ltb Z.compare andb].
    rewrite Hone. cbn [Z.of_nat Pos.of_succ_nat Z.eqb]. rewrite andb_false_r.
    eexists. split; [reflexivity | left; reflexivity].
Qed.

Lemma strictly_newest_first_batch (history : list Message) (k : Z) :
  strictly_chronological history ->
  strictly_newest_first (batch NewestFirst k history).
Proof.
  unfold strictly_chronological, strictly_newest_first, batch, most_recent.
  intros Hs.
  rewrite <- (take_drop (length history - Z.to_nat k) history) in Hs.
  apply StronglySorted_app_1_r in Hs.
  induction Hs as [| x l _ IH Hx]; [constructor |].
  rewrite reverse_cons. apply StronglySorted_app_2; [| exact IH | repeat constructor].
  intros x1 x2 H1 H2. apply list_elem_of_singleton in H2 as ->.
  rewrite elem_of_reverse in H1. rewrite Forall_forall in Hx. apply Hx, H1.
Qed.

Lemma batch_subseteq (order : BatchOrder) (k : Z) (history : list Message)
    (m : Message) :
  m ∈ batch order k history -> m ∈ history.
Proof.
  unfold batch, most_recent. intros H.
  destruct order; [rewrite elem_of_reverse in H |];
    eapply (subseteq_drop _ history); exact H.
Qed.

Lemma same_id_same_message (history : list Message) (c c' : Message) :
  NoDup (msg_id <$> history) -> c ∈ history -> c' ∈ history ->
  msg_id c = msg_id c' -> c = c'.
Proof.
  induction history as [| x l IH]; intros Hnd Hc Hc' E; [inversion Hc |].
  rewrite fmap_cons in Hnd. apply NoDup_cons in Hnd as [Hx Hnd].
  apply elem_of_cons in Hc as [-> | Hc]; apply elem_of_cons in Hc' as [-> | Hc'].
  - reflexivity.
  - exfalso. apply Hx. rewrite E. apply list_elem_of_fmap_2. exact Hc'.
  - exfalso. apply Hx. rewrite <- E. apply list_elem_of_fmap_2. exact Hc.
  - apply IH; assumption.
Qed.

(** The sibling path of C1: when the history has strictly growing
    timestamps and distinct ids and the batches arrive newest-first, the
    page of a valid page size [p] holds at most [p] messages, each with a
    timestamp strictly below the cursor message's, oldest first. *)
Theorem pager_newest_first_page_ascends (s : Session) (client : Client)
    (chatId : string) (chat : Chat) (history : list Message) (b : string)
    (limit : option string) (p : Z) :
  isReady s = true -> isAuthenticated s = true ->
  client chatId = Returns (Some chat) ->
  fetches_recent chat history NewestFirst ->
  strictly_chronological history ->
  NoDup (msg_id <$> history) ->
  b <> "" -> pageSize limit = JS.Num p -> 1 <= p ->
  exists page,
    chat_messages s client chatId (Some b) limit = PagerOk page
    /\ Z.of_nat (length page) <= p
    /\ ascending (fm_timestamp <$> page) = true
    /\ forall c m, c ∈ history -> msg_id c = b -> m ∈ page ->
                   fm_timestamp m < msg_timestamp c.
Proof.
  intros Hr Ha Hc Hf Hs Hnd Hb Hps Hp.
  destruct (older_messages_newest_first chat b p
              (batch NewestFirst 500 history) (batch NewestFirst 1000 history))
    as (messages & Hm & Hshape); try (apply Hf; lia); try assumption.
  { apply strictly_newest_first_batch. exact Hs. }
  unfold chat_messages. rewrite Hr, Ha, Hc, Hps. cbn [negb orb select_messages].
  apply String.eqb_neq in Hb. rewrite Hb, Hm. eexists. split; [reflexivity |].
  destruct Hshape as [-> | (bt & i & c0 & k & Hbt & Hi & Hid & Hk & ->)].
  { cbn. repeat split; [lia |]. intros c m _ _ H. inversion H. }
  assert (Hsb : strictly_newest_first bt)
    by (destruct Hbt as [-> | ->]; apply strictly_newest_first_batch, Hs).
  assert (Hc0 : c0 ∈ history).
  { apply list_elem_of_lookup_2 in Hi.
    destruct Hbt as [-> | ->]; eapply batch_subseteq; exact Hi. }
  destruct (page_after_cursor bt i k c0 Hsb Hi) as [Hpage Hold].
  repeat split.
  - rewrite length_reverse, length_fmap, length_take. lia.
  - apply ascending_reverse_page. exact Hpage.
  - intros c m Hcin Hcid Hmin.
    assert (c = c0) as -> by (eapply same_id_same_message; eauto; congruence).
    rewrite elem_of_reverse in Hmin.
    apply list_elem_of_fmap in Hmin as (x & -> & Hx).
    rewrite Forall_forall in Hold. apply Hold. exact Hx.
Qed.

Lemma pager_newest_first_page_ascends_example :
  let history := [text_msg "m1" 1; text_msg "m2" 2; text_msg "m3" 3] in
  exists page,
    chat_messages ready_session
      (only_chat "c" (recent_chat history NewestFirst)) "c" (Some "m3")
      (Some "2") = PagerOk page
    /\ fm_id <$> page = ["m1"; "m2"]
    /\ ascending (fm_timestamp <$> page) = true.
Proof.
  eexists. split; [vm_compute; reflexivity |]. split; reflexivity.
Qed.

(** ** Pinned messages *)

Lemma pinned_of_insert (c chatId : string) (l : list PinnedMessage)
    (pm : gmap string (list PinnedMessage)) :
  pinned_of c (<[chatId := l]> pm)
  = if decide (chatId = c) then l else pinned_of c pm.
Proof.
  unfold pinned_of. rewrite lookup_insert.
  destruct (decide (chatId = c)); reflexivity.
Qed.

(** Creating the empty entry of a chat changes no chat's pinned list. *)
Lemma pinned_of_ensure (c chatId : string)
    (pm : gmap string (list PinnedMessage)) :
  pinned_of c
    (match pm !! chatId with
     | Some _ => pm
     | None => <[chatId := []]> pm
     end)
  = pinned_of c pm.
Proof.
  destruct (pm !! chatId) eqn:E; [reflexivity |].
  rewrite pinned_of_insert. destruct (decide (chatId = c)) as [<- |];
    [| reflexivity].
  unfold pinned_of. rewrite E. reflexivity.
Qed.

Lemma is_pinned_false (messageId : string) (l : list PinnedMessage) :
  is_pinned messageId l = false <-> messageId ∉ pin_id <$> l.
Proof.
  unfold is_pinned. induction l as [| x l IH]; cbn.
  - split; [intros _ H; inversion H | reflexivity].
  - rewrite orb_false_iff, IH, not_elem_of_cons, String.eqb_neq.
    split; intros [H1 H2]; split; auto.
Qed.

Lemma filter_others_id (messageId : string) (l : list PinnedMessage) :
  is_pinned messageId l = false ->
  List.filter (fun p => negb (String.eqb (pin_id p) messageId)) l = l.
Proof.
  unfold is_pinned. induction l as [| x l IH]; cbn; [reflexivity |].
  intros H. apply orb_false_iff in H as [Hx Hl]. rewrite Hx. cbn.
  rewrite IH by exact Hl. reflexivity.
Qed.

Lemma filter_others_pushed (messageId : string) (l : list PinnedMessage)
    (x : PinnedMessage) :
  is_pinned messageId l = false -> pin_id x = messageId ->
  List.filter (fun p => negb (String.eqb (pin_id p) messageId)) (l ++ [x]) = l.
Proof.
  intros Hl Hx. rewrite List.filter_app, filter_others_id by exact Hl.
  cbn. rewrite Hx, String.eqb_refl. cbn. apply app_nil_r.
Qed.

Lemma find_has_id (messageId : string) (messages : list Message)
    (message : Message) :
  List.find (has_id messageId) messages = Some message ->
  pin_id (to_pinned message) = messageId.
Proof.
  intros H. apply List.find_some in H as [_ H].
  unfold has_id in H. apply String.eqb_eq in H. exact H.
Qed.

Lemma NoDup_ids_filter (f : PinnedMessage -> bool) (l : list PinnedMessage) :
  NoDup (pin_id <$> l) -> NoDup (pin_id <$> List.filter f l).
Proof.
  induction l as [| x l IH]; cbn; [intros; constructor |].
  intros H. apply NoDup_cons in H as [Hx Hl].
  destruct (f x); cbn; [| auto].
  apply NoDup_cons. split; [| auto].
  intros Hin. apply Hx.
  apply list_elem_of_fmap in Hin as (y & -> & Hy).
  apply list_elem_of_fmap_2. apply list_elem_of_In in Hy.
  apply List.filter_In in Hy as [Hy _]. apply list_elem_of_In. exact Hy.
Qed.

Lemma pin_message_effect (s : Session) (client : Client) (req : PinRequest)
    (pm : gmap string (list PinnedMessage)) (c : string) :
  pin_effect req (pinned_of c pm)
    (pinned_of c (snd (pin_message s client req pm))).
Proof.
  unfold pin_message.
  destruct (negb (isReady s) || negb (isAuthenticated s));
    [apply pin_unchanged; reflexivity |].
  destruct req as [[chatId |] [messageId |] [action |]]; cbn [pin_chatId pin_messageId pin_action];
    try (apply pin_unchanged; reflexivity).
  destruct (_ || _); [apply pin_unchanged; reflexivity |].
  set (pm' := match pm !! chatId with
              | Some _ => pm
              | None => <[chatId := []]> pm
              end).
  assert (Hens : forall c', pinned_of c' pm' = pinned_of c' pm)
    by (intros c'; apply pinned_of_ensure).
  destruct (String.eqb action "pin") eqn:Epin.
  - apply String.eqb_eq in Epin as ->.
    destruct (is_pinned messageId (pinned_of chatId pm')) eqn:Ealready;
      [apply pin_unchanged; cbn; apply Hens |].
    destruct (client chatId) as [[chat |] | e];
      try (apply pin_unchanged; cbn; apply Hens).
    destruct (chat (JS.Num 100)) as [messages | e];
      [| apply pin_unchanged; cbn; apply Hens].
    destruct (List.find (has_id messageId) messages) as [message |] eqn:Efind;
      [| apply pin_unchanged; cbn; apply Hens].
    cbn [pin_ok snd]. rewrite pinned_of_insert.
    destruct (decide (chatId = c)) as [<- |];
      [| apply pin_unchanged; apply Hens].
    rewrite Hens in *.
    eapply pin_pushed; eauto using find_has_id.
  - destruct (String.eqb action "unpin") eqn:Eunpin;
      [| apply pin_unchanged; cbn; apply Hens].
    apply String.eqb_eq in Eunpin as ->.
    cbn [pin_ok snd]. rewrite pinned_of_insert.
    destruct (decide (chatId = c)) as [<- |];
      [| apply pin_unchanged; apply Hens].
    rewrite Hens. eapply pin_removed; eauto.
Qed.

Lemma pin_effect_NoDup (req : PinRequest) (before after : list PinnedMessage) :
  pin_effect req before after ->
  NoDup (pin_id <$> before) -> NoDup (pin_id <$> after).
Proof.
  intros [-> | messageId x _ _ Hnew Hx -> | messageId _ _ ->] H.
  - exact H.
  - rewrite fmap_app. cbn. apply NoDup_app. split; [exact H |].
    split; [| apply NoDup_singleton].
    intros y Hy Hy'. apply list_elem_of_singleton in Hy'. subst y.
    rewrite Hx in Hy. apply is_pinned_false in Hnew. exact (Hnew Hy).
  - apply NoDup_ids_filter. exact H.
Qed.

(** One request, pin or unpin, keeps the ids of every chat's pinned list
    free of duplicates. *)
Lemma pin_message_preserves_NoDup (s : Session) (client : Client)
    (req : PinRequest) (pm : gmap string (list PinnedMessage)) :
  (forall c, NoDup (pin_id <$> pinned_of c pm)) ->
  forall c, NoDup (pin_id <$> pinned_of c (snd (pin_message s client req pm))).
Proof.
  intros H c. eapply pin_effect_NoDup; [apply pin_message_effect | apply H].
Qed.

(** Pinning an id that is already pinned changes nothing. *)
Lemma pin_already_pinned_is_noop (s : Session) (client : Client)
    (chatId messageId : string) (pm : gmap string (list PinnedMessage))
    (c : string) :
  is_pinned messageId (pinned_of chatId pm) = true ->
  pinned_of c
    (snd (pin_message s client
            (mkPinRequest (Some chatId) (Some messageId) (Some "pin")) pm))
  = pinned_of c pm.
Proof.
  intros Hp. unfold pin_message.
  destruct (negb (isReady s) || negb (isAuthenticated s)); [reflexivity |].
  cbn [pin_chatId pin_messageId pin_action].
  destruct (_ || _); [reflexivity |].
  cbn [String.eqb Ascii.eqb Bool.eqb].
  rewrite (pinned_of_ensure chatId chatId), Hp.
  cbn. apply pinned_of_ensure.
Qed.

(** For requests handled in turn: starting from the empty map, whatever
    the session and the client answer at each request, no chat's pinned list
    holds two entries of the same message id. *)
Lemma run_pins_never_duplicates (steps : list PinStep) (c : string) :
  NoDup (pin_id <$> pinned_of c (run_pins steps ∅)).
Proof.
  assert (G : forall pm,
             (forall c, NoDup (pin_id <$> pinned_of c pm)) ->
             forall c, NoDup (pin_id <$> pinned_of c (run_pins steps pm))).
  { induction steps as [| st steps IH]; intros pm H; cbn; [exact H |].
    apply IH. apply pin_message_preserves_NoDup. exact H. }
  apply G. intros c'. unfold pinned_of. rewrite lookup_empty. constructor.
Qed.

(** ** Pin requests that overlap *)

Lemma stored_view (c : string) (st : PinStore) :
  pinned_of c (pin_view st) = stored c st.
Proof.
  unfold pinned_of, pin_view, stored. rewrite lookup_fmap.
  destruct (entries st !! c); reflexivity.
Qed.

Lemma no_pins_wf : server_wf no_pins.
Proof.
  exists (fun _ => ""). split.
  - intros c a H. cbn in H. rewrite lookup_empty in H. discriminate.
  - intros k H. inversion H.
Qed.

Lemma read_array_new (st : PinStore) (l : list PinnedMessage)
    (e : gmap string nat) (b : nat) :
  read_array (mkPinStore (arrays st ++ [l]) e) b
  = if decide (b = length (arrays st)) then l else read_array st b.
Proof.
  unfold read_array. cbn [arrays].
  destruct (decide (b = length (arrays st))) as [-> | Hne].
  - rewrite list_lookup_middle by reflexivity. reflexivity.
  - destruct (decide (b < length (arrays st))%nat) as [Hlt | Hge].
    + rewrite lookup_app_l by exact Hlt. reflexivity.
    + rewrite !lookup_ge_None_2; [reflexivity | lia |].
      rewrite length_app. cbn. lia.
Qed.

Lemma stored_set_entry (c chatId : string) (a : nat) (st : PinStore) :
  stored c (set_entry chatId a st)
  = if decide (chatId = c) then read_array st a else stored c st.
Proof.
  unfold stored, set_entry. cbn [entries]. rewrite lookup_insert.
  destruct (decide (chatId = c)); reflexivity.
Qed.

(** A new array entered under a chat: the chat's list becomes the new
    array, every other chat keeps its own. *)
Lemma stored_new_entry (owner : nat -> string) (st : PinStore)
    (chatId : string) (l : list PinnedMessage) (c : string) :
  owned owner st ->
  stored c (set_entry chatId (length (arrays st))
              (mkPinStore (arrays st ++ [l]) (entries st)))
  = if decide (chatId = c) then l else stored c st.
Proof.
  intros Ho. rewrite stored_set_entry.
  destruct (decide (chatId = c)) as [_ | Hne].
  - rewrite read_array_new. rewrite decide_True by reflexivity. reflexivity.
  - unfold stored. cbn [entries].
    destruct (entries st !! c) as [a |] eqn:E; [| reflexivity].
    rewrite read_array_new. apply Ho in E as [Hlt _].
    rewrite decide_False by lia. reflexivity.
Qed.

Lemma owned_new_entry (owner : nat -> string) (st : PinStore)
    (chatId : string) (l : list PinnedMessage) :
  owned owner st ->
  owned (fun b => if decide (b = length (arrays st)) then chatId else owner b)
    (set_entry chatId (length (arrays st))
       (mkPinStore (arrays st ++ [l]) (entries st))).
Proof.
  intros Ho c a H. unfold set_entry in *. cbn [entries arrays] in *.
  rewrite length_app. cbn [length].
  rewrite lookup_insert in H.
  destruct (decide (chatId = c)) as [<- | Hne].
  - injection H as <-. split; [lia |].
    rewrite decide_True by reflexivity. reflexivity.
  - apply Ho in H as [Hlt Hown]. split; [lia |].
    rewrite decide_False by lia. exact Hown.
Qed.

Lemma held_new_entry (owner : nat -> string) (st : PinStore)
    (chatId : string) (l : list PinnedMessage) (k : PendingPin) :
  held owner st k ->
  held (fun b => if decide (b = length (arrays st)) then chatId else owner b)
    (set_entry chatId (length (arrays st))
       (mkPinStore (arrays st ++ [l]) (entries st))) k.
Proof.
  intros [Hlt Hown]. unfold held, set_entry. cbn [arrays].
  rewrite length_app. cbn [length]. split; [lia |].
  rewrite decide_False by lia. exact Hown.
Qed.

Lemma read_array_push (st : PinStore) (a : nat) (x : PinnedMessage)
    (b : nat) :
  (a < length (arrays st))%nat ->
  read_array (push_array a x st) b
  = if decide (a = b) then read_array st a ++ [x] else read_array st b.
Proof.
  intros Hlt. unfold read_array at 1, push_array. cbn [arrays].
  destruct (decide (a = b)) as [<- | Hne].
  - rewrite list_lookup_insert_eq by exact Hlt. reflexivity.
  - rewrite list_lookup_insert_ne by exact Hne. reflexivity.
Qed.

(** A push on an array of a chat, entered again under the chat: the chat's
    list becomes the array with the new entry, every other chat keeps its
    own. *)
Lemma stored_push_entry (owner : nat -> string) (st : PinStore)
    (chatId : string) (a : nat) (x : PinnedMessage) (c : string) :
  owned owner st -> (a < length (arrays st))%nat -> owner a = chatId ->
  stored c (set_entry chatId a (push_array a x st))
  = if decide (chatId = c) then read_array st a ++ [x] else stored c st.
Proof.
  intros Ho Hlt Hown. rewrite stored_set_entry.
  destruct (decide (chatId = c)) as [_ | Hne].
  - rewrite read_array_push by exact Hlt.
    rewrite decide_True by reflexivity. reflexivity.
  - unfold stored. cbn [push_array entries].
    destruct (entries st !! c) as [b |] eqn:E; [| reflexivity].
    change (read_array (push_array a x st) b = read_array st b).
    rewrite read_array_push by exact Hlt.
    apply Ho in E as [_ Hb]. rewrite decide_False by congruence.
    reflexivity.
Qed.

Lemma owned_push_entry (owner : nat -> string) (st : PinStore)
    (chatId : string) (a : nat) (x : PinnedMessage) :
  owned owner st -> (a < length (arrays st))%nat -> owner a = chatId ->
  owned owner (set_entry chatId a (push_array a x st)).
Proof.
  intros Ho Hlt Hown c b H. unfold set_entry, push_array in *.
  cbn [entries arrays] in *. rewrite length_insert.
  rewrite lookup_insert in H.
  destruct (decide (chatId = c)) as [<- | Hne].
  - injection H as <-. auto.
  - apply Ho in H. exact H.
Qed.

Lemma held_push_entry (owner : nat -> string) (st : PinStore)
    (chatId : string) (a : nat) (x : PinnedMessage) (k : PendingPin) :
  held owner st k -> held owner (set_entry chatId a (push_array a x st)) k.
Proof.
  intros [Hlt Hown]. unfold held, set_entry, push_array. cbn [arrays].
  rewrite length_insert. auto.
Qed.

Lemma ensure_entry_spec (owner : nat -> string) (st : PinStore)
    (chatId : string) :
  owned owner st ->
  exists owner',
    owned owner' (snd (ensure_entry chatId st))
    /\ entries (snd (ensure_entry chatId st)) !! chatId
       = Some (fst (ensure_entry chatId st))
    /\ (forall c, stored c (snd (ensure_entry chatId st)) = stored c st)
    /\ (forall k, held owner st k ->
          held owner' (snd (ensure_entry chatId st)) k).
Proof.
  intros Ho. unfold ensure_entry.
  destruct (entries st !! chatId) as [a |] eqn:E.
  - exists owner. cbn [fst snd]. auto.
  - unfold new_array. cbn [fst snd].
    eexists. split; [apply owned_new_entry; exact Ho |].
    split; [cbn [set_entry entries]; rewrite lookup_insert;
            rewrite decide_True by reflexivity; reflexivity |].
    split; [| intros k; apply held_new_entry].
    intros c. rewrite (stored_new_entry owner) by exact Ho.
    destruct (decide (chatId = c)) as [<- |]; [| reflexivity].
    unfold stored. rewrite E. reflexivity.
Qed.

(** [pin_message] is the handler that no other handler interrupts: begun
    and, when it waits for the client, resumed at once, it gives the answer
    and the lists of [pin_message] on the map the store shows. *)
Lemma begin_resume_is_pin_message (owner : nat -> string) (s : Session)
    (client : Client) (req : PinRequest) (st : PinStore)
    (pm : gmap string (list PinnedMessage)) :
  owned owner st ->
  (forall c, stored c st = pinned_of c pm) ->
  match pin_message_begin s req st with
  | (PinAnswered response, st') =>
      response = fst (pin_message s client req pm)
      /\ forall c, stored c st'
                   = pinned_of c (snd (pin_message s client req pm))
  | (PinSuspended k, st') =>
      fst (pin_message_resume client k st')
      = fst (pin_message s client req pm)
      /\ forall c, stored c (snd (pin_message_resume client k st'))
                   = pinned_of c (snd (pin_message s client req pm))
  end.
Proof.
  intros Ho H. unfold pin_message_begin, pin_message.
  destruct (negb (isReady s) || negb (isAuthenticated s));
    [split; [reflexivity | exact H] |].
  destruct req as [[chatId |] [messageId |] [action |]];
    cbn [pin_chatId pin_messageId pin_action];
    try (split; [reflexivity | exact H]).
  destruct (_ || _); [split; [reflexivity | exact H] |].
  destruct (ensure_entry_spec owner st chatId Ho)
    as (owner' & Ho' & Hent & Hst & _).
  destruct (ensure_entry chatId st) as [a st1]. cbn [fst snd] in *.
  set (pm' := match pm !! chatId with
              | Some _ => pm
              | None => <[chatId := []]> pm
              end).
  assert (Hens : forall c', pinned_of c' pm' = pinned_of c' pm)
    by (intros c'; apply pinned_of_ensure).
  assert (H1 : forall c, stored c st1 = pinned_of c pm')
    by (intros c; rewrite Hst, Hens; apply H).
  assert (Ha : read_array st1 a = pinned_of chatId pm').
  { rewrite <- H1. unfold stored. rewrite Hent. reflexivity. }
  destruct (Ho' _ _ Hent) as [Hlt Hown].
  rewrite Ha.
  destruct (String.eqb action "pin") eqn:Epin.
  - apply String.eqb_eq in Epin as ->.
    destruct (is_pinned messageId (pinned_of chatId pm'));
      [split; [unfold stored_ok, pin_ok; cbn [fst]; rewrite H1; reflexivity
              | exact H1] |].
    unfold pin_message_resume. cbn [pending_chatId pending_messageId
                                      pending_array].
    destruct (client chatId) as [[chat |] | e];
      try (split; [reflexivity | exact H1]).
    destruct (chat (JS.Num 100)) as [messages | e];
      [| split; [reflexivity | exact H1]].
    destruct (List.find (has_id messageId) messages) as [message |];
      [| split; [unfold stored_ok, pin_ok; cbn [fst]; rewrite H1; reflexivity
                | exact H1]].
    cbn [fst snd pin_ok].
    assert (H2 : forall c,
               stored c (set_entry chatId a
                           (push_array a (to_pinned message) st1))
               = pinned_of c
                   (<[chatId := pinned_of chatId pm' ++ [to_pinned message]]>
                      pm')).
    { intros c. rewrite (stored_push_entry owner') by assumption.
      rewrite pinned_of_insert, Ha, H1. reflexivity. }
    split; [unfold stored_ok; rewrite H2; reflexivity | exact H2].
  - destruct (String.eqb action "unpin") eqn:Eunpin;
      [| split; [unfold stored_ok, pin_ok; cbn [fst]; rewrite H1; reflexivity
                | exact H1]].
    unfold new_array. cbn [fst snd pin_ok].
    assert (H2 : forall c,
               stored c
                 (set_entry chatId (length (arrays st1))
                    (mkPinStore
                       (arrays st1
                        ++ [List.filter
                              (fun p => negb (String.eqb (pin_id p) messageId))
                              (pinned_of chatId pm')])
                       (entries st1)))
               = pinned_of c
                   (<[chatId :=
                        List.filter
                          (fun p => negb (String.eqb (pin_id p) messageId))
                          (pinned_of chatId pm')]> pm')).
    { intros c. rewrite (stored_new_entry owner') by assumption.
      rewrite pinned_of_insert, H1. reflexivity. }
    split; [unfold stored_ok; rewrite H2; reflexivity | exact H2].
Qed.

Lemma pin_message_begin_wf (owner : nat -> string) (s : Session)
    (req : PinRequest) (st : PinStore) :
  owned owner st ->
  exists owner',
    owned owner' (snd (pin_message_begin s req st))
    /\ (forall k, held owner st k ->
          held owner' (snd (pin_message_begin s req st)) k)
    /\ match fst (pin_message_begin s req st) with
       | PinSuspended k => held owner' (snd (pin_message_begin s req st)) k
       | PinAnswered _ => True
       end.
Proof.
  intros Ho. unfold pin_message_begin.
  destruct (negb (isReady s) || negb (isAuthenticated s));
    [exists owner; cbn; auto |].
  destruct req as [[chatId |] [messageId |] [action |]];
    cbn [pin_chatId pin_messageId pin_action];
    try (exists owner; cbn; solve [auto]).
  destruct (_ || _); [exists owner; cbn; auto |].
  destruct (ensure_entry_spec owner st chatId Ho)
    as (owner' & Ho' & Hent & _ & Hheld).
  destruct (ensure_entry chatId st) as [a st1]. cbn [fst snd] in *.
  destruct (String.eqb action "pin").
  - destruct (is_pinned _ _); exists owner'; cbn [fst snd]; [auto |].
    split; [exact Ho' |]. split; [exact Hheld |].
    split; cbn [pending_array pending_chatId]; apply (Ho' _ _ Hent).
  - destruct (String.eqb action "unpin"); [| exists owner'; cbn; auto].
    unfold new_array. cbn [fst snd].
    eexists. split; [apply owned_new_entry; exact Ho' |].
    split; [| exact I].
    intros k Hk. apply held_new_entry, Hheld, Hk.
Qed.

Lemma pin_message_resume_wf (owner : nat -> string) (client : Client)
    (k : PendingPin) (st : PinStore) :
  owned owner st -> held owner st k ->
  owned owner (snd (pin_message_resume client k st))
  /\ forall k', held owner st k' ->
       held owner (snd (pin_message_resume client k st)) k'.
Proof.
  intros Ho [Hlt Hown]. unfold pin_message_resume.
  destruct (client _) as [[chat |] | e]; try (cbn; auto).
  destruct (chat _) as [messages | e]; [| cbn; auto].
  destruct (List.find _ _) as [message |]; [| cbn; auto].
  cbn [snd]. split; [apply owned_push_entry; assumption |].
  intros k'. apply held_push_entry.
Qed.

(** Every event keeps the arrays of the store owned. *)
Lemma pin_step_wf (sv : PinServer) (e : PinEvent) :
  server_wf sv -> server_wf (pin_step sv e).
Proof.
  intros (owner & Ho & Hp). destruct e as [s req | i client]; cbn [pin_step].
  - destruct (pin_message_begin_wf owner s req (pin_store sv) Ho)
      as (owner' & Ho' & Hheld & Hk).
    destruct (pin_message_begin s req (pin_store sv)) as [[r | k] st];
      cbn [fst snd] in *; exists owner'; cbn [pin_store pin_pending];
      (split; [exact Ho' |]).
    + intros k Hin. apply Hheld, Hp, Hin.
    + intros k' Hin. apply elem_of_app in Hin as [Hin | Hin].
      * apply Hheld, Hp, Hin.
      * apply list_elem_of_singleton in Hin as ->. exact Hk.
  - destruct (pin_pending sv !! i) as [k |] eqn:Ei; [| exists owner; auto].
    assert (Hk : held owner (pin_store sv) k)
      by (apply Hp; eapply list_elem_of_lookup_2; exact Ei).
    destruct (pin_message_resume_wf owner client k (pin_store sv) Ho Hk)
      as [Ho' Hheld].
    destruct (pin_message_resume client k (pin_store sv)) as [r st].
    cbn [snd] in *. exists owner. cbn [pin_store pin_pending].
    split; [exact Ho' |].
    intros k' Hin. apply Hheld, Hp.
    eapply list_elem_of_delete_inv. exact Hin.
Qed.

Lemma run_pin_events_wf (events : list PinEvent) (sv : PinServer) :
  server_wf sv -> server_wf (run_pin_events events sv).
Proof.
  revert sv. induction events as [| e events IH]; intros sv H; [exact H |].
  cbn. apply IH, pin_step_wf, H.
Qed.

Lemma handle_uninterrupted_eq (s : Session) (client : Client)
    (req : PinRequest) (sv : PinServer) :
  handle_uninterrupted s client req sv
  = match pin_message_begin s req (pin_store sv) with
    | (PinAnswered response, st) =>
        mkPinServer st (pin_pending sv) (pin_answers sv ++ [response])
    | (PinSuspended k, st) =>
        let '(response, st') := pin_message_resume client k st in
        mkPinServer st' (pin_pending sv) (pin_answers sv ++ [response])
    end.
Proof.
  unfold handle_uninterrupted, run_pin_events. cbn [foldl].
  unfold pin_step at 2.
  destruct (pin_message_begin s req (pin_store sv)) as [[r | k] st'];
    unfold pin_step; cbn [pin_pending pin_store pin_answers].
  - rewrite lookup_ge_None_2 by lia. reflexivity.
  - rewrite list_lookup_middle by reflexivity.
    destruct (pin_message_resume client k st') as [r st''].
    rewrite delete_middle, app_nil_r. reflexivity.
Qed.

(** On the server, a request handled with no other handler in between is
    answered as [pin_message] answers it and leaves the lists [pin_message]
    leaves; the requests that wait stay as they were. *)
Lemma handle_uninterrupted_is_pin_message (s : Session) (client : Client)
    (req : PinRequest) (sv : PinServer)
    (pm : gmap string (list PinnedMessage)) :
  server_wf sv ->
  (forall c, stored c (pin_store sv) = pinned_of c pm) ->
  pin_pending (handle_uninterrupted s client req sv) = pin_pending sv
  /\ pin_answers (handle_uninterrupted s client req sv)
     = pin_answers sv ++ [fst (pin_message s client req pm)]
  /\ forall c, stored c (pin_store (handle_uninterrupted s client req sv))
               = pinned_of c (snd (pin_message s client req pm)).
Proof.
  intros (owner & Ho & _) H.
  pose proof (begin_resume_is_pin_message owner s client req _ pm Ho H)
    as Href.
  rewrite handle_uninterrupted_eq.
  destruct (pin_message_begin s req (pin_store sv)) as [[r | k] st'].
  - destruct Href as [-> Hst]. cbn. auto.
  - destruct (pin_message_resume client k st') as [r st''].
    destruct Href as [Hr Hst]. cbn in *. rewrite Hr. auto.
Qed.

Lemma handle_uninterrupted_wf (s : Session) (client : Client)
    (req : PinRequest) (sv : PinServer) :
  server_wf sv -> server_wf (handle_uninterrupted s client req sv).
Proof. apply run_pin_events_wf. Qed.

(** Requests handled in turn on the server leave the lists that [run_pins]
    computes. *)
Lemma in_turn_is_run_pins (steps : list PinStep) (sv : PinServer)
    (pm : gmap string (list PinnedMessage)) :
  server_wf sv ->
  (forall c, stored c (pin_store sv) = pinned_of c pm) ->
  forall c, stored c (pin_store (in_turn steps sv))
            = pinned_of c (run_pins steps pm).
Proof.
  revert sv pm. induction steps as [| st steps IH]; intros sv pm Hwf H;
    [exact H |].
  cbn. apply IH; [apply handle_uninterrupted_wf, Hwf |].
  apply handle_uninterrupted_is_pin_message; assumption.
Qed.

(** When every request is answered before the next arrives, no chat's
    pinned list ever holds two entries of one message id. *)
Lemma pins_in_turn_never_duplicate (steps : list PinStep) (c : string) :
  NoDup (pin_id <$> stored c (pin_store (in_turn steps no_pins))).
Proof.
  rewrite (in_turn_is_run_pins steps no_pins ∅ no_pins_wf).
  - apply run_pins_never_duplicates.
  - intros c'. reflexivity.
Qed.

(** C10 fails for pin requests that overlap.  A second pin request for the
    same chat and message id arrives while the first waits for the client:
    it passes the duplicate check of line 1541 as the first did, and after
    the client's answers both push on the array they share (line 1557).
    The chat's pinned list, empty at start, ends with the id twice, and the
    second answer shows it; handled in turn, the same two requests leave
    the id once. *)
Theorem overlapping_pins_duplicate_id :
  let client := only_chat "c" (recent_chat [text_msg "m1" 1] NewestFirst) in
  let req := mkPinRequest (Some "c") (Some "m1") (Some "pin") in
  let pinned := to_pinned (text_msg "m1" 1) in
  let overlapped :=
    run_pin_events
      [PinArrives ready_session req; PinArrives ready_session req;
       PinResumes 0 client; PinResumes 0 client] no_pins in
  let one_by_one :=
    in_turn [mkPinStep ready_session client req;
             mkPinStep ready_session client req] no_pins in
  stored "c" (pin_store overlapped) = [pinned; pinned]
  /\ ~ NoDup (pin_id <$> stored "c" (pin_store overlapped))
  /\ pin_pending overlapped = []
  /\ pin_answers overlapped
     = [PinOk [pinned] "Message pined successfully";
        PinOk [pinned; pinned] "Message pined successfully"]
  /\ stored "c" (pin_store one_by_one) = [pinned].
Proof.
  vm_compute. repeat split.
  intros H. apply NoDup_cons in H as [H _]. apply H. left.
Qed.

(** ** Pin followed by unpin *)

(** C7 (as amended): when the message id is not pinned in the chat, a pin
    request followed by an unpin request for it leaves every chat's pinned
    list as it was before the pin. *)
Theorem pin_then_unpin_restores (s1 s2 : Session) (client1 client2 : Client)
    (chatId messageId : string) (pm : gmap string (list PinnedMessage))
    (c : string) :
  isReady s2 = true -> isAuthenticated s2 = true ->
  chatId <> "" -> messageId <> "" ->
  is_pinned messageId (pinned_of chatId pm) = false ->
  let pinned1 :=
    snd (pin_message s1 client1
           (mkPinRequest (Some chatId) (Some messageId) (Some "pin")) pm) in
  let pinned2 :=
    snd (pin_message s2 client2
           (mkPinRequest (Some chatId) (Some messageId) (Some "unpin"))
           pinned1) in
  get_pinned_messages c pinned2 = get_pinned_messages c pm.
Proof.
  intros Hr Ha Hc Hm Hnew pinned1 pinned2. unfold get_pinned_messages.
  assert (H1 : pinned_of c pinned1 = pinned_of c pm
               \/ (c = chatId /\ exists x, pin_id x = messageId
                   /\ pinned_of c pinned1 = pinned_of c pm ++ [x])).
  { subst pinned1. unfold pin_message.
    destruct (negb (isReady s1) || negb (isAuthenticated s1));
      [left; reflexivity |].
    cbn [pin_chatId pin_messageId pin_action].
    destruct (_ || _); [left; reflexivity |].
    cbn [String.eqb Ascii.eqb Bool.eqb].
    rewrite (pinned_of_ensure chatId chatId), Hnew.
    destruct (client1 chatId) as [[chat |] | e];
      try (left; cbn; apply pinned_of_ensure).
    destruct (chat (JS.Num 100)) as [messages | e];
      [| left; cbn; apply pinned_of_ensure].
    destruct (List.find (has_id messageId) messages) as [message |] eqn:Efind;
      [| left; cbn; apply pinned_of_ensure].
    cbn [pin_ok snd]. rewrite pinned_of_insert.
    destruct (decide (chatId = c)) as [<- |];
      [| left; apply pinned_of_ensure].
    right. split; [reflexivity |].
    exists (to_pinned message). split; [eapply find_has_id; exact Efind |].
    reflexivity. }
  assert (H2 : pinned_of c pinned2
               = if decide (chatId = c)
                 then List.filter
                        (fun p => negb (String.eqb (pin_id p) messageId))
                        (pinned_of c pinned1)
                 else pinned_of c pinned1).
  { subst pinned2. unfold pin_message. rewrite Hr, Ha.
    cbn [negb orb pin_chatId pin_messageId pin_action].
    apply String.eqb_neq in Hc, Hm. rewrite Hc, Hm.
    cbn [String.eqb Ascii.eqb Bool.eqb orb pin_ok snd].
    rewrite pinned_of_insert.
    destruct (decide (chatId = c)) as [<- |];
      rewrite pinned_of_ensure; reflexivity. }
  rewrite H2. destruct (decide (chatId = c)) as [<- |].
  - destruct H1 as [-> | (_ & x & Hx & ->)].
    + apply filter_others_id. exact Hnew.
    + apply filter_others_pushed; assumption.
  - destruct H1 as [-> | (-> & _)]; [reflexivity | congruence].
Qed.

Lemma pin_then_unpin_restores_witness :
  let client := only_chat "c" (recent_chat [text_msg "m1" 1] NewestFirst) in
  get_pinned_messages "c"
    (snd (pin_message ready_session client
            (mkPinRequest (Some "c") (Some "m1") (Some "unpin"))
            (snd (pin_message ready_session client
                    (mkPinRequest (Some "c") (Some "m1") (Some "pin")) ∅))))
  = get_pinned_messages "c" ∅.
Proof.
  apply (pin_then_unpin_restores ready_session ready_session
           (only_chat "c" (recent_chat [text_msg "m1" 1] NewestFirst))
           (only_chat "c" (recent_chat [text_msg "m1" 1] NewestFirst))
           "c" "m1" ∅ "c");
    try reflexivity; discriminate.
Defined.

(** C7 (as stated) fails when the message is pinned already: the pin
    request changes nothing, the unpin request removes the entry, and the
    chat's pinned list ends empty instead of holding the message. *)
Lemma pin_then_unpin_drops_earlier_pin :
  let client := only_chat "c" (recent_chat [text_msg "m1" 1] NewestFirst) in
  let before : gmap string (list PinnedMessage) :=
    {[ "c" := [to_pinned (text_msg "m1" 1)] ]} in
  let pinned1 :=
    snd (pin_message ready_session client
           (mkPinRequest (Some "c") (Some "m1") (Some "pin")) before) in
  let pinned2 :=
    snd (pin_message ready_session client
           (mkPinRequest (Some "c") (Some "m1") (Some "unpin")) pinned1) in
  get_pinned_messages "c" before = [to_pinned (text_msg "m1" 1)]
  /\ get_pinned_messages "c" pinned1 = [to_pinned (text_msg "m1" 1)]
  /\ get_pinned_messages "c" pinned2 = []
  /\ get_pinned_messages "c" pinned2 <> get_pinned_messages "c" before.
Proof.
  repeat split. vm_compute. discriminate.
Qed.

(** ** Outbound send pipeline *)

Lemma validate_audio_short (clean : option string) :
  (forall c, clean = Some c -> JS.len c < 100) ->
  exists e, validate_audio clean = Throws e.
Proof.
  intros H. unfold validate_audio. destruct clean as [c |]; [| eauto].
  specialize (H c eq_refl).
  destruct (JS.len c =? 0); [eauto |].
  destruct (looks_base64 c); cbn [negb]; [| eauto].
  test_true (JS.len c <? 100).
  eauto.
Qed.

Lemma truthy_Some (x : string) : x <> "" -> JS.truthy (Some x) = true.
Proof. intros H. apply String.eqb_neq in H. cbn. rewrite H. reflexivity. Qed.

Lemma or_else_Some (x d : string) : x <> "" -> JS.or_else (Some x) d = x.
Proof. intros H. apply String.eqb_neq in H. cbn. rewrite H. reflexivity. Qed.

(** C3 (as amended): a voice-note request whose cleaned payload is shorter
    than 100 characters is answered with an error (never a success) and
    without any send; its status is 400, 413 or 500, and it is 500, with
    the error "Failed to send message", once the session checks pass, a
    number is given and the raw payload is within 10 MB. *)
Theorem short_voice_payload_rejected
    (sendMessage : nat -> SendCall -> Outcome)
    (reencode_base64 : string -> string)
    (s : Session) (req : SendRequest) (audioData : string) :
  req_isVoiceMessage req = true ->
  req_audioData req = Some audioData -> audioData <> "" ->
  (forall c, cleanAudioData audioData = Some c -> JS.len c < 100) ->
  let result := send_message sendMessage reencode_base64 s req [] in
  calls_of result = []
  /\ res_success (response_of result) = None
  /\ (res_status (response_of result) = 400
      \/ res_status (response_of result) = 413
      \/ res_status (response_of result) = 500)
  /\ (clientExists s = true -> isReady s = true -> isAuthenticated s = true ->
      clientState s = "READY" \/ clientState s = "" ->
      JS.truthy (req_number req) = true ->
      JS.len audioData <= 10 * 1024 * 1024 ->
      response_of result = error_response 500 "Failed to send message").
Proof.
  intros Hv Ha Hne Hshort result. subst result.
  destruct (validate_audio_short _ Hshort) as [e He].
  unfold send_message.
  destruct (clientExists s) eqn:Ec; cbn [negb];
    [| repeat split; auto; discriminate].
  destruct (isReady s) eqn:Er; cbn [negb orb];
    [| repeat split; auto; discriminate].
  destruct (isAuthenticated s) eqn:Eauth; cbn [negb orb];
    [| repeat split; auto; discriminate].
  rewrite Ha, (truthy_Some _ Hne), Hv. cbn [negb].
  rewrite andb_false_r, orb_false_r. cbn [andb].
  destruct (JS.truthy (req_number req)) eqn:En; cbn [negb];
    [| repeat split; auto; discriminate].
  rewrite (or_else_Some _ _ Hne).
  unfold voice_path. rewrite Ec, Er, Eauth. cbn [negb orb andb].
  destruct (String.eqb (clientState s) "") eqn:E0; cbn [negb andb].
  - destruct (10 * 1024 * 1024 <? JS.len audioData) eqn:Ebig.
    + repeat split; auto. intros. apply Z.ltb_lt in Ebig. lia.
    + rewrite He. repeat split; auto.
  - destruct (String.eqb (clientState s) "READY") eqn:E1; cbn [negb].
    + destruct (10 * 1024 * 1024 <? JS.len audioData) eqn:Ebig.
      * repeat split; auto. intros. apply Z.ltb_lt in Ebig. lia.
      * rewrite He. repeat split; auto.
    + repeat split; auto.
      intros _ _ _ [H | H] _ _; rewrite H in *; discriminate.
Qed.

Lemma short_voice_payload_rejected_witness :
  let result :=
    send_message (delivers_from 0) id ready_session (voice_request "AAAA") [] in
  calls_of result = []
  /\ res_success (response_of result) = None
  /\ (res_status (response_of result) = 400
      \/ res_status (response_of result) = 413
      \/ res_status (response_of result) = 500)
  /\ (clientExists ready_session = true -> isReady ready_session = true ->
      isAuthenticated ready_session = true ->
      clientState ready_session = "READY" \/ clientState ready_session = "" ->
      JS.truthy (req_number (voice_request "AAAA")) = true ->
      JS.len "AAAA" <= 10 * 1024 * 1024 ->
      response_of result = error_response 500 "Failed to send message").
Proof.
  apply (short_voice_payload_rejected (delivers_from 0) id ready_session
           (voice_request "AAAA") "AAAA"); try reflexivity.
  - discriminate.
  - intros c [= <-]. vm_compute. reflexivity.
Defined.

(** C3 (as stated) fails on the status: with a ready session, the 4
    character payload AAAA is rejected without any send, but with status
    500, not 400. *)
Lemma short_voice_payload_status_500 :
  let result :=
    send_message (delivers_from 0) id ready_session (voice_request "AAAA") [] in
  JS.len "AAAA" < 100
  /\ calls_of result = []
  /\ res_status (response_of result) = 500
  /\ res_status (response_of result) <> 400.
Proof.
  repeat split. vm_compute. discriminate.
Qed.

Lemma validate_audio_nonempty (audioData data : string) :
  validate_audio (cleanAudioData audioData) = Returns data -> audioData <> "".
Proof. intros H ->. vm_compute in H. discriminate. Qed.

(** What the voice path answers once the checks have passed: the chain of
    attempts on the validated payload. *)
Lemma send_message_voice_checked
    (sendMessage : nat -> SendCall -> Outcome)
    (reencode_base64 : string -> string)
    (s : Session) (req : SendRequest) (number audioData data : string) :
  clientExists s = true -> isReady s = true -> isAuthenticated s = true ->
  clientState s = "READY" \/ clientState s = "" ->
  req_number req = Some number -> number <> "" ->
  req_isVoiceMessage req = true -> req_audioData req = Some audioData ->
  JS.len audioData <= 10 * 1024 * 1024 ->
  validate_audio (cleanAudioData audioData) = Returns data ->
  let formattedNumber :=
    if JS.includes number "@c.us" then number else number +:+ "@c.us" in
  let cleanMime := cleanMimeType (req_mimeType req) in
  let mime := optimizedMimeType cleanMime data in
  let extension := fileExtension cleanMime in
  let delivery :=
    deliver_voice sendMessage reencode_base64 formattedNumber
      (voice_media mime data extension) mime extension data [] in
  response_of (send_message sendMessage reencode_base64 s req [])
  = fst delivery
  /\ calls_of (send_message sendMessage reencode_base64 s req [])
     = snd delivery.
Proof.
  intros Hc Hr Ha Hst Hn Hne Hv Haud Hlen Hval.
  pose proof (validate_audio_nonempty _ _ Hval) as Hane.
  unfold send_message. rewrite Hc, Hr, Ha, Hn, Haud, Hv.
  rewrite (truthy_Some _ Hne), (truthy_Some _ Hane),
    (or_else_Some _ _ Hne), (or_else_Some _ _ Hane).
  cbn [negb orb andb]. rewrite andb_false_r. cbn [andb].
  unfold voice_path. rewrite Hc, Hr, Ha. cbn [negb orb andb].
  replace (negb (String.eqb (clientState s) "")
           && negb (String.eqb (clientState s) "READY")) with false
    by (destruct Hst as [-> | ->]; reflexivity).
  test_false (10 * 1024 * 1024 <? JS.len audioData).
  rewrite Hval. unfold bind, ret, response_of, calls_of.
  destruct (deliver_voice _ _ _ _ _ _ _ _) as [r calls]. split; reflexivity.
Qed.

(** C2 (as amended): in a voice-note send that passes the checks, when the
    voice attempt and the audio attempt are rejected and the document
    attempt is delivered, three sends are made, the third being the
    document, and the response reports success with the method indicator
    "voice message", the very response given when the first attempt is
    delivered. *)
Theorem document_tier_reports_voice_message
    (sendMessage : nat -> SendCall -> Outcome)
    (reencode_base64 : string -> string)
    (s : Session) (req : SendRequest) (number audioData data : string) :
  clientExists s = true -> isReady s = true -> isAuthenticated s = true ->
  clientState s = "READY" \/ clientState s = "" ->
  req_number req = Some number -> number <> "" ->
  req_isVoiceMessage req = true -> req_audioData req = Some audioData ->
  JS.len audioData <= 10 * 1024 * 1024 ->
  validate_audio (cleanAudioData audioData) = Returns data ->
  (forall c, sendMessage 0%nat c <> Delivered) ->
  (forall c, sendMessage 1%nat c <> Delivered) ->
  (forall c, sendMessage 2%nat c = Delivered) ->
  let result := send_message sendMessage reencode_base64 s req [] in
  response_of result
  = mkSendResponse 200 (Some true) (Some "Voice message sent successfully")
      (Some "voice message") None
  /\ (exists voice audio to filename,
         calls_of result
         = [voice; audio;
            mkSendCall to
              (MediaContent
                 (mkMessageMedia "application/octet-stream" data filename))
              NoOptions])
  /\ response_of result
     = response_of
         (send_message (delivers_from 0) reencode_base64 s req []).
Proof.
  intros Hc Hr Ha Hst Hn Hne Hv Haud Hlen Hval H0 H1 H2 result. subst result.
  destruct (send_message_voice_checked sendMessage reencode_base64 s req
              number audioData data) as [-> ->]; try assumption.
  destruct (send_message_voice_checked (delivers_from 0) reencode_base64 s req
              number audioData data) as [-> _]; try assumption.
  unfold deliver_voice, or_fallback, bind, send, ret. cbn [length app].
  destruct (sendMessage 0%nat _) eqn:E0; [exfalso; eapply H0; exact E0 |].
  cbn [length app].
  destruct (sendMessage 1%nat _) eqn:E1; [exfalso; eapply H1; exact E1 |].
  cbn [length app]. rewrite H2. cbn [fst snd delivers_from Nat.ltb Nat.leb].
  repeat split. eauto.
Qed.

Lemma document_tier_reports_voice_message_witness :
  let result :=
    send_message (delivers_from 2) id ready_session
      (voice_request payload100) [] in
  response_of result
  = mkSendResponse 200 (Some true) (Some "Voice message sent successfully")
      (Some "voice message") None
  /\ (exists voice audio to filename,
         calls_of result
         = [voice; audio;
            mkSendCall to
              (MediaContent
                 (mkMessageMedia "application/octet-stream" payload100
                    filename))
              NoOptions])
  /\ response_of result
     = response_of
         (send_message (delivers_from 0) id ready_session
            (voice_request payload100) []).
Proof.
  apply (document_tier_reports_voice_message (delivers_from 2) id
           ready_session (voice_request payload100)
           "15551234567" payload100 payload100);
    try reflexivity.
  - left. reflexivity.
  - discriminate.
  - vm_compute. discriminate.
  - intros c. discriminate.
  - intros c. discriminate.
Defined.

(** C2 (as stated) fails: the response of a send that succeeded at the
    document attempt (after three sends) carries the method indicator
    "voice message" and is equal to the response of a send that succeeded
    at the first, voice, attempt; the indicator does not tell the tiers
    apart. *)
Lemma document_tier_not_identified :
  let document_run :=
    send_message (delivers_from 2) id ready_session
      (voice_request payload100) [] in
  let voice_run :=
    send_message (delivers_from 0) id ready_session
      (voice_request payload100) [] in
  length (calls_of document_run) = 3%nat
  /\ length (calls_of voice_run) = 1%nat
  /\ res_method (response_of document_run) = Some "voice message"
  /\ ~ res_method (response_of document_run)
       <> res_method (response_of voice_run).
Proof.
  repeat split. intros H. apply H. reflexivity.
Qed.

(** * Further properties of the handlers *)

(** ** Session and fan-out *)

(** Every request handler refuses a session that lacks one of its two
    flags, before any call into the client. *)
Lemma handlers_refuse_closed_session (s : Session) :
  isReady s = false \/ isAuthenticated s = false ->
  (forall sendMessage reencode req,
      let result := send_message sendMessage reencode s req [] in
      res_status (response_of result) = 400
      /\ calls_of result = [] /\ snd (fst result) = s)
  /\ (forall client chatId beforeId limit,
         exists e, chat_messages s client chatId beforeId limit
                   = PagerError 400 e)
  /\ (forall client req pm,
         exists e, pin_message s client req pm = (PinError 400 e, pm))
  /\ (forall getContacts, exists e, get_contacts s getContacts
                                    = ContactsError 400 e)
  /\ (forall toLocaleString getChats,
         exists e, get_chats toLocaleString s getChats = ChatsError 400 e)
  /\ (forall client chatId, exists e, chat_media s client chatId
                                      = MediaError 400 e)
  /\ (forall sendSeen chatId,
         exists e, mark_chat_seen s sendSeen chatId = SeenError 503 e).
Proof.
  intros H.
  assert (G : negb (isReady s) || negb (isAuthenticated s) = true)
    by (destruct H as [-> | ->]; [reflexivity | apply orb_true_r]).
  repeat split.
  - unfold send_message. destruct (clientExists s); cbn [negb];
      [rewrite G |]; reflexivity.
  - unfold send_message. destruct (clientExists s); cbn [negb];
      [rewrite G |]; reflexivity.
  - unfold send_message. destruct (clientExists s); cbn [negb];
      [rewrite G |]; reflexivity.
  - intros. unfold chat_messages. rewrite G. eauto.
  - intros. unfold pin_message. rewrite G. eauto.
  - intros. unfold get_contacts. rewrite G. eauto.
  - intros. unfold get_chats. rewrite G. eauto.
  - intros. unfold chat_media. rewrite G. eauto.
  - intros. unfold mark_chat_seen. rewrite G. eauto.
Qed.

Lemma closes_session_flags (e : ClientEvent) (s : Session) :
  closes_session e = true ->
  isReady (fst (handle_event e s)) = false
  /\ isAuthenticated (fst (handle_event e s)) = false.
Proof.
  destruct e as [d | | m | | r | state | pc msg]; cbn; try discriminate;
    try (split; reflexivity).
  intros H. destruct (String.eqb state "READY") eqn:E.
  - apply String.eqb_eq in E. subst state. discriminate.
  - rewrite H. split; reflexivity.
Qed.

(** X1: after a [qr], [auth_failure] or [disconnected] event, or a
    [change_state] to CONFLICT or UNLAUNCHED, and whatever the session was
    before, every request handler refuses the request: the send handler
    answers 400 without any send and without touching the session, the
    pager, pin, contacts, chats and media handlers answer 400 (the pin map
    is unchanged), and mark-chat-seen answers 503. *)
Theorem closed_session_refuses_requests (e : ClientEvent) (s : Session) :
  closes_session e = true ->
  let s' := fst (handle_event e s) in
  (forall sendMessage reencode req,
      let result := send_message sendMessage reencode s' req [] in
      res_status (response_of result) = 400
      /\ calls_of result = [] /\ snd (fst result) = s')
  /\ (forall client chatId beforeId limit,
         exists e, chat_messages s' client chatId beforeId limit
                   = PagerError 400 e)
  /\ (forall client req pm,
         exists e, pin_message s' client req pm = (PinError 400 e, pm))
  /\ (forall getContacts, exists e, get_contacts s' getContacts
                                    = ContactsError 400 e)
  /\ (forall toLocaleString getChats,
         exists e, get_chats toLocaleString s' getChats = ChatsError 400 e)
  /\ (forall client chatId, exists e, chat_media s' client chatId
                                      = MediaError 400 e)
  /\ (forall sendSeen chatId,
         exists e, mark_chat_seen s' sendSeen chatId = SeenError 503 e).
Proof.
  intros H s'. apply handlers_refuse_closed_session.
  left. apply (closes_session_flags e s H).
Qed.

Lemma closed_session_refuses_requests_witness :
  let s' := fst (handle_event (OnDisconnected "NAVIGATION") ready_session) in
  (forall sendMessage reencode req,
      let result := send_message sendMessage reencode s' req [] in
      res_status (response_of result) = 400
      /\ calls_of result = [] /\ snd (fst result) = s')
  /\ (forall client chatId beforeId limit,
         exists e, chat_messages s' client chatId beforeId limit
                   = PagerError 400 e)
  /\ (forall client req pm,
         exists e, pin_message s' client req pm = (PinError 400 e, pm))
  /\ (forall getContacts, exists e, get_contacts s' getContacts
                                    = ContactsError 400 e)
  /\ (forall toLocaleString getChats,
         exists e, get_chats toLocaleString s' getChats = ChatsError 400 e)
  /\ (forall client chatId, exists e, chat_media s' client chatId
                                      = MediaError 400 e)
  /\ (forall sendSeen chatId,
         exists e, mark_chat_seen s' sendSeen chatId = SeenError 503 e).
Proof.
  exact (closed_session_refuses_requests (OnDisconnected "NAVIGATION")
           ready_session eq_refl).
Defined.

Lemma run_events_app (es1 es2 : list ClientEvent) (s : Session) :
  run_events (es1 ++ es2) s
  = let '(s1, emitted1) := run_events es1 s in
    let '(s2, emitted2) := run_events es2 s1 in
    (s2, emitted1 ++ emitted2).
Proof.
  revert s. induction es1 as [| e es1 IH]; intros s; cbn.
  - destruct (run_events es2 s). reflexivity.
  - destruct (handle_event e s) as [s1 o1]. rewrite IH.
    destruct (run_events es1 s1) as [s2 o2].
    destruct (run_events es2 s2) as [s3 o3]. rewrite app_assoc. reflexivity.
Qed.

Lemma last_filter_app {A} (f : A -> bool) (l1 l2 : list A) :
  last (List.filter f (l1 ++ l2))
  = match last (List.filter f l2) with
    | Some x => Some x
    | None => last (List.filter f l1)
    end.
Proof.
  rewrite List.filter_app.
  destruct (List.filter f l2) as [| x l] using rev_ind.
  - rewrite app_nil_r. reflexivity.
  - rewrite app_assoc, !last_snoc. reflexivity.
Qed.

(** X2: after any run of lifecycle events, a socket that connects is sent
    first the very status that was last pushed to the connected sockets,
    and the QR payload kept in the session is the one last pushed. *)
Theorem connection_replays_last_push (events : list ClientEvent) (s : Session) :
  let '(s', emitted) := run_events events s in
  match last_status emitted with
  | Some status => head (on_connection s') = Some status
  | None => s' = s
  end
  /\ match last_qr emitted with
     | Some pushed => pushed = EmitQr (qrCodeData s')
     | None => qrCodeData s' = qrCodeData s
     end.
Proof.
  induction events as [| e events IH] using rev_ind.
  - cbn. split; reflexivity.
  - rewrite run_events_app. destruct (run_events events s) as [s1 o1].
    cbn [run_events]. destruct (handle_event e s1) as [s2 o2] eqn:E.
    rewrite app_nil_r. unfold last_status, last_qr in *.
    rewrite !last_filter_app. destruct IH as [IH1 IH2].
    destruct e; cbn in E; injection E as <- <-; cbn; try (split; auto; fail).
    split; [reflexivity |].
    destruct (String.eqb state "READY"); [| destruct (_ || _)]; cbn;
      destruct (last (List.filter is_qr o1)); assumption.
Qed.

(** X3: a QR code is never pending in an authenticated session: when this
    holds of a session, it holds after any run of lifecycle events. *)
Theorem qr_pending_never_authenticated (events : list ClientEvent)
    (s : Session) :
  qrCodeData s = None \/ isAuthenticated s = false ->
  let s' := fst (run_events events s) in
  qrCodeData s' = None \/ isAuthenticated s' = false.
Proof.
  revert s. induction events as [| e events IH]; intros s H; [exact H |].
  cbn. destruct (handle_event e s) as [s1 o1] eqn:E.
  specialize (IH s1). destruct (run_events events s1) as [s2 o2]. cbn in *.
  apply IH. clear IH.
  destruct e; cbn in E; injection E as <- _; cbn; auto.
  unfold on_change_state. cbn.
  destruct (String.eqb state "READY"); [| destruct (_ || _)]; cbn; auto.
Qed.

Lemma qr_pending_never_authenticated_witness :
  let s' :=
    fst (run_events [OnQr "data:image/png;base64,AAAA"; OnChangeState "READY";
                     OnAuthenticated; OnReady]
           (mkSession true None false false "INITIALIZING")) in
  qrCodeData s' = None \/ isAuthenticated s' = false.
Proof.
  apply (qr_pending_never_authenticated
           [OnQr "data:image/png;base64,AAAA"; OnChangeState "READY";
            OnAuthenticated; OnReady]
           (mkSession true None false false "INITIALIZING")).
  left. reflexivity.
Defined.

(** ** Send pipeline *)

Ltac split_sends sendMessage :=
  repeat (cbn [length app];
          match goal with
          | |- context [sendMessage ?n ?c] =>
              let E := fresh "E" in destruct (sendMessage n c) eqn:E
          end).

(** The chain of the voice path, from the empty list of sends. *)
Lemma deliver_voice_shape (sendMessage : nat -> SendCall -> Outcome)
    (reencode_base64 : string -> string) (to : string) (media : MessageMedia)
    (mime extension data : string) :
  let result :=
    deliver_voice sendMessage reencode_base64 to media mime extension data []
  in
  (1 <= length (snd result) <= 6)%nat
  /\ Forall (fun c => call_to c = to) (snd result)
  /\ (forall i c, (S i < length (snd result))%nat ->
                  snd result !! i = Some c -> sendMessage i c <> Delivered)
  /\ match last (snd result) with
     | Some c =>
         match sendMessage (length (snd result) - 1)%nat c with
         | Delivered =>
             res_status (fst result) = 200
             /\ res_success (fst result) = Some true
             /\ res_method (fst result)
                = Some (if (length (snd result) =? 6)%nat
                        then "fallback notification" else "voice message")
         | Rejected e =>
             length (snd result) = 6%nat
             /\ fst result = exhausted_response e
         end
     | None => False
     end.
Proof.
  unfold deliver_voice, or_fallback, bind, send, ret. cbn [length app].
  split_sends sendMessage; cbn [fst snd length app last].
  all: repeat split; try lia; try (repeat constructor; fail).
  all: try (intros i c Hi Hc;
            do 6 (try (destruct i as [| i]; cbn in Hc;
                       [injection Hc as <-; congruence |]));
            cbn in Hi; lia).
  all: cbn [Nat.sub];
    repeat match goal with
           | E : _ = Delivered |- _ => rewrite E; clear E
           | E : _ = Rejected _ |- _ => rewrite E; clear E
           end; auto.
Qed.

(** X4: a voice-note send that passes the checks makes between one and
    six sends and stops at the first one that is delivered: every send
    but the last was rejected; when the last one is delivered the answer
    is a success (with the method "fallback notification" when it is the
    sixth, the failure notice, and "voice message" otherwise); when the
    sixth is rejected too, the answer is 500 with the error of that last
    send. *)
Theorem voice_send_stops_at_first_delivery
    (sendMessage : nat -> SendCall -> Outcome)
    (reencode_base64 : string -> string)
    (s : Session) (req : SendRequest) (number audioData data : string) :
  clientExists s = true -> isReady s = true -> isAuthenticated s = true ->
  clientState s = "READY" \/ clientState s = "" ->
  req_number req = Some number -> number <> "" ->
  req_isVoiceMessage req = true -> req_audioData req = Some audioData ->
  JS.len audioData <= 10 * 1024 * 1024 ->
  validate_audio (cleanAudioData audioData) = Returns data ->
  let result := send_message sendMessage reencode_base64 s req [] in
  (1 <= length (calls_of result) <= 6)%nat
  /\ (forall i c, (S i < length (calls_of result))%nat ->
                  calls_of result !! i = Some c ->
                  sendMessage i c <> Delivered)
  /\ match last (calls_of result) with
     | Some c =>
         match sendMessage (length (calls_of result) - 1)%nat c with
         | Delivered =>
             res_status (response_of result) = 200
             /\ res_success (response_of result) = Some true
             /\ res_method (response_of result)
                = Some (if (length (calls_of result) =? 6)%nat
                        then "fallback notification" else "voice message")
         | Rejected e =>
             length (calls_of result) = 6%nat
             /\ response_of result = exhausted_response e
         end
     | None => False
     end.
Proof.
  intros Hc Hr Ha Hst Hn Hne Hv Haud Hlen Hval result. subst result.
  destruct (send_message_voice_checked sendMessage reencode_base64 s req
              number audioData data) as [-> ->]; try assumption.
  match goal with
  | |- context [deliver_voice ?f ?r ?to ?m ?mi ?ex ?d []] =>
      destruct (deliver_voice_shape f r to m mi ex d) as (H1 & _ & H2 & H3)
  end.
  repeat split; try apply H1; assumption.
Qed.

Lemma voice_send_stops_at_first_delivery_witness :
  let result :=
    send_message (delivers_from 4) id ready_session
      (voice_request payload100) [] in
  (1 <= length (calls_of result) <= 6)%nat
  /\ (forall i c, (S i < length (calls_of result))%nat ->
                  calls_of result !! i = Some c ->
                  delivers_from 4 i c <> Delivered)
  /\ match last (calls_of result) with
     | Some c =>
         match delivers_from 4 (length (calls_of result) - 1)%nat c with
         | Delivered =>
             res_status (response_of result) = 200
             /\ res_success (response_of result) = Some true
             /\ res_method (response_of result)
                = Some (if (length (calls_of result) =? 6)%nat
                        then "fallback notification" else "voice message")
         | Rejected e =>
             length (calls_of result) = 6%nat
             /\ response_of result = exhausted_response e
         end
     | None => False
     end.
Proof.
  apply (voice_send_stops_at_first_delivery (delivers_from 4) id
           ready_session (voice_request payload100)
           "15551234567" payload100 payload100);
    try reflexivity.
  - left. reflexivity.
  - discriminate.
  - vm_compute. discriminate.
Defined.

Lemma prefix_refl (s : string) : String.prefix s s = true.
Proof.
  induction s as [| c s IH]; [reflexivity |].
  cbn. destruct (ascii_dec c c); [exact IH | congruence].
Qed.

Lemma includes_suffix (a b : string) : JS.includes (a +:+ b) b = true.
Proof.
  induction a as [| c a IH].
  - change ("" +:+ b) with b.
    destruct b; cbn [JS.includes]; rewrite prefix_refl; reflexivity.
  - change (String c a +:+ b) with (String c (a +:+ b)).
    cbn [JS.includes]. rewrite IH. apply orb_true_r.
Qed.

(** The number a request is sent to. *)
Lemma formatted_number_includes_suffix (number : string) :
  JS.includes
    (if JS.includes number "@c.us" then number else number +:+ "@c.us")
    "@c.us" = true.
Proof.
  destruct (JS.includes number "@c.us") eqn:E; [exact E |].
  apply includes_suffix.
Qed.

(** X5: whatever the request and the client's answers, every send the
    handler makes is addressed to the requested number when it holds the
    suffix "@c.us", and to the number followed by that suffix otherwise;
    the address always holds the suffix. *)
Theorem sends_go_to_suffixed_number
    (sendMessage : nat -> SendCall -> Outcome)
    (reencode_base64 : string -> string)
    (s : Session) (req : SendRequest) :
  let number := JS.or_else (req_number req) "" in
  Forall (fun c =>
            call_to c
            = (if JS.includes number "@c.us" then number
               else number +:+ "@c.us")
            /\ JS.includes (call_to c) "@c.us" = true)
    (calls_of (send_message sendMessage reencode_base64 s req [])).
Proof.
  intros number.
  set (to := if JS.includes number "@c.us" then number else number +:+ "@c.us").
  assert (Hto : JS.includes to "@c.us" = true)
    by apply formatted_number_includes_suffix.
  unfold send_message. fold number. fold to.
  destruct (negb (clientExists s)); [constructor |].
  destruct (_ || _); [constructor |].
  destruct (_ || _); [constructor |].
  destruct (_ && _).
  - unfold voice_path.
    destruct (_ || _); [constructor |].
    destruct (_ && _); [constructor |].
    destruct (_ <? _); [constructor |].
    destruct (validate_audio _) as [data | e]; [| constructor].
    unfold bind, ret, calls_of.
    match goal with
    | |- context [deliver_voice ?f ?r ?t ?m ?mi ?ex ?d []] =>
        pose proof (deliver_voice_shape f r t m mi ex d) as (_ & H & _);
          destruct (deliver_voice f r t m mi ex d []) as [r0 calls]
    end.
    cbn [snd] in *. eapply Forall_impl; [exact H |].
    intros c ->. split; [reflexivity | exact Hto].
  - destruct (_ && _).
    + unfold attachment_path, bind, ret, send, calls_of.
      destruct (cleanAttachmentData _); [| constructor].
      destruct (_ || _); [constructor |].
      cbn [length app]. destruct (sendMessage 0%nat _); cbn;
        repeat constructor; assumption.
    + unfold text_path, bind, ret, send, calls_of. cbn [length app].
      destruct (sendMessage 0%nat _); cbn; repeat constructor; assumption.
Qed.

(** X7: a request that is not a voice note gets a single attempt: the
    handler makes at most one send, and it answers with a success exactly
    when it made a send and that send was delivered. *)
Theorem non_voice_send_single_attempt
    (sendMessage : nat -> SendCall -> Outcome)
    (reencode_base64 : string -> string)
    (s : Session) (req : SendRequest) :
  req_isVoiceMessage req = false ->
  let result := send_message sendMessage reencode_base64 s req [] in
  (length (calls_of result) <= 1)%nat
  /\ (res_success (response_of result) = Some true
      <-> exists c, calls_of result = [c] /\ sendMessage 0%nat c = Delivered).
Proof.
  intros Hv result. subst result. unfold send_message. rewrite Hv.
  cbn [andb].
  assert (No : forall (r : SendResponse * Session),
             res_success (fst r) = None ->
             (length (calls_of (ret r [])) <= 1)%nat
             /\ (res_success (response_of (ret r [])) = Some true
                 <-> exists c, calls_of (ret r []) = [c]
                               /\ sendMessage 0%nat c = Delivered)).
  { intros r Hr. unfold ret, calls_of, response_of. cbn [fst snd length].
    rewrite Hr. split; [lia |].
    split; [discriminate | intros (c & H & _); discriminate]. }
  destruct (negb (clientExists s)); [apply No; reflexivity |].
  destruct (_ || _); [apply No; reflexivity |].
  destruct (_ || _); [apply No; reflexivity |].
  destruct (_ && _).
  - unfold attachment_path, bind, ret, send, calls_of, response_of.
    destruct (cleanAttachmentData _); [| apply No; reflexivity].
    destruct (_ || _); [apply No; reflexivity |].
    cbn [length app]. destruct (sendMessage 0%nat _) eqn:E; cbn.
    + split; [lia |]. split; [eauto | reflexivity].
    + split; [lia |]. split; [discriminate |].
      intros (c & [= <-] & H). congruence.
  - unfold text_path, bind, ret, send, calls_of, response_of.
    cbn [length app]. destruct (sendMessage 0%nat _) eqn:E; cbn.
    + split; [lia |]. split; [eauto | reflexivity].
    + split; [lia |]. split; [discriminate |].
      intros (c & [= <-] & H). congruence.
Qed.

Lemma non_voice_send_single_attempt_witness :
  let req :=
    mkSendRequest (Some "15551234567") (Some "hi") None false None None None
      None None in
  let result := send_message (delivers_from 0) id ready_session req [] in
  (length (calls_of result) <= 1)%nat
  /\ (res_success (response_of result) = Some true
      <-> exists c, calls_of result = [c]
                    /\ delivers_from 0 0%nat c = Delivered).
Proof.
  apply (non_voice_send_single_attempt (delivers_from 0) id ready_session
           (mkSendRequest (Some "15551234567") (Some "hi") None false None
              None None None None)).
  reflexivity.
Defined.

Lemma upto_comma_length (s : string) :
  (String.length (JS.upto_comma s) <= String.length s)%nat.
Proof.
  induction s as [| c s IH]; cbn; [lia |].
  destruct (Ascii.eqb c ","); cbn; lia.
Qed.

Lemma split_comma_1_length (s d : string) :
  JS.split_comma_1 s = Some d -> (String.length d <= String.length s)%nat.
Proof.
  induction s as [| c s IH]; cbn; [discriminate |].
  destruct (Ascii.eqb c ",").
  - intros [= <-]. pose proof (upto_comma_length s). lia.
  - intros H. apply IH in H. lia.
Qed.

Lemma cleanAudioData_len (audioData data : string) :
  cleanAudioData audioData = Some data -> JS.len data <= JS.len audioData.
Proof.
  unfold cleanAudioData, JS.len.
  destruct (JS.startsWith audioData "data:").
  - intros H. apply split_comma_1_length in H. lia.
  - intros [= <-]. lia.
Qed.

Lemma validate_audio_Returns (clean : option string) (data : string) :
  validate_audio clean = Returns data ->
  clean = Some data /\ looks_base64 data = true /\ 100 <= JS.len data.
Proof.
  unfold validate_audio. destruct clean as [c |]; [| discriminate].
  destruct (JS.len c =? 0); [discriminate |].
  destruct (looks_base64 c) eqn:Eb; cbn [negb]; [| discriminate].
  destruct (JS.len c <? 100) eqn:E; [discriminate |].
  destruct (_ <? JS.len c); [discriminate |].
  destruct (decoded_length c =? 0); [discriminate |].
  intros [= <-]. apply Z.ltb_ge in E. repeat split; assumption.
Qed.

Lemma voice_media_data (mime data extension : string) :
  mm_data (voice_media mime data extension) = data.
Proof. unfold voice_media. destruct (_ || _); reflexivity. Qed.

Lemma deliver_voice_head (sendMessage : nat -> SendCall -> Outcome)
    (reencode_base64 : string -> string) (to : string) (media : MessageMedia)
    (mime extension data : string) :
  head (snd (deliver_voice sendMessage reencode_base64 to media mime
               extension data []))
  = Some (mkSendCall to (MediaContent media)
            (VoiceOptions mime ("voice-message." +:+ extension))).
Proof.
  unfold deliver_voice, or_fallback, bind, send, ret.
  split_sends sendMessage; reflexivity.
Qed.

(** X6: when the handler makes a send for a voice note, the payload it
    sends passed the validation: it is the cleaned payload of the request,
    it has the base64 shape, and its length lies between 100 characters
    and 10 MB; the first send carries it as media data. *)
Theorem voice_send_carries_validated_payload
    (sendMessage : nat -> SendCall -> Outcome)
    (reencode_base64 : string -> string)
    (s : Session) (req : SendRequest) (audioData : string) :
  req_isVoiceMessage req = true ->
  req_audioData req = Some audioData -> audioData <> "" ->
  calls_of (send_message sendMessage reencode_base64 s req []) <> [] ->
  exists data media first,
    cleanAudioData audioData = Some data
    /\ looks_base64 data = true
    /\ 100 <= JS.len data <= 10 * 1024 * 1024
    /\ head (calls_of (send_message sendMessage reencode_base64 s req []))
       = Some first
    /\ call_content first = MediaContent media
    /\ mm_data media = data.
Proof.
  intros Hv Ha Hne. unfold send_message.
  destruct (negb (clientExists s)); [intros H; exfalso; apply H; reflexivity |].
  destruct (_ || _); [intros H; exfalso; apply H; reflexivity |].
  destruct (_ || _); [intros H; exfalso; apply H; reflexivity |].
  rewrite Hv, Ha, (truthy_Some _ Hne), (or_else_Some _ _ Hne). cbn [andb].
  unfold voice_path.
  destruct (_ || _); [intros H; exfalso; apply H; reflexivity |].
  destruct (_ && _); [intros H; exfalso; apply H; reflexivity |].
  destruct (_ <? JS.len audioData) eqn:Ebig;
    [intros H; exfalso; apply H; reflexivity |].
  destruct (validate_audio (cleanAudioData audioData)) as [data | e] eqn:Eval;
    [| intros H; exfalso; apply H; reflexivity].
  intros _. apply validate_audio_Returns in Eval as (Hclean & Hb64 & Hmin).
  apply Z.ltb_ge in Ebig. pose proof (cleanAudioData_len _ _ Hclean) as Hle.
  exists data. eexists. eexists.
  repeat split; try eassumption; try lia.
  - unfold bind, ret, calls_of.
    match goal with
    | |- context [deliver_voice ?f ?r ?t ?m ?mi ?ex ?d []] =>
        pose proof (deliver_voice_head f r t m mi ex d) as Hh;
          destruct (deliver_voice f r t m mi ex d []) as [r0 calls]
    end.
    exact Hh.
  - reflexivity.
  - apply voice_media_data.
Qed.

Lemma voice_send_carries_validated_payload_witness :
  exists data media first,
    cleanAudioData payload100 = Some data
    /\ looks_base64 data = true
    /\ 100 <= JS.len data <= 10 * 1024 * 1024
    /\ head (calls_of (send_message (delivers_from 1) id ready_session
                         (voice_request payload100) []))
       = Some first
    /\ call_content first = MediaContent media
    /\ mm_data media = data.
Proof.
  apply (voice_send_carries_validated_payload (delivers_from 1) id
           ready_session (voice_request payload100) payload100);
    try reflexivity; discriminate.
Defined.

Lemma includes_comma_cons (c : ascii) (s : string) :
  JS.includes (String c s) "," = false ->
  Ascii.eqb c "," = false /\ JS.includes s "," = false.
Proof.
  cbn [JS.includes String.prefix]. intros H.
  apply orb_false_iff in H as [H1 H2]. split; [| exact H2].
  destruct (ascii_dec "," c) as [<- | N].
  - destruct s; discriminate.
  - apply Ascii.eqb_neq. congruence.
Qed.

Lemma upto_comma_no_comma (s : string) :
  JS.includes s "," = false -> JS.upto_comma s = s.
Proof.
  induction s as [| c s IH]; [reflexivity |].
  intros H. apply includes_comma_cons in H as [Hc Hs].
  cbn. rewrite Hc, IH by exact Hs. reflexivity.
Qed.

Lemma split_comma_1_skip (a rest : string) :
  JS.includes a "," = false ->
  JS.split_comma_1 (a +:+ rest) = JS.split_comma_1 rest.
Proof.
  induction a as [| c a IH]; [reflexivity |].
  intros H. apply includes_comma_cons in H as [Hc Ha].
  change (String c a +:+ rest) with (String c (a +:+ rest)).
  cbn [JS.split_comma_1]. rewrite Hc. apply IH. exact Ha.
Qed.

Lemma looks_base64_no_comma (s : string) :
  looks_base64 s = true -> JS.includes s "," = false.
Proof.
  unfold looks_base64. induction s as [| c s IH]; [reflexivity |].
  cbn [skip_base64]. destruct (isBase64Char c) eqn:Ec.
  - intros H. cbn [JS.includes String.prefix].
    rewrite (IH H), orb_false_r.
    destruct (ascii_dec "," c) as [<- | N]; [discriminate | reflexivity].
  - intros H. apply orb_true_iff in H as [H | H];
      [apply orb_true_iff in H as [H | H] |];
      apply String.eqb_eq in H; try discriminate;
      injection H as -> ->; reflexivity.
Qed.

Lemma strip_data_url (mimetype data : string) :
  JS.includes mimetype "," = false -> looks_base64 data = true ->
  (if JS.startsWith ("data:" +:+ mimetype +:+ ";base64," +:+ data) "data:"
   then JS.split_comma_1 ("data:" +:+ mimetype +:+ ";base64," +:+ data)
   else Some ("data:" +:+ mimetype +:+ ";base64," +:+ data))
  = Some data.
Proof.
  intros Hm Hd.
  replace (JS.startsWith ("data:" +:+ mimetype +:+ ";base64," +:+ data)
             "data:") with true.
  2:{ unfold JS.startsWith. cbn. destruct (mimetype +:+ _); reflexivity. }
  change ("data:" +:+ mimetype +:+ ";base64," +:+ data)
    with ("data:" +:+ (mimetype +:+ (";base64" +:+ String "," data))).
  rewrite (split_comma_1_skip "data:") by reflexivity.
  rewrite split_comma_1_skip by exact Hm.
  rewrite (split_comma_1_skip ";base64") by reflexivity.
  change (JS.split_comma_1 (String "," data)) with (Some (JS.upto_comma data)).
  rewrite upto_comma_no_comma by (apply looks_base64_no_comma, Hd).
  reflexivity.
Qed.

(** X8: the media URL under which a received message is pushed or listed
    gives back the downloaded base64 data when it is sent in again: for a
    download whose MIME type holds no comma and whose data has the base64
    shape, the voice path cleans the URL of a pushed voice or audio
    message, and the attachment path the URL of a listed image, to exactly
    the downloaded data. *)
Theorem received_media_url_cleans_to_data (toLocaleString : Z -> string)
    (incoming : IncomingMessage) (media : MediaData) :
  msg_download (in_msg incoming) = Returns (Some media) ->
  JS.includes (media_mimetype media) "," = false ->
  looks_base64 (media_data media) = true ->
  (forall url, md_mediaUrl (on_message toLocaleString incoming) = Some url ->
               cleanAudioData url = Some (media_data media))
  /\ (forall url, fm_mediaUrl (format_message (in_msg incoming)) = Some url ->
                  cleanAttachmentData url = Some (media_data media)).
Proof.
  intros Hd Hm Hb. split; intros url.
  - unfold on_message. cbn [md_mediaUrl]. rewrite Hd.
    destruct (_ && _); [| discriminate].
    destruct (negb _); [| discriminate].
    intros [= <-]. apply strip_data_url; assumption.
  - unfold format_message. cbn [fm_mediaUrl]. rewrite Hd.
    destruct (_ && _); [| discriminate].
    destruct (_ && _); [| discriminate].
    intros [= <-]. apply strip_data_url; assumption.
Qed.

Lemma received_media_url_cleans_to_data_witness :
  let media := mkMediaData "audio/ogg; codecs=opus" "T2dnUw==" in
  let incoming :=
    mkIncoming
      (mkMessage "m1" "" 7 false "15551234567@c.us" "me@c.us" true "ptt"
         (Returns (Some media))) None in
  (forall url, md_mediaUrl (on_message (fun _ => "") incoming) = Some url ->
               cleanAudioData url = Some "T2dnUw==")
  /\ (forall url, fm_mediaUrl (format_message (in_msg incoming)) = Some url ->
                  cleanAttachmentData url = Some "T2dnUw==").
Proof.
  apply (received_media_url_cleans_to_data (fun _ => "")
           (mkIncoming
              (mkMessage "m1" "" 7 false "15551234567@c.us" "me@c.us" true
                 "ptt"
                 (Returns
                    (Some (mkMediaData "audio/ogg; codecs=opus" "T2dnUw=="))))
              None)
           (mkMediaData "audio/ogg; codecs=opus" "T2dnUw=="));
    reflexivity.
Defined.

(** X9: the voice path asks more of the session than the text path.
    After a [change_state] to a state other than READY, CONFLICT and
    UNLAUNCHED (and not empty), in a session that was ready and
    authenticated, a voice note is refused with 400 and no send, while a
    text message to the same number is sent. *)
Theorem state_change_blocks_voice_not_text
    (sendMessage : nat -> SendCall -> Outcome)
    (reencode_base64 : string -> string)
    (s : Session) (state number audioData message : string)
    (mimeType : option string) :
  clientExists s = true -> isReady s = true -> isAuthenticated s = true ->
  state <> "" -> state <> "READY" ->
  state <> "CONFLICT" -> state <> "UNLAUNCHED" ->
  number <> "" -> audioData <> "" -> message <> "" ->
  let s' := fst (handle_event (OnChangeState state) s) in
  let voice :=
    send_message sendMessage reencode_base64 s'
      (mkSendRequest (Some number) None (Some audioData) true mimeType
         None None None None) [] in
  let text :=
    send_message sendMessage reencode_base64 s'
      (mkSendRequest (Some number) (Some message) None false None
         None None None None) [] in
  response_of voice
  = error_response 400
      ("WhatsApp client not in ready state. Current state: " +:+ state)
  /\ calls_of voice = []
  /\ exists to, calls_of text
                = [mkSendCall to (TextContent (Some message)) NoOptions].
Proof.
  intros Hc Hr Ha H0 H1 H2 H3 Hn Haud Hm s' voice text.
  apply String.eqb_neq in H0, H1, H2, H3.
  assert (Hs' : s' = mkSession true (qrCodeData s) true true state).
  { subst s'. cbn. rewrite H1, H2, H3, Hc, Hr, Ha. reflexivity. }
  subst voice text. rewrite Hs'. unfold send_message.
  cbn [clientExists isReady isAuthenticated negb orb req_number req_message
         req_audioData req_attachmentData req_isVoiceMessage andb
         req_attachmentType req_mimeType].
  rewrite !(truthy_Some _ Hn), (truthy_Some _ Haud), (truthy_Some _ Hm),
    !(or_else_Some _ _ Hn), (or_else_Some _ _ Haud).
  cbn [negb andb orb JS.truthy]. unfold voice_path.
  cbn [clientExists isReady isAuthenticated clientState negb orb].
  rewrite H0, H1. cbn [negb andb].
  repeat split.
  unfold text_path, bind, send, ret, calls_of. cbn [length app].
  destruct (sendMessage 0%nat _); cbn; eauto.
Qed.

Lemma state_change_blocks_voice_not_text_witness :
  let s' := fst (handle_event (OnChangeState "CONNECTED") ready_session) in
  let voice :=
    send_message (delivers_from 0) id s'
      (mkSendRequest (Some "15551234567") None (Some payload100) true None
         None None None None) [] in
  let text :=
    send_message (delivers_from 0) id s'
      (mkSendRequest (Some "15551234567") (Some "hi") None false None
         None None None None) [] in
  response_of voice
  = error_response 400
      ("WhatsApp client not in ready state. Current state: " +:+ "CONNECTED")
  /\ calls_of voice = []
  /\ exists to, calls_of text
                = [mkSendCall to (TextContent (Some "hi")) NoOptions].
Proof.
  apply (state_change_blocks_voice_not_text (delivers_from 0) id
           ready_session "CONNECTED" "15551234567" payload100 "hi" None);
    try reflexivity; discriminate.
Defined.

(** ** History pager: any batch *)

Lemma slice_length {A} (l : list A) (a b : Z) :
  0 <= a -> 0 <= b ->
  Z.of_nat (length (JS.slice l (JS.Num a) (JS.Num b))) <= Z.max 0 (b - a).
Proof.
  intros Ha Hb. unfold JS.slice, JS.relative_index.
  test_false (a <? 0). test_false (b <? 0).
  rewrite length_take, length_drop. lia.
Qed.

Lemma elem_of_slice {A} (l : list A) (a b : Z) (x : A) :
  0 <= a -> 0 <= b ->
  x ∈ JS.slice l (JS.Num a) (JS.Num b) ->
  exists j, l !! j = Some x /\ a <= Z.of_nat j < b.
Proof.
  intros Ha Hb. unfold JS.slice, JS.relative_index.
  test_false (a <? 0). test_false (b <? 0).
  intros H. apply elem_of_take in H as (i & Hi & Hlt).
  rewrite lookup_drop in Hi. pose proof (lookup_lt_Some _ _ _ Hi).
  eexists. split; [exact Hi |]. lia.
Qed.

(** The index that [findIndex] returns is the first one that satisfies
    the test. *)
Lemma findIndex_from_split {A} (p : A -> bool) (l : list A) (i : Z) :
  (JS.findIndex_from p l i = -1 /\ Forall (fun x => p x = false) l)
  \/ exists l1 x l2,
       l = l1 ++ x :: l2 /\ Forall (fun y => p y = false) l1 /\ p x = true
       /\ JS.findIndex_from p l i = i + Z.of_nat (length l1).
Proof.
  revert i. induction l as [| y l IH]; intros i; cbn.
  - left. split; [reflexivity | constructor].
  - destruct (p y) eqn:Ey.
    + right. exists [], y, l. repeat split; [constructor | assumption |].
      cbn. lia.
    + destruct (IH (i + 1)) as [[E H] | (l1 & x & l2 & -> & H1 & Hx & E)].
      * left. split; [exact E |]. constructor; assumption.
      * right. exists (y :: l1), x, l2.
        repeat split; [constructor; assumption | assumption |].
        rewrite E. cbn [length]. lia.
Qed.

(** The shape of what the cursor path selects, for any two batches: the
    messages lie at indexes of the first batch on the side of the cursor
    that the detected order names, or after the cursor in the second
    batch, and they are at most [p]. *)
Lemma older_messages_any_batch (chat : Chat) (b : string)
    (pageSize : JS.jsnum) (allMessages messages : list Message) :
  chat (JS.Num 500) = Returns allMessages ->
  older_messages chat b pageSize = Returns messages ->
  messages = []
  \/ exists p, pageSize = JS.Num p /\ 1 <= p
     /\ Z.of_nat (length messages) <= p
     /\ ((exists l1 c l2,
             allMessages = l1 ++ c :: l2
             /\ Forall (fun y => has_id b y = false) l1 /\ has_id b c = true
             /\ forall x, x ∈ messages ->
                          if isNewestFirst allMessages then x ∈ l2
                          else x ∈ l1)
         \/ (exists moreMessages l1 c l2,
                chat (JS.Num 1000) = Returns moreMessages
                /\ moreMessages = l1 ++ c :: l2
                /\ Forall (fun y => has_id b y = false) l1
                /\ has_id b c = true
                /\ forall x, x ∈ messages -> x ∈ l2)).
Proof.
  intros Hf. unfold older_messages. rewrite Hf. unfold JS.findIndex.
  destruct (findIndex_from_split (has_id b) allMessages 0)
    as [[-> _] | (l1 & c & l2 & Hall & Hl1 & Hc & ->)];
    [intros [= <-]; left; reflexivity |].
  test_true (0 <=? 0 + Z.of_nat (length l1)).
  assert (Hn : Z.of_nat (length allMessages)
               = Z.of_nat (length l1) + 1 + Z.of_nat (length l2)).
  { rewrite Hall, length_app. cbn [length]. lia. }
  assert (Hmem : forall j x, allMessages !! j = Some x ->
                 (Z.of_nat (length l1) < Z.of_nat j -> x ∈ l2)
                 /\ (Z.of_nat j < Z.of_nat (length l1) -> x ∈ l1)).
  { intros j x Hj. rewrite Hall in Hj. split; intros Hlt.
    - rewrite lookup_app_r in Hj by lia.
      destruct (j - length l1)%nat as [| k] eqn:Ek; [lia |].
      cbn in Hj. eapply list_elem_of_lookup_2. exact Hj.
    - rewrite lookup_app_l in Hj by lia.
      eapply list_elem_of_lookup_2. exact Hj. }
  destruct pageSize as [| p].
  { (* NaN: every comparison fails *)
    unfold slice_bounds.
    destruct (isNewestFirst allMessages); cbn; intros [= <-]; left;
      reflexivity. }
  unfold slice_bounds.
  destruct (isNewestFirst allMessages) eqn:Edet.
  - cbn [JS.add JS.Math_min JS.lt JS.strict_eq].
    set (start := 0 + Z.of_nat (length l1) + 1).
    set (n := Z.of_nat (length allMessages)) in *.
    remember
      (if (start <? Z.min (start + p) n) && (start <? n)
       then JS.slice allMessages (JS.Num start) (JS.Num (Z.min (start + p) n))
       else []) as first eqn:Efirst.
    assert (Hfirst : first = []
              \/ (1 <= p /\ Z.of_nat (length first) <= p
                  /\ forall x, x ∈ first -> x ∈ l2)).
    { subst first. destruct (_ && _) eqn:Econd; [| left; reflexivity].
      right. apply andb_true_iff in Econd as [E1 E2].
      apply Z.ltb_lt in E1, E2.
      split; [lia |]. split.
      - pose proof (slice_length allMessages start (Z.min (start + p) n)).
        lia.
      - intros x Hx. apply elem_of_slice in Hx as (j & Hj & Hr); try lia.
        apply (Hmem j x Hj). lia. }
    clear Efirst.
    destruct ((Z.of_nat (length first) <? p) && _) eqn:Eretry.
    + apply andb_true_iff in Eretry as [Elt _]. apply Z.ltb_lt in Elt.
      destruct (chat (JS.Num 1000)) as [moreMessages | e] eqn:Hf';
        [| discriminate].
      intros [= <-]. unfold second_attempt, JS.findIndex.
      destruct (findIndex_from_split (has_id b) moreMessages 0)
        as [[-> _] | (m1 & c' & m2 & Hmore & Hm1 & Hc' & ->)].
      * cbn [Z.leb Z.compare andb].
        destruct Hfirst as [-> | (Hp & Hlen & Hin)]; [left; reflexivity |].
        right. exists p. repeat split; try assumption.
        left. exists l1, c, l2. auto.
      * destruct (_ && _) eqn:Esecond.
        -- apply andb_true_iff in Esecond as [_ E2]. apply Z.ltb_lt in E2.
           right. exists p. cbn [JS.add JS.Math_min].
           split; [reflexivity |]. split; [lia |]. split.
           ++ match goal with
              | |- context [JS.slice ?l (JS.Num ?a) (JS.Num ?e)] =>
                  pose proof (slice_length l a e)
              end. lia.
           ++ right. exists moreMessages, m1, c', m2.
              repeat split; try assumption.
              intros x Hx. apply elem_of_slice in Hx as (j & Hj & Hr);
                try lia.
              rewrite Hmore in Hj. rewrite lookup_app_r in Hj by lia.
              destruct (j - length m1)%nat as [| k] eqn:Ek; [lia |].
              cbn in Hj. eapply list_elem_of_lookup_2. exact Hj.
        -- destruct Hfirst as [-> | (Hp & Hlen & Hin)]; [left; reflexivity |].
           right. exists p. repeat split; try assumption.
           left. exists l1, c, l2. auto.
    + intros [= <-].
      destruct Hfirst as [-> | (Hp & Hlen & Hin)]; [left; reflexivity |].
      right. exists p. repeat split; try assumption.
      left. exists l1, c, l2. auto.
  - cbn [JS.sub JS.Math_max JS.lt JS.strict_eq].
    set (stop := 0 + Z.of_nat (length l1)).
    set (n := Z.of_nat (length allMessages)) in *.
    test_false (stop =? n). rewrite andb_false_r.
    intros [= <-].
    destruct (_ && _) eqn:Econd; [| left; reflexivity].
    apply andb_true_iff in Econd as [E1 E2]. apply Z.ltb_lt in E1, E2.
    right. exists p. split; [reflexivity |]. split; [lia |]. split.
    + pose proof (slice_length allMessages (Z.max 0 (stop - p)) stop). lia.
    + left. exists l1, c, l2. repeat split; try assumption.
      intros x Hx. apply elem_of_slice in Hx as (j & Hj & Hr); try lia.
      apply (Hmem j x Hj). lia.
Qed.

Lemma chat_messages_cursor_ok (s : Session) (client : Client)
    (chatId b : string) (limit : option string)
    (page : list FormattedMessage) :
  b <> "" ->
  chat_messages s client chatId (Some b) limit = PagerOk page ->
  exists chat allMessages messages,
    client chatId = Returns (Some chat)
    /\ chat (JS.Num 500) = Returns allMessages
    /\ older_messages chat b (pageSize limit) = Returns messages
    /\ page = reverse (format_message <$> messages).
Proof.
  intros Hb. unfold chat_messages.
  destruct (_ || _); [discriminate |].
  destruct (client chatId) as [[chat |] | e]; try discriminate.
  cbn [select_messages]. apply String.eqb_neq in Hb. rewrite Hb.
  destruct (older_messages chat b (pageSize limit)) as [messages | e] eqn:Eo;
    [| discriminate].
  intros [= <-]. exists chat.
  destruct (chat (JS.Num 500)) as [allMessages | e] eqn:Ef.
  - exists allMessages, messages. auto.
  - unfold older_messages in Eo. rewrite Ef in Eo. discriminate.
Qed.

(** X10: whatever the batches hold and in whatever order, a page asked
    with a cursor never holds more messages than the page size; it is
    empty when the page size is not a positive number. *)
Theorem cursor_page_within_page_size (s : Session) (client : Client)
    (chatId b : string) (limit : option string)
    (page : list FormattedMessage) :
  b <> "" ->
  chat_messages s client chatId (Some b) limit = PagerOk page ->
  match pageSize limit with
  | JS.Num p => Z.of_nat (length page) <= Z.max 0 p
  | JS.NaN => page = []
  end.
Proof.
  intros Hb H.
  destruct (chat_messages_cursor_ok s client chatId b limit page Hb H)
    as (chat & allMessages & messages & _ & Hf & Ho & ->).
  destruct (older_messages_any_batch chat b (pageSize limit) allMessages
              messages Hf Ho) as [-> | (p & Hp & Hp1 & Hlen & _)].
  - cbn. destruct (pageSize limit); [reflexivity | lia].
  - rewrite Hp, length_reverse, length_fmap. lia.
Qed.

Lemma cursor_page_within_page_size_witness :
  match pageSize (Some "1") with
  | JS.Num p =>
      Z.of_nat (length [format_message (text_msg "m2" 2)]) <= Z.max 0 p
  | JS.NaN => [format_message (text_msg "m2" 2)] = []
  end.
Proof.
  apply (cursor_page_within_page_size ready_session
           (only_chat "c"
              (recent_chat [text_msg "m1" 1; text_msg "m2" 2; text_msg "m3" 3]
                 OldestFirst))
           "c" "m3" (Some "1") [format_message (text_msg "m2" 2)]).
  - discriminate.
  - reflexivity.
Defined.

Lemma NoDup_ids_app_cons (b : string) (l1 l2 : list Message) (c x : Message) :
  NoDup (msg_id <$> l1 ++ c :: l2) -> has_id b c = true -> x ∈ l2 ->
  msg_id x <> b.
Proof.
  intros Hnd Hc Hx E. unfold has_id in Hc. apply String.eqb_eq in Hc.
  rewrite fmap_app, fmap_cons in Hnd.
  apply NoDup_app in Hnd as (_ & _ & Hnd).
  apply NoDup_cons in Hnd as [Hnot _]. apply Hnot.
  rewrite Hc, <- E. apply list_elem_of_fmap_2. exact Hx.
Qed.

(** X11: the cursor is an exclusive bound and the page invents nothing:
    when the ids within each fetched batch are distinct, every message of
    a page asked with a cursor is the formatted form of a message of a
    fetched batch, and none carries the cursor's id. *)
Theorem cursor_page_excludes_cursor (s : Session) (client : Client)
    (chatId b : string) (chat : Chat) (limit : option string)
    (page : list FormattedMessage) :
  b <> "" ->
  client chatId = Returns (Some chat) ->
  (forall k fetched, chat (JS.Num k) = Returns fetched ->
                     NoDup (msg_id <$> fetched)) ->
  chat_messages s client chatId (Some b) limit = PagerOk page ->
  forall m, m ∈ page ->
    fm_id m <> b
    /\ exists k fetched msg,
         chat (JS.Num k) = Returns fetched /\ msg ∈ fetched
         /\ m = format_message msg.
Proof.
  intros Hb Hc Hnd H m Hm.
  destruct (chat_messages_cursor_ok s client chatId b limit page Hb H)
    as (chat' & allMessages & messages & Hc' & Hf & Ho & ->).
  rewrite Hc in Hc'. injection Hc' as <-.
  rewrite elem_of_reverse in Hm.
  apply list_elem_of_fmap in Hm as (x & -> & Hx).
  destruct (older_messages_any_batch chat b (pageSize limit) allMessages
              messages Hf Ho)
    as [-> | (p & _ & _ & _ & [(l1 & c & l2 & Hall & Hl1 & Hcid & Hin)
                               | (more & l1 & c & l2 & Hf' & Hmore & Hl1
                                  & Hcid & Hin)])];
    [inversion Hx | |].
  - specialize (Hin x Hx). destruct (isNewestFirst allMessages).
    + split.
      * eapply NoDup_ids_app_cons; [| exact Hcid | exact Hin].
        rewrite <- Hall. eapply Hnd. exact Hf.
      * exists 500, allMessages, x. repeat split; [exact Hf |].
        rewrite Hall. apply elem_of_app. right. apply elem_of_cons. auto.
    + split.
      * rewrite Forall_forall in Hl1. specialize (Hl1 x Hin).
        unfold has_id in Hl1. apply String.eqb_neq in Hl1. exact Hl1.
      * exists 500, allMessages, x. repeat split; [exact Hf |].
        rewrite Hall. apply elem_of_app. auto.
  - specialize (Hin x Hx). split.
    + eapply NoDup_ids_app_cons; [| exact Hcid | exact Hin].
      rewrite <- Hmore. eapply Hnd. exact Hf'.
    + exists 1000, more, x. repeat split; [exact Hf' |].
      rewrite Hmore. apply elem_of_app. right. apply elem_of_cons. auto.
Qed.

Lemma batch_NoDup (order : BatchOrder) (k : Z) (history : list Message) :
  NoDup (msg_id <$> history) -> NoDup (msg_id <$> batch order k history).
Proof.
  intros H. unfold batch, most_recent.
  assert (Hd : NoDup (msg_id <$> drop (length history - Z.to_nat k) history)).
  { rewrite fmap_drop. eapply sublist_NoDup; [exact H | apply sublist_drop]. }
  destruct order; [| exact Hd].
  rewrite fmap_reverse. eapply NoDup_Permutation_proper; [apply reverse_Permutation | exact Hd].
Qed.

Lemma cursor_page_excludes_cursor_witness :
  fm_id (format_message (text_msg "m2" 2)) <> "m3"
  /\ exists k fetched msg,
       recent_chat [text_msg "m1" 1; text_msg "m2" 2; text_msg "m3" 3]
         OldestFirst (JS.Num k) = Returns fetched
       /\ msg ∈ fetched /\ format_message (text_msg "m2" 2) = format_message msg.
Proof.
  apply (cursor_page_excludes_cursor ready_session
           (only_chat "c"
              (recent_chat [text_msg "m1" 1; text_msg "m2" 2; text_msg "m3" 3]
                 OldestFirst))
           "c" "m3"
           (recent_chat [text_msg "m1" 1; text_msg "m2" 2; text_msg "m3" 3]
              OldestFirst)
           (Some "1") [format_message (text_msg "m2" 2)]).
  - discriminate.
  - reflexivity.
  - intros k fetched [= <-]. apply (batch_NoDup OldestFirst). cbn.
    repeat (apply NoDup_cons; split;
            [intros Hin;
             repeat (apply elem_of_cons in Hin as [Hin | Hin];
                     [discriminate |]); inversion Hin |]).
    apply NoDup_nil_2.
  - reflexivity.
  - apply list_elem_of_singleton. reflexivity.
Defined.

(** X12: when the batch is not detected as newest-first, the page is the
    window of up to [p] messages that immediately precede the first
    message carrying the cursor's id, handed out in reverse batch order;
    the second, enlarged fetch plays no part. *)
Theorem undetected_batch_page_precedes_cursor (s : Session) (client : Client)
    (chatId b : string) (chat : Chat) (limit : option string) (p : Z)
    (before after : list Message) (cursor : Message) :
  isReady s = true -> isAuthenticated s = true ->
  client chatId = Returns (Some chat) ->
  b <> "" -> pageSize limit = JS.Num p -> 1 <= p ->
  chat (JS.Num 500) = Returns (before ++ cursor :: after) ->
  Forall (fun m => has_id b m = false) before -> has_id b cursor = true ->
  isNewestFirst (before ++ cursor :: after) = false ->
  chat_messages s client chatId (Some b) limit
  = PagerOk (reverse (format_message
                        <$> drop (length before - Z.to_nat p) before)).
Proof.
  intros Hr Ha Hc Hb Hps Hp Hf Hbefore Hcur Hdet.
  unfold chat_messages. rewrite Hr, Ha, Hc, Hps. cbn [negb orb select_messages].
  apply String.eqb_neq in Hb. rewrite Hb.
  unfold older_messages. rewrite Hf. unfold JS.findIndex.
  rewrite (findIndex_from_first _ before after cursor 0 Hbefore Hcur).
  test_true (0 <=? 0 + Z.of_nat (length before)).
  unfold slice_bounds. rewrite Hdet.
  cbn [JS.sub JS.Math_max JS.lt JS.strict_eq].
  set (i := Z.of_nat (length before)).
  assert (Hn : Z.of_nat (length (before ++ cursor :: after))
               = i + 1 + Z.of_nat (length after)).
  { rewrite length_app. cbn [length]. lia. }
  test_false (0 + i =? Z.of_nat (length (before ++ cursor :: after))).
  rewrite andb_false_r.
  destruct (_ && _) eqn:Econd.
  - apply andb_true_iff in Econd as [E1 E2]. apply Z.ltb_lt in E1, E2.
    rewrite slice_take_drop by lia.
    replace (Z.min (0 + i) (Z.of_nat (length (before ++ cursor :: after)))
             - Z.max 0 (0 + i - p))
      with (i - Z.max 0 (i - p)) by lia.
    replace (Z.to_nat (Z.max 0 (0 + i - p)))
      with (length before - Z.to_nat p)%nat by lia.
    rewrite drop_app_le by lia.
    rewrite take_app_le by (rewrite length_drop; lia).
    rewrite take_ge by (rewrite length_drop; lia).
    reflexivity.
  - apply andb_false_iff in Econd.
    assert (i = 0) as Hi0.
    { destruct Econd as [E | E]; apply Z.ltb_ge in E; lia. }
    assert (before = []) as -> by (apply length_zero_iff_nil; lia).
    reflexivity.
Qed.

Lemma undetected_batch_page_precedes_cursor_witness :
  chat_messages ready_session
    (only_chat "c"
       (recent_chat [text_msg "m1" 1; text_msg "m2" 2; text_msg "m3" 3]
          OldestFirst))
    "c" (Some "m3") (Some "1")
  = PagerOk (reverse (format_message
                        <$> drop (length [text_msg "m1" 1; text_msg "m2" 2]
                                  - Z.to_nat 1)
                              [text_msg "m1" 1; text_msg "m2" 2])).
Proof.
  apply (undetected_batch_page_precedes_cursor ready_session
           (only_chat "c"
              (recent_chat [text_msg "m1" 1; text_msg "m2" 2; text_msg "m3" 3]
                 OldestFirst))
           "c" "m3"
           (recent_chat [text_msg "m1" 1; text_msg "m2" 2; text_msg "m3" 3]
              OldestFirst)
           (Some "1") 1 [text_msg "m1" 1; text_msg "m2" 2] []
           (text_msg "m3" 3));
    try reflexivity; try discriminate; try lia.
  repeat constructor.
Defined.

(** X13: when the batch is detected as newest-first and at least [p]
    messages follow the first message carrying the cursor's id, the page
    is exactly the [p] messages that immediately follow it, handed out in
    reverse batch order, and no second fetch is made. *)
Theorem detected_batch_page_follows_cursor (s : Session) (client : Client)
    (chatId b : string) (chat : Chat) (limit : option string) (p : Z)
    (before after : list Message) (cursor : Message) :
  isReady s = true -> isAuthenticated s = true ->
  client chatId = Returns (Some chat) ->
  b <> "" -> pageSize limit = JS.Num p -> 1 <= p ->
  chat (JS.Num 500) = Returns (before ++ cursor :: after) ->
  Forall (fun m => has_id b m = false) before -> has_id b cursor = true ->
  isNewestFirst (before ++ cursor :: after) = true ->
  p <= Z.of_nat (length after) ->
  chat_messages s client chatId (Some b) limit
  = PagerOk (reverse (format_message <$> take (Z.to_nat p) after)).
Proof.
  intros Hr Ha Hc Hb Hps Hp Hf Hbefore Hcur Hdet Hlen.
  unfold chat_messages. rewrite Hr, Ha, Hc, Hps. cbn [negb orb select_messages].
  apply String.eqb_neq in Hb. rewrite Hb.
  unfold older_messages. rewrite Hf. unfold JS.findIndex.
  rewrite (findIndex_from_first _ before after cursor 0 Hbefore Hcur).
  test_true (0 <=? 0 + Z.of_nat (length before)).
  unfold slice_bounds. rewrite Hdet.
  cbn [JS.add JS.Math_min JS.lt JS.strict_eq].
  set (i := Z.of_nat (length before)).
  assert (Hn : Z.of_nat (length (before ++ cursor :: after))
               = i + 1 + Z.of_nat (length after)).
  { rewrite length_app. cbn [length]. lia. }
  rewrite Hn.
  test_true (0 + i + 1 <? Z.min (0 + i + 1 + p) (i + 1 + Z.of_nat (length after))).
  test_true (0 + i + 1 <? i + 1 + Z.of_nat (length after)).
  cbn [andb]. rewrite slice_take_drop by lia. rewrite Hn.
  replace (Z.min (Z.min (0 + i + 1 + p) (i + 1 + Z.of_nat (length after)))
             (i + 1 + Z.of_nat (length after)) - (0 + i + 1)) with p by lia.
  replace (Z.to_nat (0 + i + 1)) with (length before + 1)%nat by lia.
  rewrite drop_app_ge by lia.
  replace (length before + 1 - length before)%nat with 1%nat by lia.
  change (drop 1 (cursor :: after)) with (drop 0 after).
  rewrite drop_0, length_take.
  test_false (Z.of_nat (Z.to_nat p `min` length after) <? p).
  reflexivity.
Qed.

Lemma detected_batch_page_follows_cursor_witness :
  chat_messages ready_session
    (only_chat "c"
       (recent_chat [text_msg "m1" 1; text_msg "m2" 2; text_msg "m3" 3]
          NewestFirst))
    "c" (Some "m3") (Some "1")
  = PagerOk (reverse (format_message
                        <$> take (Z.to_nat 1)
                              [text_msg "m2" 2; text_msg "m1" 1])).
Proof.
  apply (detected_batch_page_follows_cursor ready_session
           (only_chat "c"
              (recent_chat [text_msg "m1" 1; text_msg "m2" 2; text_msg "m3" 3]
                 NewestFirst))
           "c" "m3"
           (recent_chat [text_msg "m1" 1; text_msg "m2" 2; text_msg "m3" 3]
              NewestFirst)
           (Some "1") 1 [] [text_msg "m2" 2; text_msg "m1" 1]
           (text_msg "m3" 3));
    try reflexivity; try discriminate; try (cbn; lia).
  constructor.
Defined.

(** ** Pinned messages: single requests *)

Lemma pinned_of_other_chat (s : Session) (client : Client)
    (req : PinRequest) (pm : gmap string (list PinnedMessage)) (c : string) :
  pin_chatId req <> Some c ->
  pinned_of c (snd (pin_message s client req pm)) = pinned_of c pm.
Proof.
  intros Hne. unfold pin_message.
  destruct (_ || _); [reflexivity |].
  destruct req as [[chatId |] [messageId |] [action |]];
    cbn [pin_chatId pin_messageId pin_action] in *; try reflexivity.
  assert (chatId <> c) as Hc by congruence.
  destruct (_ || _); [reflexivity |].
  assert (Hins : forall l pm',
             pinned_of c (<[chatId := l]> pm') = pinned_of c pm').
  { intros l pm'. rewrite pinned_of_insert.
    destruct (decide (chatId = c)); [contradiction | reflexivity]. }
  destruct (String.eqb action "pin").
  - destruct (is_pinned _ _); [cbn; apply pinned_of_ensure |].
    destruct (client chatId) as [[chat |] | e];
      try (cbn; apply pinned_of_ensure).
    destruct (chat (JS.Num 100)) as [messages | e];
      [| cbn; apply pinned_of_ensure].
    destruct (List.find _ _); cbn; [rewrite Hins |]; apply pinned_of_ensure.
  - destruct (String.eqb action "unpin"); cbn; [rewrite Hins |];
      apply pinned_of_ensure.
Qed.


(** X14: a pin or unpin request changes the pinned list of no chat other
    than the one it names. *)
Theorem pin_request_leaves_other_chats (s : Session) (client : Client)
    (req : PinRequest) (pm : gmap string (list PinnedMessage)) (c : string) :
  pin_chatId req <> Some c ->
  get_pinned_messages c (snd (pin_message s client req pm))
  = get_pinned_messages c pm.
Proof.
  intros Hne. unfold get_pinned_messages. apply pinned_of_other_chat, Hne.
Qed.

Lemma pin_request_leaves_other_chats_witness :
  get_pinned_messages "other"
    (snd (pin_message ready_session
            (only_chat "c" (recent_chat [text_msg "m1" 1] NewestFirst))
            (mkPinRequest (Some "c") (Some "m1") (Some "pin"))
            {[ "other" := [to_pinned (text_msg "m7" 7)] ]}))
  = get_pinned_messages "other" {[ "other" := [to_pinned (text_msg "m7" 7)] ]}.
Proof.
  apply (pin_request_leaves_other_chats ready_session
           (only_chat "c" (recent_chat [text_msg "m1" 1] NewestFirst))
           (mkPinRequest (Some "c") (Some "m1") (Some "pin"))
           {[ "other" := [to_pinned (text_msg "m7" 7)] ]} "other").
  discriminate.
Defined.

Lemma is_pinned_filter_others (messageId : string) (l : list PinnedMessage) :
  is_pinned messageId
    (List.filter (fun p => negb (String.eqb (pin_id p) messageId)) l) = false.
Proof.
  unfold is_pinned. induction l as [| x l IH]; [reflexivity |].
  cbn. destruct (String.eqb (pin_id x) messageId) eqn:E; cbn; [exact IH |].
  rewrite E, IH. reflexivity.
Qed.

(** X15: an unpin request in a ready session answers with a success
    without calling the client; the chat's list becomes the former list
    without the entries of that message id, the other entries keeping
    their order; the id is then not pinned, and a second unpin changes
    nothing more. *)
Theorem unpin_removes_only_that_message (s : Session) (client : Client)
    (chatId messageId : string) (pm : gmap string (list PinnedMessage)) :
  isReady s = true -> isAuthenticated s = true ->
  chatId <> "" -> messageId <> "" ->
  let req := mkPinRequest (Some chatId) (Some messageId) (Some "unpin") in
  let kept :=
    List.filter (fun p => negb (String.eqb (pin_id p) messageId))
      (get_pinned_messages chatId pm) in
  let result := pin_message s client req pm in
  fst result = PinOk kept "Message unpined successfully"
  /\ get_pinned_messages chatId (snd result) = kept
  /\ is_pinned messageId kept = false
  /\ get_pinned_messages chatId (snd (pin_message s client req (snd result)))
     = kept.
Proof.
  intros Hr Ha Hc Hm req kept result.
  assert (Hstep : forall pm',
             pin_message s client req pm'
             = pin_ok chatId "unpin"
                 (<[chatId :=
                      List.filter
                        (fun p => negb (String.eqb (pin_id p) messageId))
                        (pinned_of chatId pm')]>
                    match pm' !! chatId with
                    | Some _ => pm'
                    | None => <[chatId := []]> pm'
                    end)).
  { intros pm'. unfold pin_message. rewrite Hr, Ha.
    cbn [negb orb req pin_chatId pin_messageId pin_action].
    pose proof Hc as Hc'. pose proof Hm as Hm'.
    apply String.eqb_neq in Hc', Hm'. rewrite Hc', Hm'.
    cbn [String.eqb Ascii.eqb Bool.eqb orb].
    rewrite (pinned_of_ensure chatId chatId). reflexivity. }
  subst result. rewrite Hstep. unfold pin_ok. cbn [fst snd].
  unfold get_pinned_messages in *.
  rewrite pinned_of_insert. destruct (decide (chatId = chatId)); [| congruence].
  repeat split.
  - apply is_pinned_filter_others.
  - rewrite Hstep. unfold pin_ok. cbn [snd].
    rewrite !pinned_of_insert.
    destruct (decide (chatId = chatId)); [| congruence].
    apply filter_others_id, is_pinned_filter_others.
Qed.

Lemma unpin_removes_only_that_message_witness :
  let pm : gmap string (list PinnedMessage) :=
    {[ "c" := [to_pinned (text_msg "m1" 1); to_pinned (text_msg "m2" 2)] ]} in
  let client : Client := fun _ => Throws "offline" in
  let req := mkPinRequest (Some "c") (Some "m1") (Some "unpin") in
  let kept :=
    List.filter (fun p => negb (String.eqb (pin_id p) "m1"))
      (get_pinned_messages "c" pm) in
  let result := pin_message ready_session client req pm in
  fst result = PinOk kept "Message unpined successfully"
  /\ get_pinned_messages "c" (snd result) = kept
  /\ is_pinned "m1" kept = false
  /\ get_pinned_messages "c"
       (snd (pin_message ready_session client req (snd result)))
     = kept.
Proof.
  apply (unpin_removes_only_that_message ready_session
           (fun _ => Throws "offline") "c" "m1"
           {[ "c" := [to_pinned (text_msg "m1" 1);
                      to_pinned (text_msg "m2" 2)] ]});
    try reflexivity; discriminate.
Defined.

(** X16: a pin request for an id that is not pinned, in a ready session
    whose client returns the chat and its last 100 messages, answers with a
    success in both cases: when a fetched message carries the id, its
    summary is appended at the end of the chat's list (and carries that
    id); when none does, the list is left as it was.  The list in the
    answer is the list that GET /api/pinned-messages then returns. *)
Theorem pin_appends_found_message (s : Session) (client : Client)
    (chat : Chat) (chatId messageId : string) (messages : list Message)
    (pm : gmap string (list PinnedMessage)) :
  isReady s = true -> isAuthenticated s = true ->
  chatId <> "" -> messageId <> "" ->
  is_pinned messageId (get_pinned_messages chatId pm) = false ->
  client chatId = Returns (Some chat) ->
  chat (JS.Num 100) = Returns messages ->
  let result :=
    pin_message s client
      (mkPinRequest (Some chatId) (Some messageId) (Some "pin")) pm in
  let pinned :=
    get_pinned_messages chatId pm
    ++ match List.find (has_id messageId) messages with
       | Some message => [to_pinned message]
       | None => []
       end in
  fst result = PinOk pinned "Message pined successfully"
  /\ get_pinned_messages chatId (snd result) = pinned
  /\ Forall (fun p => pin_id p = messageId)
       (drop (length (get_pinned_messages chatId pm)) pinned).
Proof.
  intros Hr Ha Hc Hm Hnew Hcl Hf result pinned. subst result pinned.
  unfold get_pinned_messages in *. unfold pin_message. rewrite Hr, Ha.
  cbn [negb orb pin_chatId pin_messageId pin_action].
  apply String.eqb_neq in Hc, Hm. rewrite Hc, Hm.
  cbn [String.eqb Ascii.eqb Bool.eqb orb].
  rewrite (pinned_of_ensure chatId chatId), Hnew, Hcl, Hf.
  destruct (List.find (has_id messageId) messages) as [message |] eqn:Efind.
  - unfold pin_ok. cbn [fst snd]. rewrite pinned_of_insert.
    destruct (decide (chatId = chatId)); [| congruence].
    repeat split. rewrite drop_app_length. repeat constructor.
    eapply find_has_id. exact Efind.
  - unfold pin_ok. cbn [fst snd].
    rewrite (pinned_of_ensure chatId chatId), app_nil_r.
    repeat split. rewrite drop_all. constructor.
Qed.

Lemma pin_appends_found_message_witness :
  let client := only_chat "c" (recent_chat [text_msg "m1" 1] NewestFirst) in
  let result :=
    pin_message ready_session client
      (mkPinRequest (Some "c") (Some "m1") (Some "pin")) ∅ in
  let pinned :=
    get_pinned_messages "c" ∅
    ++ match List.find (has_id "m1") [text_msg "m1" 1] with
       | Some message => [to_pinned message]
       | None => []
       end in
  fst result = PinOk pinned "Message pined successfully"
  /\ get_pinned_messages "c" (snd result) = pinned
  /\ Forall (fun p => pin_id p = "m1")
       (drop (length (get_pinned_messages "c" ∅)) pinned).
Proof.
  apply (pin_appends_found_message ready_session
           (only_chat "c" (recent_chat [text_msg "m1" 1] NewestFirst))
           (recent_chat [text_msg "m1" 1] NewestFirst) "c" "m1"
           [text_msg "m1" 1] ∅);
    try reflexivity; discriminate.
Defined.

(** X17: an action that is neither "pin" nor "unpin" is not refused: in a
    ready session the handler answers with a success, "Message <action>ed
    successfully", and leaves every chat's pinned list as it was. *)
Theorem unknown_pin_action_succeeds_unchanged (s : Session) (client : Client)
    (chatId messageId action : string)
    (pm : gmap string (list PinnedMessage)) (c : string) :
  isReady s = true -> isAuthenticated s = true ->
  chatId <> "" -> messageId <> "" -> action <> "" ->
  action <> "pin" -> action <> "unpin" ->
  let result :=
    pin_message s client
      (mkPinRequest (Some chatId) (Some messageId) (Some action)) pm in
  fst result
  = PinOk (get_pinned_messages chatId pm)
      ("Message " +:+ action +:+ "ed successfully")
  /\ get_pinned_messages c (snd result) = get_pinned_messages c pm.
Proof.
  intros Hr Ha Hc Hm Hact Hp Hu result. subst result.
  unfold get_pinned_messages, pin_message. rewrite Hr, Ha.
  cbn [negb orb pin_chatId pin_messageId pin_action].
  apply String.eqb_neq in Hc, Hm, Hact, Hp, Hu.
  rewrite Hc, Hm, Hact, Hp, Hu. cbn [orb pin_ok fst snd].
  rewrite !pinned_of_ensure. split; reflexivity.
Qed.

Lemma unknown_pin_action_succeeds_unchanged_witness :
  let result :=
    pin_message ready_session (fun _ => Throws "offline")
      (mkPinRequest (Some "c") (Some "m1") (Some "toggle")) ∅ in
  fst result
  = PinOk (get_pinned_messages "c" ∅)
      ("Message " +:+ "toggle" +:+ "ed successfully")
  /\ get_pinned_messages "c" (snd result) = get_pinned_messages "c" ∅.
Proof.
  apply (unknown_pin_action_succeeds_unchanged ready_session
           (fun _ => Throws "offline") "c" "m1" "toggle" ∅ "c");
    try reflexivity; discriminate.
Defined.

(** ** Contacts, chats and the media gallery *)

Lemma or_else_nonempty (o : option string) (d : string) :
  d <> "" -> JS.or_else o d <> "".
Proof.
  intros Hd. unfold JS.or_else. destruct o as [x |]; [| exact Hd].
  destruct (String.eqb x "") eqn:E; [exact Hd |].
  apply String.eqb_neq. exact E.
Qed.

(** X20: in a ready session whose client returns its contacts, the
    handler lists every contact, in the client's order, and under a name
    that is never empty (the contact's name, else its push name, else
    "Unknown"). *)
Theorem contacts_listed_with_names (s : Session)
    (contacts : list Contact) :
  isReady s = true -> isAuthenticated s = true ->
  exists listed,
    get_contacts s (Returns contacts) = ContactsOk listed
    /\ fc_id <$> listed = contact_id <$> contacts
    /\ fc_number <$> listed = contact_number <$> contacts
    /\ Forall (fun c => fc_name c <> "") listed.
Proof.
  intros Hr Ha. unfold get_contacts. rewrite Hr, Ha. cbn [negb orb].
  eexists. split; [reflexivity |].
  rewrite <- !list_fmap_compose. repeat split.
  apply Forall_fmap, Forall_forall. intros c _. cbn.
  apply or_else_nonempty, or_else_nonempty. discriminate.
Qed.

Lemma contacts_listed_with_names_witness :
  exists listed,
    get_contacts ready_session
      (Returns [mkContact "1@c.us" None (Some "") "1" false false;
                mkContact "2@c.us" (Some "") (Some "Bo") "2" false true])
    = ContactsOk listed
    /\ fc_id <$> listed = ["1@c.us"; "2@c.us"]
    /\ fc_number <$> listed = ["1"; "2"]
    /\ Forall (fun c => fc_name c <> "") listed.
Proof.
  apply (contacts_listed_with_names ready_session
           [mkContact "1@c.us" None (Some "") "1" false false;
            mkContact "2@c.us" (Some "") (Some "Bo") "2" false true]);
    reflexivity.
Defined.

(** X21: in a ready session whose client returns its chats, the handler
    lists every chat, in the client's order, whatever fetching the latest
    message of each chat does: a chat whose fetch throws, or returns no
    message, is listed with an empty last message and an empty timestamp,
    and the request does not fail. *)
Theorem chats_listed_despite_fetch_failures (toLocaleString : Z -> string)
    (s : Session) (chats : list ChatInfo) :
  isReady s = true -> isAuthenticated s = true ->
  exists listed,
    get_chats toLocaleString s (Returns chats) = ChatsOk listed
    /\ fchat_id <$> listed = chat_id <$> chats
    /\ Forall (fun c => fchat_name c <> "") listed
    /\ Forall2 (fun chat c =>
                  match chat_fetchMessages chat (JS.Num 1) with
                  | Returns (latest :: _) =>
                      fchat_lastMessage c = msg_body latest
                      /\ fchat_timestamp c
                         = toLocaleString (msg_timestamp latest)
                  | _ => fchat_lastMessage c = "" /\ fchat_timestamp c = ""
                  end)
         chats listed.
Proof.
  intros Hr Ha. unfold get_chats. rewrite Hr, Ha. cbn [negb orb].
  eexists. split; [reflexivity |].
  rewrite <- !list_fmap_compose. repeat split.
  - apply Forall_fmap, Forall_forall. intros c _. cbn.
    apply or_else_nonempty. discriminate.
  - apply Forall2_fmap_r, Forall2_same_length_lookup.
    split; [reflexivity |].
    intros i x y Hx Hy. rewrite Hx in Hy. injection Hy as <-.
    unfold format_chat. cbn.
    destruct (chat_fetchMessages x (JS.Num 1)) as [[| m l] | e];
      split; reflexivity.
Qed.

Lemma chats_listed_despite_fetch_failures_witness :
  let chats :=
    [mkChatInfo "a@c.us" (Some "Ann") false 2 (fun _ => Throws "detached");
     mkChatInfo "b@g.us" None true 0
       (recent_chat [text_msg "m1" 1] NewestFirst)] in
  exists listed,
    get_chats (fun _ => "now") ready_session (Returns chats) = ChatsOk listed
    /\ fchat_id <$> listed = chat_id <$> chats
    /\ Forall (fun c => fchat_name c <> "") listed
    /\ Forall2 (fun chat c =>
                  match chat_fetchMessages chat (JS.Num 1) with
                  | Returns (latest :: _) =>
                      fchat_lastMessage c = msg_body latest
                      /\ fchat_timestamp c
                         = (fun _ : Z => "now") (msg_timestamp latest)
                  | _ => fchat_lastMessage c = "" /\ fchat_timestamp c = ""
                  end)
         chats listed.
Proof.
  apply (chats_listed_despite_fetch_failures (fun _ => "now") ready_session
           [mkChatInfo "a@c.us" (Some "Ann") false 2
              (fun _ => Throws "detached");
            mkChatInfo "b@g.us" None true 0
              (recent_chat [text_msg "m1" 1] NewestFirst)]);
    reflexivity.
Defined.

(** The gallery loop from any gallery in which no metadata-only item sits
    at index 23 or beyond. *)
Lemma build_gallery_shape (mediaMessages : list Message)
    (mediaGallery : list GalleryItem) :
  (forall i item, mediaGallery !! i = Some item ->
                  gi_mediaUrl item = None -> (i < 23)%nat) ->
  exists k,
    (k <= length mediaMessages)%nat
    /\ build_gallery mediaMessages mediaGallery
       = mediaGallery
         ++ ((fun msg => gallery_base msg (image_url msg))
               <$> take k mediaMessages)
    /\ ((k < length mediaMessages)%nat -> (24 <= length mediaGallery + k)%nat)
    /\ forall i item,
         build_gallery mediaMessages mediaGallery !! i = Some item ->
         gi_mediaUrl item = None -> (23 <= i)%nat ->
         S i = length (build_gallery mediaMessages mediaGallery).
Proof.
  revert mediaGallery.
  induction mediaMessages as [| msg rest IH]; intros acc Hacc.
  - exists 0%nat. cbn. rewrite app_nil_r. repeat split; try lia.
    intros i item Hi Hu Hge. specialize (Hacc i item Hi Hu). lia.
  - cbn [build_gallery]. destruct (image_url msg) as [url |] eqn:Eurl.
    + destruct (IH (acc ++ [gallery_base msg (Some url)]))
        as (k & Hk & Heq & Hcut & Hlast).
      { intros i item Hi Hu.
        destruct (decide (i < length acc)%nat) as [Hlt | Hge].
        - rewrite lookup_app_l in Hi by exact Hlt. eapply Hacc; eauto.
        - rewrite lookup_app_r in Hi by lia.
          destruct (i - length acc)%nat; cbn in Hi; [| discriminate].
          injection Hi as <-. discriminate. }
      exists (S k). cbn [length take fmap list_fmap]. rewrite Eurl.
      repeat split; try lia.
      * rewrite Heq, <- app_assoc. reflexivity.
      * intros H. rewrite length_app in Hcut. cbn [length] in Hcut. lia.
      * exact Hlast.
    + destruct (24 <=? Z.of_nat (length (acc ++ [gallery_base msg None])))
        eqn:Efull.
      * apply Z.leb_le in Efull. rewrite length_app in Efull.
        cbn [length] in Efull.
        exists 1%nat. cbn [length take fmap list_fmap]. rewrite Eurl.
        repeat split; try lia.
        intros i item Hi Hu Hge. rewrite length_app. cbn [length].
        destruct (decide (i < length acc)%nat) as [Hlt | Hnlt].
        -- rewrite lookup_app_l in Hi by exact Hlt.
           specialize (Hacc i item Hi Hu). lia.
        -- pose proof (lookup_lt_Some _ _ _ Hi) as Hb.
           rewrite length_app in Hb. cbn [length] in Hb. lia.
      * apply Z.leb_gt in Efull. rewrite length_app in Efull.
        cbn [length] in Efull.
        destruct (IH (acc ++ [gallery_base msg None]))
          as (k & Hk & Heq & Hcut & Hlast).
        { intros i item Hi Hu.
          pose proof (lookup_lt_Some _ _ _ Hi) as Hb.
          rewrite length_app in Hb. cbn [length] in Hb. lia. }
        exists (S k). cbn [length take fmap list_fmap]. rewrite Eurl.
        repeat split; try lia.
        -- rewrite Heq, <- app_assoc. reflexivity.
        -- intros H. rewrite length_app in Hcut. cbn [length] in Hcut. lia.
        -- exact Hlast.
Qed.

Lemma is_gallery_media_types (msg : Message) :
  is_gallery_media msg = true ->
  msg_hasMedia msg = true
  /\ (msg_type msg = "image" \/ msg_type msg = "video"
      \/ msg_type msg = "document").
Proof.
  unfold is_gallery_media. intros H.
  apply andb_true_iff in H as [H1 H2]. split; [exact H1 |].
  apply orb_true_iff in H2 as [H2 | H2];
    [apply orb_true_iff in H2 as [H2 | H2] |];
    apply String.eqb_eq in H2; auto.
Qed.

(** X22: in a ready session whose client returns the chat and its last 50
    messages, the media gallery lists, in order and without a gap, a first
    stretch of the messages that carry an image, a video or a document;
    only images carry a data URL; the stretch ends early only once the
    gallery holds 24 items, and an item listed without a data URL at index
    23 or beyond is the last one. *)
Theorem media_gallery_is_prefix_of_media (s : Session) (client : Client)
    (chatId : string) (chat : Chat) (messages : list Message) :
  isReady s = true -> isAuthenticated s = true ->
  client chatId = Returns (Some chat) ->
  chat (JS.Num 50) = Returns messages ->
  let media := List.filter is_gallery_media messages in
  exists k,
    chat_media s client chatId
    = MediaOk ((fun msg => gallery_base msg (image_url msg))
                 <$> take k media)
    /\ ((k < length media)%nat -> (24 <= k)%nat)
    /\ (forall i msg, take k media !! i = Some msg ->
          (msg_type msg = "image" \/ msg_type msg = "video"
           \/ msg_type msg = "document")
          /\ (image_url msg <> None -> msg_type msg = "image")
          /\ (image_url msg = None -> (23 <= i)%nat -> S i = k)).
Proof.
  intros Hr Ha Hc Hf media.
  unfold chat_media. rewrite Hr, Ha, Hc, Hf. cbn [negb orb]. fold media.
  destruct (build_gallery_shape media []) as (k & Hk & Heq & Hcut & Hlast).
  { intros i item Hi. inversion Hi. }
  exists k. rewrite Heq. cbn [app length] in *. repeat split.
  - exact Hcut.
  - apply list_elem_of_lookup_2, subseteq_take in H.
    apply list_elem_of_In, List.filter_In in H as [_ H].
    apply is_gallery_media_types in H. tauto.
  - unfold image_url. destruct (String.eqb (msg_type msg) "image") eqn:E;
      [intros _; apply String.eqb_eq; exact E | congruence].
  - intros Hu Hge.
    pose proof (lookup_lt_Some _ _ _ H) as Hb.
    specialize (Hlast i (gallery_base msg (image_url msg))).
    rewrite Heq in Hlast. cbn [app] in Hlast.
    rewrite length_fmap in Hlast. rewrite length_take in *.
    rewrite list_lookup_fmap, H in Hlast.
    specialize (Hlast eq_refl Hu Hge). lia.
Qed.

Lemma media_gallery_is_prefix_of_media_witness :
  let messages :=
    [text_msg "m1" 1;
     mkMessage "m2" "cat" 2 false "15551234567@c.us" "me@c.us" true "image"
       (Returns (Some (mkMediaData "image/png" "iVBORw0KGgo=")));
     mkMessage "m3" "" 3 true "me@c.us" "15551234567@c.us" true "video"
       (Returns None)] in
  let media := List.filter is_gallery_media messages in
  exists k,
    chat_media ready_session (only_chat "c" (fun _ => Returns messages)) "c"
    = MediaOk ((fun msg => gallery_base msg (image_url msg))
                 <$> take k media)
    /\ ((k < length media)%nat -> (24 <= k)%nat)
    /\ (forall i msg, take k media !! i = Some msg ->
          (msg_type msg = "image" \/ msg_type msg = "video"
           \/ msg_type msg = "document")
          /\ (image_url msg <> None -> msg_type msg = "image")
          /\ (image_url msg = None -> (23 <= i)%nat -> S i = k)).
Proof.
  apply (media_gallery_is_prefix_of_media ready_session
           (only_chat "c"
              (fun _ =>
                 Returns
                   [text_msg "m1" 1;
                    mkMessage "m2" "cat" 2 false "15551234567@c.us" "me@c.us"
                      true "image"
                      (Returns (Some (mkMediaData "image/png" "iVBORw0KGgo=")));
                    mkMessage "m3" "" 3 true "me@c.us" "15551234567@c.us" true
                      "video" (Returns None)]))
           "c"
           (fun _ =>
              Returns
                [text_msg "m1" 1;
                 mkMessage "m2" "cat" 2 false "15551234567@c.us" "me@c.us"
                   true "image"
                   (Returns (Some (mkMediaData "image/png" "iVBORw0KGgo=")));
                 mkMessage "m3" "" 3 true "me@c.us" "15551234567@c.us" true
                   "video" (Returns None)]));
    reflexivity.
Defined.

(** ** Attachments, and repeated pins *)

(** X18: when the handler makes a send for an attachment, the media it
    sends carries the declared type, a payload that is not empty and has
    the base64 shape (the request's data without its data-URL prefix), and
    the given file name or "attachment"; the caption goes along exactly
    when the request has a non-empty one. *)
Theorem attachment_send_carries_base64
    (sendMessage : nat -> SendCall -> Outcome)
    (reencode_base64 : string -> string)
    (s : Session) (req : SendRequest) (attachmentData attachmentType : string)
    (c : SendCall) :
  req_isVoiceMessage req = false ->
  req_attachmentData req = Some attachmentData -> attachmentData <> "" ->
  req_attachmentType req = Some attachmentType -> attachmentType <> "" ->
  c ∈ calls_of (send_message sendMessage reencode_base64 s req []) ->
  exists data,
    cleanAttachmentData attachmentData = Some data
    /\ data <> "" /\ looks_base64 data = true
    /\ call_content c
       = MediaContent
           (mkMessageMedia attachmentType data
              (JS.or_else (req_attachmentName req) "attachment"))
    /\ call_options c
       = (if JS.truthy (req_caption req)
          then CaptionOption (JS.or_else (req_caption req) "")
          else NoOptions).
Proof.
  intros Hv Hd Hdne Ht Htne. unfold send_message.
  destruct (negb (clientExists s)); [intros H; inversion H |].
  destruct (_ || _); [intros H; inversion H |].
  destruct (_ || _); [intros H; inversion H |].
  rewrite Hv, Hd, Ht, (truthy_Some _ Hdne), (truthy_Some _ Htne),
    (or_else_Some _ _ Hdne), (or_else_Some _ _ Htne).
  cbn [andb]. unfold attachment_path, bind, ret, send, calls_of.
  destruct (cleanAttachmentData attachmentData) as [data |] eqn:Eclean;
    [| intros H; inversion H].
  destruct (JS.len data =? 0) eqn:E0; [intros H; inversion H |].
  destruct (looks_base64 data) eqn:Eb; cbn [negb orb];
    [| intros H; inversion H].
  cbn [length app]. intros H.
  assert (Hc : c = mkSendCall
                     (if JS.includes (JS.or_else (req_number req) "") "@c.us"
                      then JS.or_else (req_number req) ""
                      else JS.or_else (req_number req) "" +:+ "@c.us")
                     (MediaContent
                        (mkMessageMedia attachmentType data
                           (JS.or_else (req_attachmentName req) "attachment")))
                     match req_caption req with
                     | Some cap =>
                         if String.eqb cap "" then NoOptions
                         else CaptionOption cap
                     | None => NoOptions
                     end).
  { destruct (sendMessage 0%nat _); cbn in H;
      apply list_elem_of_singleton in H; exact H. }
  exists data. subst c. cbn [call_content call_options].
  repeat split; try assumption.
  - intros ->. discriminate.
  - destruct (req_caption req) as [cap |]; [| reflexivity].
    cbn. destruct (String.eqb cap ""); reflexivity.
Qed.

Lemma attachment_send_carries_base64_witness :
  let req :=
    mkSendRequest (Some "15551234567") None None false None
      (Some "data:image/png;base64,iVBORw0KGgo=") (Some "image/png")
      (Some "cat.png") (Some "look") in
  exists data,
    cleanAttachmentData "data:image/png;base64,iVBORw0KGgo=" = Some data
    /\ data <> "" /\ looks_base64 data = true
    /\ call_content
         (mkSendCall "15551234567@c.us"
            (MediaContent (mkMessageMedia "image/png" "iVBORw0KGgo=" "cat.png"))
            (CaptionOption "look"))
       = MediaContent
           (mkMessageMedia "image/png" data
              (JS.or_else (req_attachmentName req) "attachment"))
    /\ call_options
         (mkSendCall "15551234567@c.us"
            (MediaContent (mkMessageMedia "image/png" "iVBORw0KGgo=" "cat.png"))
            (CaptionOption "look"))
       = (if JS.truthy (req_caption req)
          then CaptionOption (JS.or_else (req_caption req) "")
          else NoOptions).
Proof.
  apply (attachment_send_carries_base64 (delivers_from 0) id ready_session
           (mkSendRequest (Some "15551234567") None None false None
              (Some "data:image/png;base64,iVBORw0KGgo=") (Some "image/png")
              (Some "cat.png") (Some "look"))
           "data:image/png;base64,iVBORw0KGgo=" "image/png"
           (mkSendCall "15551234567@c.us"
              (MediaContent
                 (mkMessageMedia "image/png" "iVBORw0KGgo=" "cat.png"))
              (CaptionOption "look")));
    try reflexivity; try discriminate.
  vm_compute. apply list_elem_of_singleton. reflexivity.
Defined.

Lemma is_pinned_pushed (messageId : string) (l : list PinnedMessage)
    (x : PinnedMessage) :
  pin_id x = messageId -> is_pinned messageId (l ++ [x]) = true.
Proof.
  intros Hx. unfold is_pinned. rewrite existsb_app. cbn.
  rewrite Hx, String.eqb_refl. cbn. apply orb_true_r.
Qed.

(** [pin_message] run twice on the same pin request, with the same session
    and the same client answers, leaves every chat's pinned list as one run
    does. *)
Lemma pin_message_twice (s : Session) (client : Client)
    (chatId messageId : string) (pm : gmap string (list PinnedMessage))
    (c : string) :
  let req := mkPinRequest (Some chatId) (Some messageId) (Some "pin") in
  let once := snd (pin_message s client req pm) in
  get_pinned_messages c (snd (pin_message s client req once))
  = get_pinned_messages c once.
Proof.
  intros req once. unfold get_pinned_messages.
  destruct (is_pinned messageId (pinned_of chatId once)) eqn:Ep.
  { apply pin_already_pinned_is_noop. exact Ep. }
  (* not pinned after the first request: the first request found nothing
     to pin, and the second meets the same answers *)
  assert (Hsame : forall c', pinned_of c' once = pinned_of c' pm).
  { intros c'.
    pose proof (pin_message_effect s client req pm c') as Heff.
    change (snd (pin_message s client req pm)) with once in Heff.
    destruct Heff as [E | m x Hm _ _ Hx E | m _ Ha _];
      [exact E | | discriminate].
    exfalso. cbn in Hm. injection Hm as <-.
    destruct (decide (c' = chatId)) as [-> | Hne].
    - rewrite E, (is_pinned_pushed _ _ _ Hx) in Ep. discriminate.
    - assert (pinned_of c' once = pinned_of c' pm) as E'
        by (apply (pinned_of_other_chat s client req pm c');
            cbn; congruence).
      rewrite E' in E. apply (f_equal length) in E.
      rewrite length_app in E. cbn in E. lia. }
  rewrite Hsame.
  assert (Hgen : forall pm1 pm2,
             (forall c', pinned_of c' pm1 = pinned_of c' pm2) ->
             pinned_of c (snd (pin_message s client req pm1))
             = pinned_of c (snd (pin_message s client req pm2))).
  { intros pm1 pm2 H. unfold pin_message.
    destruct (_ || _); [apply H |].
    cbn [req pin_chatId pin_messageId pin_action].
    destruct (_ || _); [apply H |].
    cbn [String.eqb Ascii.eqb Bool.eqb].
    rewrite !(pinned_of_ensure chatId chatId), (H chatId).
    destruct (is_pinned messageId (pinned_of chatId pm2));
      [cbn; rewrite !pinned_of_ensure; apply H |].
    destruct (client chatId) as [[chat |] | e];
      try (cbn; rewrite !pinned_of_ensure; apply H).
    destruct (chat (JS.Num 100)) as [messages | e];
      [| cbn; rewrite !pinned_of_ensure; apply H].
    destruct (List.find _ _); cbn;
      [rewrite !pinned_of_insert; destruct (decide (chatId = c));
       [reflexivity |] |]; rewrite !pinned_of_ensure; apply H. }
  rewrite (Hgen once pm Hsame). apply Hsame.
Qed.

(** X19: after any requests, overlapping or not, a pin request is handled
    with no other handler in between, and then the same request is handled
    so again, with the same session and the same client answers: the second
    changes no chat's pinned list. *)
Theorem second_pin_after_first_answered_changes_nothing
    (s : Session) (client : Client) (chatId messageId : string)
    (events : list PinEvent) (c : string) :
  let req := mkPinRequest (Some chatId) (Some messageId) (Some "pin") in
  let once :=
    handle_uninterrupted s client req (run_pin_events events no_pins) in
  stored c (pin_store (handle_uninterrupted s client req once))
  = stored c (pin_store once).
Proof.
  intros req once.
  assert (Hwf : server_wf (run_pin_events events no_pins))
    by apply run_pin_events_wf, no_pins_wf.
  set (pm := pin_view (pin_store (run_pin_events events no_pins))).
  destruct (handle_uninterrupted_is_pin_message s client req _ pm Hwf)
    as (_ & _ & H1); [intros c'; symmetry; apply stored_view |].
  fold once in H1.
  destruct (handle_uninterrupted_is_pin_message s client req once
              (snd (pin_message s client req pm)))
    as (_ & _ & H2); [apply handle_uninterrupted_wf, Hwf | exact H1 |].
  rewrite H2, H1. apply pin_message_twice.
Qed.
